(** * popcap_pak_extractor.c: a shallow embedding and its properties

    The extractor is one C file: a bump allocator over a chain of blocks
    (the arena), a byte codec (XOR with 0xf7), a parser for the record
    table of a .pak container, and an extraction loop that copies every
    record's payload to a file of its own.

    C integers are [Z] with their wrap-around written out ([size_t] is 64
    bits wide, [UINT32] 32 bits); bytes are [Z] in [0, 256); a [char]
    array is a [list Z]; pool memory is a pair of finite maps from pool
    pointers to the objects stored there; the operating system (malloc,
    the file system) is a record of oracles plus the state it keeps. *)

From Stdlib Require Import ZArith Lia.
From stdpp Require Import gmap list.

Open Scope Z_scope.

(** ** Machine integers *)

Definition SIZE_MOD : Z := 2 ^ 64.
Definition UINT32_MOD : Z := 2 ^ 32.

(** [size_t] arithmetic wraps modulo 2^64. *)
Definition size_wrap (z : Z) : Z := z mod SIZE_MOD.
Definition u32_wrap (z : Z) : Z := z mod UINT32_MOD.

Definition sizeof_ArenaAllocator : Z := 24.
Definition sizeof_ArenaBlockHeader : Z := 24.
Definition sizeof_FileAttr : Z := 32.
Definition BYTES_OF_MAGIC : Z := 4.
Definition BYTES_OF_VERSION : Z := 4.
Definition BYTES_OF_FILE_SIZE : Z := 4.
Definition BYTES_OF_FILE_TIME : Z := 8.
Definition MAX_PATH : Z := 260.
Definition BACKSLASH : Z := 92.

(** A path or file name, as the characters of a C string (no terminator). *)
Definition path : Type := list Z.

(** A pointer into the pool: the number of the block (blocks are numbered
    in creation order, the oldest is block 0) and the byte offset in the
    block's payload. *)
Definition ptr : Type := (nat * Z)%type.

(** ** The environment: what the operating system decides *)

Record Env := mkEnv {
  (** [malloc_ok n bytes]: does the [n]-th call of malloc (counted from 0),
      asking for [bytes] bytes, succeed? *)
  malloc_ok : nat -> Z -> bool;
  (** the byte found at position [i] of an object that was never written *)
  indet : nat -> Z;
  (** the byte stored just before the first character of [argv[2]] *)
  stray_byte : Z;
  (** [fopen(path, "w")] of the side-car list succeeds *)
  fopen_w_ok : path -> bool;
  (** [CreateDirectory] is allowed for a path that does not exist yet *)
  mkdir_ok : path -> bool;
  (** [CreateFile(.., CREATE_NEW, ..)] is allowed for a path that does not exist yet *)
  create_ok : path -> bool;
  (** [WriteFile] of [n] more bytes to a file that holds [have] bytes *)
  write_ok : path -> Z -> Z -> bool;
  (** [SetFileTime] on the file *)
  settime_ok : path -> bool
}.

(** ** Outcomes of a run *)

Inductive outcome (A : Type) : Type :=
| Ret (a : A)      (* the call returns *)
| Aborted          (* abort() ended the process *)
| Undefined        (* the C code wrote outside an array *)
| OutOfFuel.       (* the loop bound of the model was reached *)

Arguments Ret {A} a.
Arguments Aborted {A}.
Arguments Undefined {A}.
Arguments OutOfFuel {A}.

(** ** The arena allocator *)

(** [next] is the tail of the list that holds the header. *)
Record ArenaBlockHeader := mkBlock {
  used : Z;
  capacity : Z
}.

Record ArenaAllocator := mkArena {
  head : list ArenaBlockHeader;   (* most recently created block first *)
  blockSize : Z;
  blockNum : Z
}.

Definition arena_create (env : Env) (blockSize : Z) : option ArenaAllocator :=
  if negb (malloc_ok env 0%nat sizeof_ArenaAllocator) then None
  else if negb (malloc_ok env 1%nat (size_wrap (sizeof_ArenaBlockHeader + blockSize)))
  then None
  else Some (mkArena [mkBlock 0 blockSize] blockSize 1).

(** Returns the number of the new block. *)
Definition arena_create_new_block (env : Env) (arena : ArenaAllocator)
    (size used : Z) : outcome (nat * ArenaAllocator) :=
  if malloc_ok env (S (length (head arena)))
       (size_wrap (sizeof_ArenaBlockHeader + size))
  then Ret (length (head arena),
            mkArena (mkBlock used size :: head arena) (blockSize arena)
                    (size_wrap (blockNum arena + 1)))
  else Aborted.

(** The [while (cursor != NULL)] loop of [arena_malloc]. *)
Fixpoint arena_scan (cursor : list ArenaBlockHeader) (size : Z)
    : option (ptr * list ArenaBlockHeader) :=
  match cursor with
  | [] => None
  | b :: next =>
      if size_wrap (used b + size) <=? capacity b then
        let used' := size_wrap (used b + size) in
        Some ((length next, size_wrap (used' - size)),
              mkBlock used' (capacity b) :: next)
      else
        match arena_scan next size with
        | Some (p, next') => Some (p, b :: next')
        | None => None
        end
  end.

Definition arena_malloc (env : Env) (arena : ArenaAllocator) (size : Z)
    : outcome (ptr * ArenaAllocator) :=
  match arena_scan (head arena) size with
  | Some (p, blocks) => Ret (p, mkArena blocks (blockSize arena) (blockNum arena))
  | None =>
      match (if size <? blockSize arena
             then arena_create_new_block env arena (blockSize arena) size
             else arena_create_new_block env arena size size) with
      | Ret (n, arena') => Ret ((n, 0), arena')
      | Aborted => Aborted
      | Undefined => Undefined
      | OutOfFuel => OutOfFuel
      end
  end.

(** ** The codec *)

(** [(unsigned char)(c ^ 0xf7)] *)
Definition decode_one_byte (c : Z) : Z := Z.lxor c 247 mod 256.

(** [decode_bytes(buf, buf, len)]: the first [len] bytes are decoded in place. *)
Definition decode_bytes (buf : list Z) (len : Z) : list Z :=
  (decode_one_byte <$> take (Z.to_nat len) buf) ++ drop (Z.to_nat len) buf.

(** ** The container stream *)

Record FILE := mkFILE {
  f_data : list Z;   (* the bytes after the read cursor *)
  f_eof : bool       (* the end-of-file indicator *)
}.

(** [fread(buf, 1, n, f)]: the bytes read replace the front of [buf]; the
    indicator is set when fewer than [n] bytes were left. *)
Definition fread (n : Z) (buf : list Z) (f : FILE) : list Z * Z * FILE :=
  let got := take (Z.to_nat n) (f_data f) in
  (got ++ drop (length got) buf,
   Z.of_nat (length got),
   mkFILE (drop (Z.to_nat n) (f_data f))
          (f_eof f || (Z.of_nat (length (f_data f)) <? n))).

(** [n] bytes that were never written. *)
Definition fresh_bytes (env : Env) (n : Z) : list Z :=
  indet env <$> seq 0 (Z.to_nat n).

(** The value of four bytes read as a little-endian [UINT32], and back. *)
Definition u32_of_bytes (bs : list Z) : Z :=
  bs !!! 0%nat + 256 * bs !!! 1%nat + 65536 * bs !!! 2%nat + 16777216 * bs !!! 3%nat.

Definition bytes_of_u32 (n : Z) : list Z :=
  [n mod 256; (n / 256) mod 256; (n / 65536) mod 256; (n / 16777216) mod 256].

(** The characters of the C string that starts a [char] array. *)
Fixpoint cstring (buf : list Z) : list Z :=
  match buf with
  | [] => []
  | c :: rest => if c =? 0 then [] else c :: cstring rest
  end.

(** ** Records and the program state *)

Record FileAttr := mkFileAttr {
  fileName : ptr;
  fileSize : Z;
  lastWriteTime : list Z;
  next : option ptr
}.

Record FileAttrList := mkFileAttrList {
  fl_head : option ptr;
  fl_tail : option ptr;
  fl_length : Z
}.

Record PakHeader := mkPakHeader {
  magic : list Z;
  version : list Z;
  flist : FileAttrList
}.

Inductive message : Type :=
| ErrParentDirs (p : path)
| ErrCreateFile (p : path)
| ErrWriteFile
| ErrSetFileTime.

Record State := mkState {
  st_arena : ArenaAllocator;                 (* res->arena *)
  st_pakFile : FILE;                         (* res->pakFile *)
  st_list : list (list Z * Z);               (* lines printed to res->filenameListSav *)
  st_header : PakHeader;                     (* header of main *)
  st_attrs : gmap ptr FileAttr;              (* the FileAttr nodes in the pool *)
  st_bufs : gmap ptr (list Z);               (* the char arrays in the pool *)
  st_dirs : gset path;                       (* directories of the file system *)
  st_files : gmap path (list Z);             (* files and their contents *)
  st_times : gmap path (list Z);             (* last-write times set *)
  st_stderr : list message                   (* what was printed to stderr *)
}.

Definition set_arena (a : ArenaAllocator) (s : State) : State :=
  mkState a (st_pakFile s) (st_list s) (st_header s) (st_attrs s) (st_bufs s)
          (st_dirs s) (st_files s) (st_times s) (st_stderr s).
Definition set_pakFile (f : FILE) (s : State) : State :=
  mkState (st_arena s) f (st_list s) (st_header s) (st_attrs s) (st_bufs s)
          (st_dirs s) (st_files s) (st_times s) (st_stderr s).
Definition set_list (l : list (list Z * Z)) (s : State) : State :=
  mkState (st_arena s) (st_pakFile s) l (st_header s) (st_attrs s) (st_bufs s)
          (st_dirs s) (st_files s) (st_times s) (st_stderr s).
Definition set_header (h : PakHeader) (s : State) : State :=
  mkState (st_arena s) (st_pakFile s) (st_list s) h (st_attrs s) (st_bufs s)
          (st_dirs s) (st_files s) (st_times s) (st_stderr s).
Definition set_attrs (m : gmap ptr FileAttr) (s : State) : State :=
  mkState (st_arena s) (st_pakFile s) (st_list s) (st_header s) m (st_bufs s)
          (st_dirs s) (st_files s) (st_times s) (st_stderr s).
Definition set_bufs (m : gmap ptr (list Z)) (s : State) : State :=
  mkState (st_arena s) (st_pakFile s) (st_list s) (st_header s) (st_attrs s) m
          (st_dirs s) (st_files s) (st_times s) (st_stderr s).
Definition set_dirs (d : gset path) (s : State) : State :=
  mkState (st_arena s) (st_pakFile s) (st_list s) (st_header s) (st_attrs s) (st_bufs s)
          d (st_files s) (st_times s) (st_stderr s).
Definition set_files (m : gmap path (list Z)) (s : State) : State :=
  mkState (st_arena s) (st_pakFile s) (st_list s) (st_header s) (st_attrs s) (st_bufs s)
          (st_dirs s) m (st_times s) (st_stderr s).
Definition set_times (m : gmap path (list Z)) (s : State) : State :=
  mkState (st_arena s) (st_pakFile s) (st_list s) (st_header s) (st_attrs s) (st_bufs s)
          (st_dirs s) (st_files s) m (st_stderr s).
Definition set_stderr (e : list message) (s : State) : State :=
  mkState (st_arena s) (st_pakFile s) (st_list s) (st_header s) (st_attrs s) (st_bufs s)
          (st_dirs s) (st_files s) (st_times s) e.

(** ** The monad of the program: state passing with the four outcomes *)

Definition M (A : Type) : Type := State -> outcome (A * State).

Definition ret {A} (a : A) : M A := fun s => Ret (a, s).

Definition bind {A B} (m : M A) (k : A -> M B) : M B :=
  fun s =>
    match m s with
    | Ret (a, s') => k a s'
    | Aborted => Aborted
    | Undefined => Undefined
    | OutOfFuel => OutOfFuel
    end.

Notation "'let*' x ':=' m 'in' k" := (bind m (fun x => k))
  (at level 10, x pattern, m at level 200, k at level 200).

Definition get : M State := fun s => Ret (s, s).
Definition gets {A} (f : State -> A) : M A := fun s => Ret (f s, s).
Definition modify (f : State -> State) : M unit := fun s => Ret (tt, f s).
Definition eprint (m : message) : M unit :=
  modify (fun s => set_stderr (st_stderr s ++ [m]) s).

Definition fail_undefined {A} : M A := fun _ => Undefined.
Definition out_of_fuel {A} : M A := fun _ => OutOfFuel.

(** [arena_malloc(res->arena, size)] *)
Definition res_arena_malloc (env : Env) (size : Z) : M ptr :=
  fun s =>
    match arena_malloc env (st_arena s) size with
    | Ret (p, a) => Ret (p, set_arena a s)
    | Aborted => Aborted
    | Undefined => Undefined
    | OutOfFuel => OutOfFuel
    end.

(** [fread(buf, 1, n, res->pakFile)]: the new contents of [buf] and the count. *)
Definition pak_fread (n : Z) (buf : list Z) : M (list Z * Z) :=
  fun s =>
    let '(buf', cnt, f) := fread n buf (st_pakFile s) in
    Ret ((buf', cnt), set_pakFile f s).

Definition load_attr (p : ptr) : M FileAttr :=
  fun s => match st_attrs s !! p with Some a => Ret (a, s) | None => Undefined end.
Definition store_attr (p : ptr) (a : FileAttr) : M unit :=
  modify (fun s => set_attrs (<[p := a]> (st_attrs s)) s).
Definition load_buf (p : ptr) : M (list Z) :=
  fun s => match st_bufs s !! p with Some b => Ret (b, s) | None => Undefined end.
Definition store_buf (p : ptr) (b : list Z) : M unit :=
  modify (fun s => set_bufs (<[p := b]> (st_bufs s)) s).

(** The contents of a [FileAttr] that [arena_malloc] has just handed out:
    [fileSize] lies at bytes 8..11 of the struct, [lastWriteTime] at 12..19. *)
Definition fresh_attr (env : Env) : FileAttr :=
  mkFileAttr (0%nat, 0) (u32_of_bytes (indet env <$> seq 8 4))
             (indet env <$> seq 12 8) None.

(** ** The parser *)

Definition file_attr_list_init : M unit :=
  modify (fun s =>
    let h := st_header s in
    set_header (mkPakHeader (magic h) (version h) (mkFileAttrList None None 0)) s).

Definition set_flist (fl : FileAttrList) : M unit :=
  modify (fun s =>
    let h := st_header s in set_header (mkPakHeader (magic h) (version h) fl) s).

Definition file_attr_list_add (attr : ptr) : M unit :=
  let* a := load_attr attr in
  let* _ := store_attr attr (mkFileAttr (fileName a) (fileSize a) (lastWriteTime a) None) in
  let* fl := gets (fun s => flist (st_header s)) in
  let len := size_wrap (fl_length fl + 1) in
  match fl_head fl with
  | None => set_flist (mkFileAttrList (Some attr) (Some attr) len)
  | Some h =>
      match fl_tail fl with
      | None => fail_undefined
      | Some t =>
          let* ta := load_attr t in
          let* _ := store_attr t
                      (mkFileAttr (fileName ta) (fileSize ta) (lastWriteTime ta) (Some attr)) in
          set_flist (mkFileAttrList (Some h) (Some attr) len)
      end
  end.

Definition pak_header_init : M unit := file_attr_list_init.

Definition parse_magic : M unit :=
  let* h := gets st_header in
  let* (buf, _) := pak_fread BYTES_OF_MAGIC (magic h) in
  modify (set_header (mkPakHeader (decode_bytes buf BYTES_OF_MAGIC) (version h) (flist h))).

Definition parse_version : M unit :=
  let* h := gets st_header in
  let* (buf, _) := pak_fread BYTES_OF_VERSION (version h) in
  modify (set_header (mkPakHeader (magic h) (decode_bytes buf BYTES_OF_VERSION) (flist h))).

Definition reach_pak_header_end (env : Env) : M bool :=
  let* (flag, _) := pak_fread 1 (fresh_bytes env 1) in
  ret (decode_one_byte (flag !!! 0%nat) =? 128).

Definition parse_file_name (env : Env) (attr : ptr) : M unit :=
  let* (byte, _) := pak_fread 1 (fresh_bytes env 1) in
  let filenameLen := u32_wrap (decode_one_byte (byte !!! 0%nat)) in
  let size := size_wrap (u32_wrap (filenameLen + 1) * 1) in
  let* name := res_arena_malloc env size in
  let buf0 := <[Z.to_nat filenameLen := 0]> (fresh_bytes env size) in
  let* (buf1, _) := pak_fread filenameLen buf0 in
  let* _ := store_buf name (decode_bytes buf1 filenameLen) in
  let* a := load_attr attr in
  store_attr attr (mkFileAttr name (fileSize a) (lastWriteTime a) (next a)).

Definition parse_file_size (attr : ptr) : M unit :=
  let* a := load_attr attr in
  let* (buf, _) := pak_fread BYTES_OF_FILE_SIZE (bytes_of_u32 (fileSize a)) in
  store_attr attr
    (mkFileAttr (fileName a) (u32_of_bytes (decode_bytes buf BYTES_OF_FILE_SIZE))
                (lastWriteTime a) (next a)).

Definition parse_file_last_write_time (attr : ptr) : M unit :=
  let* a := load_attr attr in
  let* (buf, _) := pak_fread BYTES_OF_FILE_TIME (lastWriteTime a) in
  store_attr attr
    (mkFileAttr (fileName a) (fileSize a) (decode_bytes buf BYTES_OF_FILE_TIME) (next a)).

(** The [while (!feof(res->pakFile))] loop; [fuel] bounds its iterations. *)
Fixpoint parse_all_file_attrs (fuel : nat) (env : Env) : M unit :=
  match fuel with
  | O => out_of_fuel
  | S fuel' =>
      let* eof := gets (fun s => f_eof (st_pakFile s)) in
      if eof then ret tt
      else
        let* stop := reach_pak_header_end env in
        if stop then ret tt
        else
          let* attr := res_arena_malloc env sizeof_FileAttr in
          let* _ := store_attr attr (fresh_attr env) in
          let* _ := parse_file_name env attr in
          let* _ := parse_file_size attr in
          let* _ := parse_file_last_write_time attr in
          let* _ := file_attr_list_add attr in
          parse_all_file_attrs fuel' env
  end.

Definition parse_pak_header (fuel : nat) (env : Env) : M unit :=
  let* _ := parse_magic in
  let* _ := parse_version in
  parse_all_file_attrs fuel env.

(** ** The file system *)

Definition is_dir_exist (p : path) : M bool :=
  gets (fun s => bool_decide (p ∈ st_dirs s)).

Definition CreateDirectory (env : Env) (p : path) : M bool :=
  fun s =>
    if bool_decide (p ∈ st_dirs s) || bool_decide (is_Some (st_files s !! p))
       || negb (mkdir_ok env p)
    then Ret (false, s)
    else Ret (true, set_dirs ({[p]} ∪ st_dirs s) s).

(** [CreateFile(path, GENERIC_WRITE, 0, NULL, CREATE_NEW, ..)]: the handle
    is the path of the new, empty file; [None] is INVALID_HANDLE_VALUE. *)
Definition CreateFile (env : Env) (p : path) : M (option path) :=
  fun s =>
    if bool_decide (p ∈ st_dirs s) || bool_decide (is_Some (st_files s !! p))
       || negb (create_ok env p)
    then Ret (None, s)
    else Ret (Some p, set_files (<[p := []]> (st_files s)) s).

Definition WriteFile (env : Env) (h : path) (bytes : list Z) : M bool :=
  fun s =>
    let old := default [] (st_files s !! h) in
    if write_ok env h (Z.of_nat (length old)) (Z.of_nat (length bytes))
    then Ret (true, set_files (<[h := old ++ bytes]> (st_files s)) s)
    else Ret (false, s).

Definition SetFileTime (env : Env) (h : path) (t : list Z) : M bool :=
  fun s =>
    if settime_ok env h
    then Ret (true, set_times (<[h := t]> (st_times s)) s)
    else Ret (false, s).

(** ** Saving *)

(** The bytes that [build_complete_path] stores through [buf], in the order
    of the stores ([buf] is only ever written and then incremented).
    [before] is the byte in front of [extractPath], which the function
    reads when the root is the empty string.  The array that [buf] points
    into is not part of this definition, and neither is [len], which the
    function never reads: the caller's array of [MAX_PATH] bytes is in
    [parse_and_extract_one_file], an array of any capacity in
    [build_complete_path_in]. *)
Definition build_complete_path (before : Z) (extractPath fileName : list Z) : list Z :=
  let root := cstring extractPath in
  let last_char :=
    match length root with
    | O => before
    | S k => extractPath !!! k
    end in
  root ++ (if negb (last_char =? BACKSLASH) then [BACKSLASH] else [])
       ++ cstring fileName ++ [0].

(** The loop of [recursive_create_parent_dirs]: [done] are the characters
    before the cursor, [todo] those from the cursor on. The result is the
    flag and the C string that [path] holds when the function returns. *)
Fixpoint create_parent_dirs_from (env : Env) (done todo : list Z) : M (bool * path) :=
  match todo with
  | [] => ret (true, done)
  | c :: todo' =>
      if c =? BACKSLASH then
        let* exists_ := is_dir_exist done in
        if exists_ then create_parent_dirs_from env (done ++ [c]) todo'
        else
          let* created := CreateDirectory env done in
          if created then create_parent_dirs_from env (done ++ [c]) todo'
          else ret (false, done)
      else create_parent_dirs_from env (done ++ [c]) todo'
  end.

Definition recursive_create_parent_dirs (env : Env) (p : path) : M (bool * path) :=
  create_parent_dirs_from env [] p.

(** The [while (fileSize > 0)] loop of [parse_and_extract_one_file]; the
    result is [false] when it was left through [goto tidy_up]. *)
Fixpoint copy_payload (fuel : nat) (env : Env) (hFile : path) (fileSize : Z)
    (buf : ptr) (len : Z) : M bool :=
  match fuel with
  | O => out_of_fuel
  | S fuel' =>
      if 0 <? fileSize then
        let* old := load_buf buf in
        let* (new, cnt) := pak_fread (if fileSize <? len then fileSize else len) old in
        let readLen := u32_wrap cnt in
        let decoded := decode_bytes new readLen in
        let* _ := store_buf buf decoded in
        let* written := WriteFile env hFile (take (Z.to_nat readLen) decoded) in
        if negb written then
          let* _ := eprint ErrWriteFile in ret false
        else copy_payload fuel' env hFile (u32_wrap (fileSize - readLen)) buf len
      else ret true
  end.

Definition parse_and_extract_one_file (fuel : nat) (env : Env) (attr : ptr)
    (extractPath : list Z) (buf : ptr) (len : Z) : M unit :=
  let* a := load_attr attr in
  let fileSize := fileSize a in
  let* name := load_buf (fileName a) in
  let stored := build_complete_path (stray_byte env) extractPath name in
  if MAX_PATH <? Z.of_nat (length stored) then fail_undefined
  else
    let* (ok, shown) := recursive_create_parent_dirs env (cstring stored) in
    if negb ok then eprint (ErrParentDirs shown)
    else
      let* hFile := CreateFile env (cstring stored) in
      match hFile with
      | None => eprint (ErrCreateFile (cstring stored))
      | Some h =>
          let* copied := copy_payload fuel env h fileSize buf len in
          if copied then
            let* set := SetFileTime env h (lastWriteTime a) in
            if negb set then eprint ErrSetFileTime else ret tt
          else ret tt
      end.

(** [fprintf(res->filenameListSav, "%s, %ld\n", ..)] for every record: the
    list keeps the two arguments of each line. *)
Fixpoint save_file_name_list_from (fuel : nat) (attr : option ptr) : M unit :=
  match attr with
  | None => ret tt
  | Some p =>
      match fuel with
      | O => out_of_fuel
      | S fuel' =>
          let* a := load_attr p in
          let* name := load_buf (fileName a) in
          let* _ := modify (fun s => set_list (st_list s ++ [(cstring name, fileSize a)]) s) in
          save_file_name_list_from fuel' (next a)
      end
  end.

Definition save_file_name_list (fuel : nat) : M unit :=
  let* h := gets st_header in
  save_file_name_list_from fuel (fl_head (flist h)).

Fixpoint extract_files_from (fuel : nat) (env : Env) (attr : option ptr)
    (extractPath : list Z) (buf : ptr) (len : Z) : M unit :=
  match attr with
  | None => ret tt
  | Some p =>
      match fuel with
      | O => out_of_fuel
      | S fuel' =>
          let* _ := parse_and_extract_one_file fuel env p extractPath buf len in
          let* a := load_attr p in
          extract_files_from fuel' env (next a) extractPath buf len
      end
  end.

Definition extract_files (fuel : nat) (env : Env) (extractPath : list Z) : M unit :=
  let* h := gets st_header in
  let buf_size := 8192 in
  let* buf := res_arena_malloc env (size_wrap (buf_size * 1)) in
  let* _ := store_buf buf (fresh_bytes env buf_size) in
  extract_files_from fuel env (fl_head (flist h)) extractPath buf buf_size.

(** ** The session *)

(** f i l e n a m e s . t x t *)
Definition filenames_txt : path :=
  [102; 105; 108; 101; 110; 97; 109; 101; 115; 46; 116; 120; 116].

(** [resource_init].  The list file that [fopen(.., "w")] creates or empties
    is kept apart from [st_files]: its lines are [st_list], and [st_files]
    holds the other files.  So the model is that of a run whose container
    and whose destinations are not the list file itself; the stream of the
    container is the content the file had when it was opened. *)
Definition resource_init (env : Env) (pakFilePath filenameListSavPath : path) : M bool :=
  match arena_create env 8192 with
  | None => ret false
  | Some arena =>
      let* pak := gets (fun s => st_files s !! pakFilePath) in
      match pak with
      | None => ret false
      | Some bytes =>
          if negb (fopen_w_ok env filenameListSavPath) then ret false
          else
            let* _ := modify (set_arena arena) in
            let* _ := modify (set_pakFile (mkFILE bytes false)) in
            let* _ := modify (set_list []) in
            ret true
      end
  end.

(** [main]: [argv] holds the [argc] arguments, the program name first. *)
Definition main (fuel : nat) (env : Env) (argv : list path) : M Z :=
  if negb (Z.of_nat (length argv) =? 3) then ret 1
  else
    let* exists_ := is_dir_exist (argv !!! 2%nat) in
    if exists_ then ret 1
    else
      let* ok := resource_init env (argv !!! 1%nat) filenames_txt in
      if negb ok then ret 1
      else
        let* _ := pak_header_init in
        let* _ := parse_pak_header fuel env in
        let* _ := save_file_name_list fuel in
        let* _ := extract_files fuel env (argv !!! 2%nat ++ [0]) in
        ret 0.

(** The state in which [main] starts: nothing is allocated or open, the
    locals of [main] were never written, the file system is as given. *)
Definition initial_state (env : Env) (dirs : gset path) (files : gmap path (list Z)) : State :=
  mkState (mkArena [] 0 0) (mkFILE [] false) []
          (mkPakHeader (fresh_bytes env BYTES_OF_MAGIC) (fresh_bytes env BYTES_OF_VERSION)
                       (mkFileAttrList None None 0))
          ∅ ∅ dirs files ∅ [].

(** * What the statements below are about *)

(** ** The allocator as the specification words it *)

(** The scan of the specification: the first block, most recent first, with
    [capacity - used >= size] serves the request and its [used] grows by
    [size]. *)
Fixpoint spec_scan (blocks : list ArenaBlockHeader) (size : Z)
    : option (ptr * list ArenaBlockHeader) :=
  match blocks with
  | [] => None
  | b :: older =>
      if size <=? capacity b - used b then
        Some ((length older, used b), mkBlock (used b + size) (capacity b) :: older)
      else
        match spec_scan older size with
        | Some (p, older') => Some (p, b :: older')
        | None => None
        end
  end.

(** The outcome of [allocate(size)] in the specification: the span's start
    and the blocks of the pool afterwards. *)
Definition spec_allocate (env : Env) (arena : ArenaAllocator) (size : Z)
    : outcome (ptr * list ArenaBlockHeader) :=
  match spec_scan (head arena) size with
  | Some r => Ret r
  | None =>
      if malloc_ok env (S (length (head arena)))
           (size_wrap (sizeof_ArenaBlockHeader + Z.max (blockSize arena) size))
      then Ret ((length (head arena), 0),
                mkBlock size (Z.max (blockSize arena) size) :: head arena)
      else Aborted
  end.

(** ** Invariants of the pool *)

(** [used] of block number [k]; 0 for a block that does not exist yet. *)
Fixpoint used_of (blocks : list ArenaBlockHeader) (k : nat) : Z :=
  match blocks with
  | [] => 0
  | b :: older => if decide (k = length older) then used b else used_of older k
  end.

Definition block_ok (b : ArenaBlockHeader) : Prop := 0 <= used b <= capacity b.

(** No sum [used + size] of the allocator can wrap: every field is below 2^63. *)
Definition block_small (b : ArenaBlockHeader) : Prop :=
  0 <= used b <= capacity b /\ capacity b < 2 ^ 63.

Definition arena_small (a : ArenaAllocator) : Prop :=
  0 <= blockSize a < 2 ^ 63 /\ Forall block_small (head a).

Definition total_used (blocks : list ArenaBlockHeader) : Z :=
  foldr (fun b acc => used b + acc) 0 blocks.
Definition total_capacity (blocks : list ArenaBlockHeader) : Z :=
  foldr (fun b acc => capacity b + acc) 0 blocks.

(** A span handed out by [arena_malloc]: its start and its size. *)
Definition span : Type := (ptr * Z)%type.

(** Two spans share a byte. *)
Definition spans_overlap (s1 s2 : span) : bool :=
  bool_decide (s1.1.1 = s2.1.1)
  && (Z.max s1.1.2 s2.1.2 <? Z.min (s1.1.2 + s1.2) (s2.1.2 + s2.2)).

(** A client that calls [arena_malloc] once for every size of the list and
    keeps the spans it was given. *)
Fixpoint arena_malloc_all (env : Env) (arena : ArenaAllocator) (sizes : list Z)
    : outcome (list span * ArenaAllocator) :=
  match sizes with
  | [] => Ret ([], arena)
  | size :: rest =>
      match arena_malloc env arena size with
      | Ret (p, arena') =>
          match arena_malloc_all env arena' rest with
          | Ret (spans, arena'') => Ret ((p, size) :: spans, arena'')
          | Aborted => Aborted
          | Undefined => Undefined
          | OutOfFuel => OutOfFuel
          end
      | Aborted => Aborted
      | Undefined => Undefined
      | OutOfFuel => OutOfFuel
      end
  end.

(** Every pair of spans of the list is disjoint. *)
Fixpoint pairwise_disjoint (spans : list span) : Prop :=
  match spans with
  | [] => True
  | s :: rest => Forall (fun s' => spans_overlap s s' = false) rest /\ pairwise_disjoint rest
  end.

(** ** The record list in the pool *)

(** The nodes reached from [h] by following [next] are exactly [ps]. *)
Fixpoint chain (attrs : gmap ptr FileAttr) (h : option ptr) (ps : list ptr) : Prop :=
  match ps with
  | [] => h = None
  | p :: ps' => h = Some p /\ exists a, attrs !! p = Some a /\ chain attrs (next a) ps'
  end.

(** The list of [header] holds the nodes [ps], in this order. *)
Definition flist_holds (s : State) (ps : list ptr) : Prop :=
  let fl := flist (st_header s) in
  chain (st_attrs s) (fl_head fl) ps /\ fl_tail fl = last ps /\
  fl_length fl = size_wrap (Z.of_nat (length ps)) /\ NoDup ps.

(** Byte [p] of the pool lies below the [used] mark of its block. *)
Definition allocated (a : ArenaAllocator) (p : ptr) : Prop :=
  0 <= p.2 < used_of (head a) p.1.

(** Every object of the pool memory starts at an allocated byte. *)
Definition heap_allocated (s : State) : Prop :=
  (forall p, is_Some (st_attrs s !! p) -> allocated (st_arena s) p) /\
  (forall p, is_Some (st_bufs s !! p) -> allocated (st_arena s) p).

(** The records of a list, head to tail, as a loop over [next] reads them:
    the contents of the name array, the size and the time of every node. *)
Fixpoint records_from (fuel : nat) (s : State) (attr : option ptr)
    : option (list (list Z * Z * list Z)) :=
  match attr with
  | None => Some []
  | Some p =>
      match fuel with
      | O => None
      | S fuel' =>
          match st_attrs s !! p with
          | None => None
          | Some a =>
              match st_bufs s !! fileName a, records_from fuel' s (next a) with
              | Some name, Some rest => Some ((name, fileSize a, lastWriteTime a) :: rest)
              | _, _ => None
              end
          end
      end
  end.

(** Node [p] holds the record with this name array, size and time. *)
Definition stored (s : State) (p : ptr) (r : list Z * Z * list Z) : Prop :=
  exists a, st_attrs s !! p = Some a /\
            st_bufs s !! fileName a = Some r.1.1 /\
            fileSize a = r.1.2 /\ lastWriteTime a = r.2.

(** ** Containers *)

(** An entry of the record table as the parser reads it: the flag byte, the
    name (its length goes into the length byte), the size and the time. *)
Record entry := mkEntry {
  e_flag : Z;
  e_name : list Z;
  e_size : Z;
  e_time : list Z
}.

Definition is_byte (b : Z) : Prop := 0 <= b < 256.

Definition entry_ok (e : entry) : Prop :=
  is_byte (e_flag e) /\ e_flag e <> 128 /\
  (length (e_name e) <= 255)%nat /\ Forall is_byte (e_name e) /\
  0 <= e_size e < UINT32_MOD /\
  length (e_time e) = 8%nat /\ Forall is_byte (e_time e).

Definition plain_entry (e : entry) : list Z :=
  [e_flag e; Z.of_nat (length (e_name e))] ++ e_name e
    ++ bytes_of_u32 (e_size e) ++ e_time e.

(** The codec is its own inverse, so encoding is decoding. *)
Definition encode (bytes : list Z) : list Z := decode_one_byte <$> bytes.

(** The encoded record table: the entries and the end flag 0x80. *)
Definition record_table (es : list entry) : list Z :=
  encode (concat (plain_entry <$> es) ++ [128]).

Definition record_of (e : entry) : list Z * Z * list Z :=
  (e_name e ++ [0], e_size e, e_time e).

(** ** Vocabulary of the parser's lemmas *)

(** The name array after [parse_file_name]: [L] decoded bytes (those of the
    stream as far as it goes, then what the array held) and the terminator. *)
Definition name_array (env : Env) (L : Z) (rest : list Z) : list Z :=
  let got := take (Z.to_nat L) rest in
  (decode_one_byte <$> (got ++ drop (length got) (take (Z.to_nat L) (fresh_bytes env (L + 1)))))
  ++ [0].

Definition with_next (a : FileAttr) (n : option ptr) : FileAttr :=
  mkFileAttr (fileName a) (fileSize a) (lastWriteTime a) n.

(** What the parser keeps true between two records. *)
Definition parser_inv (s : State) (ps : list ptr) : Prop :=
  arena_small (st_arena s) /\ heap_allocated s /\ flist_holds s ps.

(** Nothing outside the session's pool and stream has changed. *)
Definition same_world (s s' : State) : Prop :=
  st_list s' = st_list s /\ st_dirs s' = st_dirs s /\ st_files s' = st_files s /\
  st_times s' = st_times s /\ st_stderr s' = st_stderr s /\
  magic (st_header s') = magic (st_header s) /\
  version (st_header s') = version (st_header s).

(** The state of the parser with the stream not at its end. *)
Definition parsing (s : State) (arena : ArenaAllocator) (data : list Z)
    (attrs : gmap ptr FileAttr) (bufs : gmap ptr (list Z)) : State :=
  mkState arena (mkFILE data false) (st_list s) (st_header s) attrs bufs
          (st_dirs s) (st_files s) (st_times s) (st_stderr s).

(** A run that returns, returns 0. *)
Definition exits_0 (r : outcome (Z * State)) : Prop :=
  match r with
  | Ret (code, _) => code = 0
  | _ => True
  end.

(** The pool, the stream and the list are as they were: what the calls into
    the file system leave alone. *)
Definition same_session (s s' : State) : Prop :=
  st_arena s' = st_arena s /\ st_pakFile s' = st_pakFile s /\
  st_header s' = st_header s /\ st_attrs s' = st_attrs s /\ st_bufs s' = st_bufs s.

(** The sum of the sizes that the entries declare. *)
Definition declared_size (es : list entry) : Z :=
  foldr (fun e acc => e_size e + acc) 0 es.

(** The destination of the entry fits the path array of
    [parse_and_extract_one_file]. *)
Definition path_fits (env : Env) (root : path) (e : entry) : Prop :=
  Z.of_nat (length (build_complete_path (stray_byte env) (root ++ [0]) (e_name e ++ [0])))
    <= MAX_PATH.

(** What the extraction of a record leaves behind when it returns: the pool
    is as it was but for the working buffer, and at most [fileSize] bytes
    are gone from the stream. *)
Definition after_copy (buf : ptr) (fileSize : Z) (s s' : State) : Prop :=
  st_arena s' = st_arena s /\ st_header s' = st_header s /\ st_attrs s' = st_attrs s /\
  (forall q, q <> buf -> st_bufs s' !! q = st_bufs s !! q) /\
  is_Some (st_bufs s' !! buf) /\
  Z.of_nat (length (f_data (st_pakFile s))) - fileSize
    <= Z.of_nat (length (f_data (st_pakFile s'))) /\
  (length (f_data (st_pakFile s')) <= length (f_data (st_pakFile s)))%nat.

(** The sum of the sizes of a list of records. *)
Definition total_size (rs : list (list Z * Z * list Z)) : Z :=
  foldr (fun r acc => r.1.2 + acc) 0 rs.

(** The record can be extracted below [root]: its size is a [UINT32] and its
    destination fits the path array. *)
Definition extractable (env : Env) (root : list Z) (r : list Z * Z * list Z) : Prop :=
  0 <= r.1.2 < UINT32_MOD /\
  Z.of_nat (length (build_complete_path (stray_byte env) root r.1.1)) <= MAX_PATH.

(** The stream [f'] is [f] after some reads: no byte has come back and the
    end-of-file indicator has not been cleared. *)
Definition advanced (f f' : FILE) : Prop :=
  (length (f_data f') <= length (f_data f))%nat /\ (f_eof f = true -> f_eof f' = true).

(** The payloads that the table declares: the bytes behind the table, cut
    up by the sizes of the entries in table order, and decoded. *)
Fixpoint declared_payloads (es : list entry) (payload : list Z) : list (list Z) :=
  match es with
  | [] => []
  | e :: es' =>
      (decode_one_byte <$> take (Z.to_nat (e_size e)) payload)
        :: declared_payloads es' (drop (Z.to_nat (e_size e)) payload)
  end.

(** A whole container: magic, version, the record table, the payloads. *)
Definition container (es : list entry) (payloads : list Z) : list Z :=
  encode [192; 74; 192; 186] ++ encode [0; 0; 0; 0] ++ record_table es ++ encode payloads.

(** The conditions under which the process is to exit with code 1: a wrong
    argument count, an extraction directory that exists, or a pool, a
    container or a list file that cannot be set up. *)
Definition refuses (env : Env) (argv : list path) (dirs : gset path)
    (files : gmap path (list Z)) : bool :=
  negb (Z.of_nat (length argv) =? 3)
  || bool_decide (argv !!! 2%nat ∈ dirs)
  || negb (malloc_ok env 0%nat sizeof_ArenaAllocator
           && malloc_ok env 1%nat (size_wrap (sizeof_ArenaBlockHeader + 8192)))
  || bool_decide (files !! (argv !!! 1%nat) = None)
  || negb (fopen_w_ok env filenames_txt).

(** ** Concrete runs *)

(** An operating system that never fails; unwritten memory reads as 0. *)
Definition all_ok : Env :=
  mkEnv (fun _ _ => true) (fun _ => 0) 0 (fun _ => true) (fun _ => true)
        (fun _ => true) (fun _ _ _ => true) (fun _ => true).

(** As [all_ok], but malloc fails from its [k]-th call on. *)
Definition out_of_memory_at (k : nat) : Env :=
  mkEnv (fun n _ => bool_decide (n < k)%nat) (fun _ => 0) 0 (fun _ => true) (fun _ => true)
        (fun _ => true) (fun _ _ _ => true) (fun _ => true).

Definition a_time : list Z := [1; 2; 3; 4; 5; 6; 7; 8].
(** the names [a] and [b], the program name [x], the container [p], the root [out] *)
Definition entry_a (size : Z) : entry := mkEntry 0 [97] size a_time.
Definition entry_b (size : Z) : entry := mkEntry 0 [98] size a_time.
Definition argv_x_p_out : list path := [[120]; [112]; [111; 117; 116]].
Definition out_a : path := [111; 117; 116; 92; 97].
Definition out_b : path := [111; 117; 116; 92; 98].

(** A session that has read magic and version and stands in front of the
    record table: one empty block, no node, an empty list. *)
Definition session_at_table (env : Env) (data : list Z) : State :=
  mkState (mkArena [mkBlock 0 8192] 8192 1) (mkFILE data false) []
          (mkPakHeader [192; 74; 192; 186] [0; 0; 0; 0] (mkFileAttrList None None 0))
          ∅ ∅ ∅ ∅ ∅ [].

(** A session in [extract_files] with one record [a] of [size] bytes in the
    list, the working buffer in a second block, and [data] left to read. *)
Definition session_at_record (env : Env) (size : Z) (data : list Z) : State :=
  mkState (mkArena [mkBlock 8192 8192; mkBlock 34 8192] 8192 2) (mkFILE data false)
          [([97], size)]
          (mkPakHeader [192; 74; 192; 186] [0; 0; 0; 0]
                       (mkFileAttrList (Some (0%nat, 0)) (Some (0%nat, 0)) 1))
          {[ (0%nat, 0) := mkFileAttr (0%nat, 32) size a_time None ]}
          {[ (0%nat, 32) := [97; 0]; (1%nat, 0) := fresh_bytes env 8192 ]}
          ∅ ∅ ∅ [].

(** The state in which a run has returned ([d] when it has not). *)
Definition state_after {A} (r : outcome (A * State)) (d : State) : State :=
  match r with
  | Ret (_, s) => s
  | _ => d
  end.

(** The truncated container: one record [a] that declares 5 bytes, and the
    2 payload bytes [he] behind the table. *)
Definition truncated_files : gmap path (list Z) :=
  {[ [112] := container [entry_a 5] [104; 101] ]}.

(** ** Vocabulary of the further properties *)

(** [capacity] of block number [k]; 0 for a block that does not exist. *)
Fixpoint capacity_of (blocks : list ArenaBlockHeader) (k : nat) : Z :=
  match blocks with
  | [] => 0
  | b :: older => if decide (k = length older) then capacity b else capacity_of older k
  end.

(** The span lies inside the payload of its block. *)
Definition span_in_block (blocks : list ArenaBlockHeader) (s : span) : Prop :=
  0 <= s.1.2 /\ s.1.2 + s.2 <= capacity_of blocks s.1.1.

(** The block has no room for [size] more bytes. *)
Definition block_full (size : Z) (b : ArenaBlockHeader) : Prop :=
  capacity b - used b < size.

(** The encoded entries of a table, without the end flag. *)
Definition record_entries (es : list entry) : list Z :=
  encode (concat (plain_entry <$> es)).

(** The pool of a session that has just been set up: one empty block. *)
Definition arena0 : ArenaAllocator := mkArena [mkBlock 0 8192] 8192 1.

(** The session in front of the record table of a container whose first
    eight bytes were [mg] and [vs] and whose other bytes are [rest]. *)
Definition session_before_table (dirs : gset path) (files : gmap path (list Z))
    (mg vs rest : list Z) : State :=
  mkState arena0 (mkFILE rest false) []
          (mkPakHeader (decode_one_byte <$> mg) (decode_one_byte <$> vs)
                       (mkFileAttrList None None 0))
          ∅ ∅ dirs files ∅ [].

(** The parent directories of a path at which the cursor of
    [recursive_create_parent_dirs] has passed [done] and has [todo] in
    front of it: the prefixes of the path that end in front of a backslash
    of [todo], shortest first. *)
Fixpoint dir_prefixes (done todo : list Z) : list path :=
  match todo with
  | [] => []
  | c :: todo' =>
      (if c =? BACKSLASH then [done] else []) ++ dir_prefixes (done ++ [c]) todo'
  end.

(** What a step of the extraction may have done to the state [s] when it
    has left [s']: files and directories that were there are still there,
    the files with their contents and times; messages were only appended,
    [n] at most; the pool, the list and the header are as they were. *)
Definition only_added (n : nat) (s s' : State) : Prop :=
  (forall p c, st_files s !! p = Some c ->
     st_files s' !! p = Some c /\ st_times s' !! p = st_times s !! p) /\
  st_dirs s ⊆ st_dirs s' /\
  (exists msgs, st_stderr s' = st_stderr s ++ msgs /\ (length msgs <= n)%nat) /\
  st_arena s' = st_arena s /\ st_attrs s' = st_attrs s /\
  st_header s' = st_header s /\ st_list s' = st_list s.

(** The destination of an entry below [root], as
    [parse_and_extract_one_file] builds it in its path array. *)
Definition destination (env : Env) (root : path) (e : entry) : path :=
  cstring (build_complete_path (stray_byte env) (root ++ [0]) (e_name e ++ [0])).

(** The line of the side-car list for an entry: the arguments of [fprintf]. *)
Definition list_line (e : entry) : list Z * Z := (cstring (e_name e ++ [0]), e_size e).

(** Nothing is in the way of the entry [e]: its destination is neither a
    file nor a directory nor a parent directory of a destination of [all],
    and none of its parent directories is a file. *)
Definition clear_for (env : Env) (root : path) (dirs : gset path)
    (files : gmap path (list Z)) (all : list entry) (e : entry) : Prop :=
  files !! destination env root e = None /\
  (destination env root e ∉ dirs) /\
  Forall (fun d => files !! d = None) (dir_prefixes [] (destination env root e)) /\
  Forall (fun e' => destination env root e ∉ dir_prefixes [] (destination env root e')) all.

(** The destinations of the entries are distinct and nothing is in the way
    of any of them. *)
Definition conflict_free (env : Env) (root : path) (dirs : gset path)
    (files : gmap path (list Z)) (es : list entry) : Prop :=
  NoDup (destination env root <$> es) /\ Forall (clear_for env root dirs files es) es.

(** The list file is not in the way of the entries either: it is no
    destination and no parent directory of a destination.  ([resource_init]
    creates the list file before anything is extracted.) *)
Definition list_file_apart (env : Env) (root : path) (es : list entry) : Prop :=
  Forall (fun e => destination env root e <> filenames_txt /\
                   filenames_txt ∉ dir_prefixes [] (destination env root e)) es.

(** An operating system that refuses nothing. *)
Definition permissive (env : Env) : Prop :=
  (forall n z, malloc_ok env n z = true) /\ fopen_w_ok env filenames_txt = true /\
  (forall p, mkdir_ok env p = true) /\ (forall p, create_ok env p = true) /\
  (forall p have n, write_ok env p have n = true) /\ (forall p, settime_ok env p = true).

(** As [all_ok], but [WriteFile] always fails. *)
Definition disk_full : Env :=
  mkEnv (fun _ _ => true) (fun _ => 0) 0 (fun _ => true) (fun _ => true)
        (fun _ => true) (fun _ _ _ => false) (fun _ => true).

(** ** Releasing the pool *)

(** What [malloc] has handed out for the pool and [free] has not taken
    back: the [ArenaAllocator] object with its [head] field, and the blocks
    with their [next] fields.  A block is named by its number; a pointer to
    a block is [Some] of its number, [None] is NULL.  [hp_freed] lists the
    arguments of the calls of [free], in order. *)
Inductive object : Type :=
| ObjArena
| ObjBlock (n : nat).

Record Heap := mkHeap {
  hp_arena : option (option nat);
  hp_next : gmap nat (option nat);
  hp_freed : list object
}.

(** [free(cursor)] for a block: undefined unless the block is live. *)
Definition free_block (n : nat) (h : Heap) : outcome Heap :=
  match hp_next h !! n with
  | Some _ => Ret (mkHeap (hp_arena h) (delete n (hp_next h)) (hp_freed h ++ [ObjBlock n]))
  | None => Undefined
  end.

(** [free(arena)] *)
Definition free_arena (h : Heap) : outcome Heap :=
  match hp_arena h with
  | Some _ => Ret (mkHeap None (hp_next h) (hp_freed h ++ [ObjArena]))
  | None => Undefined
  end.

(** The [while (cursor != NULL)] loop of [arena_free]:
    [arena->head = cursor->next; free(cursor); cursor = arena->head;]
    Reading a field of an object that is not live is undefined. *)
Fixpoint arena_free_loop (fuel : nat) (cursor : option nat) (h : Heap) : outcome Heap :=
  match cursor with
  | None => Ret h
  | Some c =>
      match fuel with
      | O => OutOfFuel
      | S fuel' =>
          match hp_next h !! c, hp_arena h with
          | Some next, Some _ =>
              match free_block c (mkHeap (Some next) (hp_next h) (hp_freed h)) with
              | Ret h2 =>
                  match hp_arena h2 with
                  | Some head => arena_free_loop fuel' head h2
                  | None => Undefined
                  end
              | Aborted => Aborted
              | Undefined => Undefined
              | OutOfFuel => OutOfFuel
              end
          | _, _ => Undefined
          end
      end
  end.

(** [arena_free(arena)]; [not_null] tells whether [arena != NULL]. *)
Definition arena_free (fuel : nat) (not_null : bool) (h : Heap) : outcome Heap :=
  if not_null then
    match hp_arena h with
    | Some head =>
        match arena_free_loop fuel head h with
        | Ret h' => free_arena h'
        | Aborted => Aborted
        | Undefined => Undefined
        | OutOfFuel => OutOfFuel
        end
    | None => Undefined
    end
  else Ret h.

(** The pointer to the newest block of a chain. *)
Definition newest (blocks : list ArenaBlockHeader) : option nat :=
  match blocks with
  | [] => None
  | _ :: older => Some (length older)
  end.

(** The [next] fields of a chain of blocks, as [arena_create] and
    [arena_create_new_block] set them: every block points to the block
    that was the newest when it was created. *)
Fixpoint next_fields (blocks : list ArenaBlockHeader) : gmap nat (option nat) :=
  match blocks with
  | [] => ∅
  | _ :: older => <[length older := newest older]> (next_fields older)
  end.

(** The heap that holds the pool [a], nothing freed yet. *)
Definition heap_of (a : ArenaAllocator) : Heap :=
  mkHeap (Some (newest (head a))) (next_fields (head a)) [].

(** ** The array behind [buf] *)

(** One store through [buf], followed by [++buf], where [buf] points into an array of [capacity]
    bytes and [written] are the bytes stored so far: a store behind the
    end of the array is undefined. *)
Definition store_char (capacity c : Z) (written : list Z) : outcome (list Z) :=
  if Z.of_nat (length written) <? capacity then Ret (written ++ [c]) else Undefined.

(** The copy loop of a string: each character of [src] up to its
    terminator is stored through [buf], which then moves on by one. *)
Fixpoint copy_chars (capacity : Z) (src written : list Z) : outcome (list Z) :=
  match src with
  | [] => Ret written
  | c :: rest =>
      if c =? 0 then Ret written
      else
        match store_char capacity c written with
        | Ret written' => copy_chars capacity rest written'
        | Aborted => Aborted
        | Undefined => Undefined
        | OutOfFuel => OutOfFuel
        end
  end.

(** [build_complete_path(buf, len, extractPath, fileName)] with [buf] at the
    start of an array of [capacity] bytes: the bytes of the array that the
    call has stored when it returns.  [len] is a parameter of the function
    and is never read.  [before] is the byte in front of [extractPath]. *)
Definition build_complete_path_in (capacity len before : Z)
    (extractPath fileName : list Z) : outcome (list Z) :=
  match copy_chars capacity extractPath [] with
  | Ret w1 =>
      let last_char :=
        match length w1 with
        | O => before
        | S k => extractPath !!! k
        end in
      match (if negb (last_char =? BACKSLASH) then store_char capacity BACKSLASH w1
             else Ret w1) with
      | Ret w2 =>
          match copy_chars capacity fileName w2 with
          | Ret w3 => store_char capacity 0 w3
          | Aborted => Aborted
          | Undefined => Undefined
          | OutOfFuel => OutOfFuel
          end
      | Aborted => Aborted
      | Undefined => Undefined
      | OutOfFuel => OutOfFuel
      end
  | Aborted => Aborted
  | Undefined => Undefined
  | OutOfFuel => OutOfFuel
  end.

(** * Properties *)

(** ** The codec *)

Lemma byte_testbit_high b n : 0 <= b < 256 -> 8 <= n -> Z.testbit b n = false.
Proof.
  intros Hb Hn. rewrite <- (Z.mod_small b (2 ^ 8)) by (change (2 ^ 8) with 256; lia).
  apply Z.mod_pow2_bits_high. lia.
Qed.

Lemma lxor_byte_small b : 0 <= b < 256 -> Z.lxor b 247 mod 256 = Z.lxor b 247.
Proof.
  intros Hb. change 256 with (2 ^ 8). apply Z.bits_inj'. intros n Hn.
  destruct (Z.lt_ge_cases n 8) as [Hlt | Hge].
  - now rewrite Z.mod_pow2_bits_low by lia.
  - rewrite Z.mod_pow2_bits_high by lia.
    rewrite Z.lxor_spec, (byte_testbit_high b n), (byte_testbit_high 247 n); auto; lia.
Qed.

Lemma decode_one_byte_range c : 0 <= decode_one_byte c < 256.
Proof. unfold decode_one_byte. apply Z.mod_pos_bound. lia. Qed.

Lemma decode_one_byte_xor b : 0 <= b < 256 -> decode_one_byte b = Z.lxor b 247.
Proof. intros Hb. now apply lxor_byte_small. Qed.

Lemma decode_one_byte_involutive b :
  0 <= b < 256 -> decode_one_byte (decode_one_byte b) = b.
Proof.
  intros Hb. pose proof (decode_one_byte_range b) as Hr.
  rewrite (decode_one_byte_xor b Hb) in *. rewrite decode_one_byte_xor by lia.
  now rewrite Z.lxor_assoc, Z.lxor_nilpotent, Z.lxor_0_r.
Qed.

(** Claim C4. The stream codec is [decode(b) = b XOR 0xF7], and it is an
    involution: for every byte value [b], [decode (decode b) = b]. *)
Theorem decode_involution b :
  0 <= b < 256 ->
  decode_one_byte b = Z.lxor b 247 /\ decode_one_byte (decode_one_byte b) = b.
Proof.
  intros Hb. split; [now apply decode_one_byte_xor | now apply decode_one_byte_involutive].
Qed.


(** ** The arena allocator *)

Lemma size_wrap_small z : 0 <= z < SIZE_MOD -> size_wrap z = z.
Proof. intros H. unfold size_wrap. apply Z.mod_small. exact H. Qed.

Lemma size_mod_eq : SIZE_MOD = 18446744073709551616.
Proof. reflexivity. Qed.

Lemma pow63_eq : 2 ^ 63 = 9223372036854775808.
Proof. reflexivity. Qed.

Ltac zsimp := rewrite ?size_mod_eq, ?pow63_eq in *.

(** [arena_scan] without wrap-around is the scan of the specification. *)
Lemma arena_scan_spec blocks size :
  Forall block_small blocks -> 0 <= size < 2 ^ 63 ->
  arena_scan blocks size = spec_scan blocks size.
Proof.
  intros Hb Hs. induction Hb as [|b older [Hu Hc] _ IH]; [reflexivity|].
  simpl. assert (Hw : size_wrap (used b + size) = used b + size).
  { apply size_wrap_small. zsimp. lia. }
  rewrite Hw, IH.
  assert (Hw' : size_wrap (used b + size - size) = used b).
  { replace (used b + size - size) with (used b) by lia. apply size_wrap_small. zsimp. lia. }
  rewrite Hw'.
  destruct (Z.leb_spec (used b + size) (capacity b)), (Z.leb_spec size (capacity b - used b));
    try lia; reflexivity.
Qed.

Lemma spec_scan_facts blocks size p blocks' :
  Forall block_small blocks -> 0 <= size ->
  spec_scan blocks size = Some (p, blocks') ->
  Forall block_small blocks' /\ length blocks' = length blocks /\
  (p.1 < length blocks)%nat /\
  p.2 = used_of blocks p.1 /\ used_of blocks' p.1 = p.2 + size /\
  (forall k, k <> p.1 -> used_of blocks' k = used_of blocks k).
Proof.
  intros Hb Hs. revert p blocks'.
  induction Hb as [|b older [Hu Hc] Hb IH]; intros p blocks' H; [discriminate|].
  simpl in H. destruct (Z.leb_spec size (capacity b - used b)).
  - inversion H; subst; clear H. simpl. rewrite !decide_True by reflexivity.
    repeat split; try lia.
    + constructor; [split; simpl; lia | exact Hb].
    + intros k Hk. rewrite !decide_False by exact Hk. reflexivity.
  - destruct (spec_scan older size) as [[q older']|] eqn:E; [|discriminate].
    inversion H; subst; clear H.
    destruct (IH _ _ eq_refl) as (Hf & Hl & Hlt & Hoff & Hnew & Hother).
    simpl. rewrite Hl. rewrite !decide_False by lia.
    repeat split; try assumption; try lia.
    + constructor; [split; assumption | exact Hf].
    + intros k Hk. destruct (decide (k = length older)); [reflexivity | auto].
Qed.

Lemma used_of_beyond blocks k : (length blocks <= k)%nat -> used_of blocks k = 0.
Proof.
  induction blocks as [|b older IH]; simpl; intros H; [reflexivity|].
  rewrite decide_False by lia. apply IH. lia.
Qed.

(** Without wrap-around [arena_malloc] is [allocate] of the specification. *)
Lemma arena_malloc_refines env a size :
  arena_small a -> 0 <= size < 2 ^ 63 ->
  match arena_malloc env a size with
  | Ret (p, a') => spec_allocate env a size = Ret (p, head a') /\ blockSize a' = blockSize a
  | Aborted => spec_allocate env a size = Aborted
  | _ => False
  end.
Proof.
  intros [Hbs Hb] Hs. unfold arena_malloc, spec_allocate.
  rewrite (arena_scan_spec _ _ Hb Hs).
  destruct (spec_scan (head a) size) as [[p blocks']|]; [simpl; auto|].
  unfold arena_create_new_block.
  destruct (Z.ltb_spec size (blockSize a)).
  - rewrite Z.max_l by lia. destruct (malloc_ok _ _ _); simpl; auto.
  - rewrite Z.max_r by lia. destruct (malloc_ok _ _ _); simpl; auto.
Qed.

Lemma spec_allocate_facts env a size p blocks' :
  arena_small a -> 0 <= size < 2 ^ 63 ->
  spec_allocate env a size = Ret (p, blocks') ->
  Forall block_small blocks' /\
  p.2 = used_of (head a) p.1 /\ used_of blocks' p.1 = p.2 + size /\
  (forall k, k <> p.1 -> used_of blocks' k = used_of (head a) k).
Proof.
  intros [Hbs Hb] Hs. unfold spec_allocate.
  destruct (spec_scan (head a) size) as [[q bl]|] eqn:E.
  - intros H; inversion H; subst; clear H.
    destruct (spec_scan_facts _ _ _ _ Hb (proj1 Hs) E) as (?&?&?&?&?&?). auto.
  - destruct (malloc_ok _ _ _); [|discriminate].
    intros H; inversion H; subst; clear H. simpl.
    rewrite !decide_True by reflexivity. rewrite used_of_beyond by lia.
    repeat split; try lia.
    + constructor; [|exact Hb]. split; simpl; lia.
    + intros k Hk. rewrite decide_False by exact Hk. reflexivity.
Qed.

(** What a call of [arena_malloc] does when nothing can wrap. *)
Lemma arena_malloc_facts env a size p a' :
  arena_small a -> 0 <= size < 2 ^ 63 ->
  arena_malloc env a size = Ret (p, a') ->
  arena_small a' /\
  p.2 = used_of (head a) p.1 /\ used_of (head a') p.1 = p.2 + size /\
  (forall k, k <> p.1 -> used_of (head a') k = used_of (head a) k).
Proof.
  intros Ha Hs H. pose proof (arena_malloc_refines env a size Ha Hs) as R.
  rewrite H in R. destruct R as [R Hbs].
  destruct (spec_allocate_facts _ _ _ _ _ Ha Hs R) as (Hf & H1 & H2 & H3).
  repeat split; try assumption; rewrite ?Hbs; apply Ha.
Qed.

Lemma arena_malloc_returns env a size :
  (forall n z, malloc_ok env n z = true) ->
  exists p a', arena_malloc env a size = Ret (p, a').
Proof.
  intros Hm. unfold arena_malloc. destruct (arena_scan (head a) size) as [[p bl]|]; [eauto|].
  unfold arena_create_new_block. rewrite !Hm. destruct (size <? blockSize a); eauto.
Qed.

Lemma size_wrap_range z : 0 <= size_wrap z < SIZE_MOD.
Proof. unfold size_wrap. apply Z.mod_pos_bound. reflexivity. Qed.

Lemma arena_scan_block_ok blocks size p blocks' :
  Forall block_ok blocks ->
  arena_scan blocks size = Some (p, blocks') -> Forall block_ok blocks'.
Proof.
  intros Hb. revert p blocks'.
  induction Hb as [|b older Hok Hb IH]; intros p blocks' H; [discriminate|].
  simpl in H. destruct (Z.leb_spec (size_wrap (used b + size)) (capacity b)).
  - inversion H; subst; clear H. constructor; [|exact Hb].
    unfold block_ok; simpl. pose proof (size_wrap_range (used b + size)). lia.
  - destruct (arena_scan older size) as [[q older']|]; [|discriminate].
    inversion H; subst; clear H. constructor; eauto.
Qed.

(** [used <= capacity] survives every call of [arena_malloc], wrapped or not. *)
Lemma arena_malloc_block_ok env a size p a' :
  Forall block_ok (head a) -> 0 <= size ->
  arena_malloc env a size = Ret (p, a') -> Forall block_ok (head a').
Proof.
  intros Hb Hs. unfold arena_malloc.
  destruct (arena_scan (head a) size) as [[q bl]|] eqn:E.
  - intros H; inversion H; subst; clear H. simpl. eapply arena_scan_block_ok; eauto.
  - unfold arena_create_new_block.
    destruct (Z.ltb_spec size (blockSize a)); destruct (malloc_ok _ _ _); try discriminate;
      intros Heq; inversion Heq; subst; clear Heq; simpl; constructor; try exact Hb;
      unfold block_ok; simpl; lia.
Qed.

Lemma arena_create_block_ok env bs a :
  0 <= bs -> arena_create env bs = Some a -> Forall block_ok (head a).
Proof.
  intros Hbs. unfold arena_create.
  destruct (negb _); [discriminate|]. destruct (negb _); [discriminate|].
  intros H; inversion H; subst; clear H. simpl. constructor; [|constructor].
  unfold block_ok; simpl; lia.
Qed.

Lemma total_used_le_capacity blocks :
  Forall block_ok blocks -> total_used blocks <= total_capacity blocks.
Proof.
  induction 1 as [|b older [H0 H1] _ IH]; simpl; [lia|].
  unfold total_used, total_capacity in *. simpl. lia.
Qed.

Lemma arena_malloc_all_block_ok env sizes : forall a spans a',
  Forall block_ok (head a) -> Forall (fun z => 0 <= z) sizes ->
  arena_malloc_all env a sizes = Ret (spans, a') -> Forall block_ok (head a').
Proof.
  induction sizes as [|size rest IH]; intros a spans a' Hb Hs H; simpl in H.
  - inversion H; subst. exact Hb.
  - inversion Hs as [|? ? H0 Hrest]; subst.
    destruct (arena_malloc env a size) as [[p a1]| | |] eqn:E; try discriminate.
    destruct (arena_malloc_all env a1 rest) as [[sp a2]| | |] eqn:E2; try discriminate.
    inversion H; subst; clear H.
    eapply IH; [|exact Hrest|exact E2]. eapply arena_malloc_block_ok; eauto.
Qed.

(** Without wrap-around, the spans of later calls start at or after the
    [used] mark their block had before, and no two of them share a byte. *)
Lemma arena_malloc_all_disjoint env sizes : forall a spans a',
  arena_small a -> Forall (fun z => 0 <= z < 2 ^ 63) sizes ->
  arena_malloc_all env a sizes = Ret (spans, a') ->
  pairwise_disjoint spans /\
  Forall (fun s : span => used_of (head a) s.1.1 <= s.1.2) spans.
Proof.
  induction sizes as [|size rest IH]; intros a spans a' Ha Hs H; simpl in H.
  - inversion H; subst. split; [exact I | constructor].
  - inversion Hs as [|? ? H0 Hrest]; subst.
    destruct (arena_malloc env a size) as [[p a1]| | |] eqn:E; try discriminate.
    destruct (arena_malloc_all env a1 rest) as [[sp a2]| | |] eqn:E2; try discriminate.
    inversion H; subst; clear H.
    destruct (arena_malloc_facts _ _ _ _ _ Ha H0 E) as (Ha1 & Hoff & Hnew & Hother).
    destruct (IH _ _ _ Ha1 Hrest E2) as [Hd Hge].
    split; [split; [|exact Hd] | constructor].
    + eapply Forall_impl; [exact Hge|]. intros [[k off] sz] Hk. simpl in *.
      unfold spans_overlap; simpl. destruct (decide (k = p.1)) as [->|Hne].
      * rewrite bool_decide_eq_true_2 by reflexivity. simpl.
        apply Z.ltb_ge. rewrite Hnew in Hk. lia.
      * rewrite bool_decide_eq_false_2 by congruence. reflexivity.
    + simpl. lia.
    + eapply Forall_impl; [exact Hge|]. intros [[k off] sz] Hk. simpl in *.
      destruct (decide (k = p.1)) as [->|Hne].
      * rewrite Hnew in Hk. lia.
      * rewrite Hother in Hk by exact Hne. exact Hk.
Qed.


(** ** Paths *)

Lemma cstring_terminated chars rest :
  Forall (fun c => c <> 0) chars -> cstring (chars ++ 0 :: rest) = chars.
Proof.
  induction 1 as [|c chars Hc _ IH]; simpl; [reflexivity|].
  destruct (Z.eqb_spec c 0); [contradiction|]. now rewrite IH.
Qed.

Lemma lookup_last_char (front : list Z) c rest :
  ((front ++ [c]) ++ rest) !!! length front = c.
Proof. rewrite <- app_assoc. now apply list_lookup_total_middle. Qed.


(** The stores of [build_complete_path], in order, for a non-empty root and
    a name: the root, one backslash unless the root already ends in one,
    the name, and the terminator. *)
Lemma build_complete_path_joins before root name after_root after_name :
  root <> [] ->
  Forall (fun c => c <> 0) root -> Forall (fun c => c <> 0) name ->
  let separator := if decide (last root = Some BACKSLASH) then [] else [BACKSLASH] in
  build_complete_path before (root ++ 0 :: after_root) (name ++ 0 :: after_name)
    = root ++ separator ++ name ++ [0]
  /\ cstring (build_complete_path before (root ++ 0 :: after_root) (name ++ 0 :: after_name))
    = root ++ separator ++ name.
Proof.
  intros Hne Hroot Hname sep.
  assert (Hsep : Forall (fun c => c <> 0) sep).
  { subst sep. destruct (decide _); repeat constructor. discriminate. }
  assert (E : build_complete_path before (root ++ 0 :: after_root) (name ++ 0 :: after_name)
              = root ++ sep ++ name ++ [0]).
  { unfold build_complete_path. rewrite !cstring_terminated by assumption.
    destruct (exists_last Hne) as (front & c & ->).
    rewrite length_app, Nat.add_comm. simpl.
    rewrite lookup_last_char.
    subst sep. rewrite last_snoc.
    destruct (Z.eqb_spec c BACKSLASH) as [Hc|Hc], (decide (Some c = Some BACKSLASH));
      simpl; congruence. }
  split; [exact E|].
  rewrite E. rewrite !app_assoc. rewrite <- !app_assoc.
  replace (root ++ sep ++ name ++ [0]) with ((root ++ sep ++ name) ++ 0 :: []) by
    (now rewrite <- !app_assoc).
  apply cstring_terminated. repeat (apply Forall_app; split); assumption.
Qed.

(** *** The path in its array *)

Lemma copy_chars_spec capacity src : forall written,
  Z.of_nat (length written) <= capacity ->
  copy_chars capacity src written =
    if capacity <? Z.of_nat (length written + length (cstring src))
    then Undefined else Ret (written ++ cstring src).
Proof.
  induction src as [|c src IH]; intros written Hw; cbn [copy_chars cstring].
  - rewrite Nat.add_0_r, app_nil_r. destruct (Z.ltb_spec capacity (Z.of_nat (length written)));
      [lia | reflexivity].
  - destruct (c =? 0).
    + rewrite Nat.add_0_r, app_nil_r.
      destruct (Z.ltb_spec capacity (Z.of_nat (length written))); [lia | reflexivity].
    + unfold store_char. cbn [length].
      destruct (Z.ltb_spec (Z.of_nat (length written)) capacity) as [Hlt|Hge].
      * rewrite IH by (rewrite length_app; cbn [length]; lia).
        rewrite length_app. cbn [length]. rewrite <- app_assoc. cbn [app].
        replace (length written + 1 + length (cstring src))%nat
          with (length written + S (length (cstring src)))%nat by lia.
        reflexivity.
      * destruct (Z.ltb_spec capacity (Z.of_nat (length written + S (length (cstring src)))));
          [reflexivity | lia].
Qed.

(** The call on an array of [capacity] bytes, by the bytes that
    [build_complete_path] stores: it returns them when they fit the array
    and is undefined when they do not, whatever [len] is. *)
Lemma build_complete_path_in_spec capacity len before extractPath fileName :
  0 <= capacity ->
  build_complete_path_in capacity len before extractPath fileName =
    if capacity <? Z.of_nat (length (build_complete_path before extractPath fileName))
    then Undefined else Ret (build_complete_path before extractPath fileName).
Proof.
  intros Hcap. unfold build_complete_path_in, build_complete_path.
  rewrite copy_chars_spec by (cbn; lia). cbn [length Nat.add app].
  set (root := cstring extractPath).
  set (name := cstring fileName).
  set (last_char := match length root with O => before | S k => extractPath !!! k end).
  destruct (Z.ltb_spec capacity (Z.of_nat (length root))) as [H1|H1].
  { rewrite !length_app.
    destruct (Z.ltb_spec capacity (Z.of_nat (length root +
       (length (if negb (last_char =? BACKSLASH) then [BACKSLASH] else []) +
          (length name + length [0])))));
      [reflexivity | lia]. }
  fold last_char.
  destruct (negb (last_char =? BACKSLASH)).
  - rewrite !length_app. cbn [length].
    unfold store_char at 1.
    destruct (Z.ltb_spec (Z.of_nat (length root)) capacity) as [H2|H2].
    2:{ destruct (Z.ltb_spec capacity (Z.of_nat (length root + (1 + (length name + 1)))));
          [reflexivity | lia]. }
    rewrite copy_chars_spec by (rewrite length_app; cbn [length]; lia).
    rewrite length_app. cbn [length]. fold name.
    destruct (Z.ltb_spec capacity (Z.of_nat (length root + 1 + length name))) as [H3|H3].
    { destruct (Z.ltb_spec capacity (Z.of_nat (length root + (1 + (length name + 1)))));
        [reflexivity | lia]. }
    unfold store_char. rewrite !length_app. cbn [length].
    destruct (Z.ltb_spec (Z.of_nat (length root + 1 + length name)) capacity) as [H4|H4];
      destruct (Z.ltb_spec capacity (Z.of_nat (length root + (1 + (length name + 1)))));
      try lia; [|reflexivity].
    now rewrite <- !app_assoc.
  - cbn [app]. rewrite !length_app. cbn [length].
    rewrite copy_chars_spec by lia. fold name.
    destruct (Z.ltb_spec capacity (Z.of_nat (length root + length name))) as [H3|H3].
    { destruct (Z.ltb_spec capacity (Z.of_nat (length root + (length name + 1))));
        [reflexivity | lia]. }
    unfold store_char. rewrite length_app.
    destruct (Z.ltb_spec (Z.of_nat (length root + length name)) capacity) as [H4|H4];
      destruct (Z.ltb_spec capacity (Z.of_nat (length root + (length name + 1))));
      try lia; [|reflexivity].
    now rewrite <- !app_assoc.
Qed.

(** Claim C10, where the code departs from it.  The claim: for every
    non-empty root and every record name the composed path is the root, one
    backslash unless the root ends in one, and the name.  The function does
    compose exactly these bytes, with the terminator, as long as they fit
    the array that [buf] points to; but it never reads [len], so for a root
    and a name that do not fit it stores behind the end of the array and
    no path is composed: the call is undefined, whatever [len] says. *)
Theorem build_complete_path_never_reads_len capacity len before root name after_root after_name :
  0 <= capacity ->
  root <> [] ->
  Forall (fun c => c <> 0) root -> Forall (fun c => c <> 0) name ->
  let separator := if decide (last root = Some BACKSLASH) then [] else [BACKSLASH] in
  let joined := root ++ separator ++ name in
  build_complete_path_in capacity len before (root ++ 0 :: after_root) (name ++ 0 :: after_name)
    = if capacity <? Z.of_nat (length joined) + 1
      then Undefined
      else Ret (joined ++ [0]).
Proof.
  intros Hcap Hne Hroot Hname separator joined.
  rewrite (build_complete_path_in_spec capacity len before _ _ Hcap).
  destruct (build_complete_path_joins before root name after_root after_name Hne Hroot Hname)
    as [E _].
  cbv zeta in E. fold separator in E. rewrite E.
  replace (root ++ separator ++ name ++ [0]) with (joined ++ [0])
    by (unfold joined; now rewrite <- !app_assoc).
  rewrite length_app. cbn [length].
  replace (Z.of_nat (length joined + 1)) with (Z.of_nat (length joined) + 1) by lia.
  reflexivity.
Qed.

Lemma build_complete_path_never_reads_len_witness :
  let root := [111; 117; 116; 120] in
  let name := replicate 255 97 in
  Z.of_nat (length (root ++ [BACKSLASH] ++ name)) + 1 = 261 /\
  build_complete_path_in MAX_PATH MAX_PATH 0 (root ++ [0]) (name ++ [0]) = Undefined /\
  build_complete_path_in MAX_PATH MAX_PATH 0 ([111; 117; 116] ++ [0]) ([97] ++ [0])
    = Ret (out_a ++ [0]).
Proof.
  split; [reflexivity|]. split.
  - refine (build_complete_path_never_reads_len MAX_PATH MAX_PATH 0 [111; 117; 116; 120]
              (replicate 255 97) [] [] _ _ _ _).
    + unfold MAX_PATH. lia.
    + discriminate.
    + repeat constructor; discriminate.
    + apply Forall_forall. intros c Hc. apply elem_of_replicate in Hc as [-> _]. discriminate.
  - refine (build_complete_path_never_reads_len MAX_PATH MAX_PATH 0 [111; 117; 116] [97] [] []
              _ _ _ _).
    + unfold MAX_PATH. lia.
    + discriminate.
    + repeat constructor; discriminate.
    + repeat constructor; discriminate.
Defined.


(** ** The name of a record *)

Lemma u32_wrap_small z : 0 <= z < UINT32_MOD -> u32_wrap z = z.
Proof. intros H. unfold u32_wrap. now apply Z.mod_small. Qed.

Lemma u32_mod_eq : UINT32_MOD = 4294967296.
Proof. reflexivity. Qed.

Lemma length_fresh_bytes env n : length (fresh_bytes env n) = Z.to_nat n.
Proof. unfold fresh_bytes. now rewrite length_fmap, length_seq. Qed.

Lemma name_array_eq env L rest :
  0 <= L ->
  let buf0 := <[Z.to_nat L := 0]> (fresh_bytes env (L + 1)) in
  let got := take (Z.to_nat L) rest in
  decode_bytes (got ++ drop (length got) buf0) L = name_array env L rest.
Proof.
  intros HL buf0 got. unfold name_array. fold got.
  set (fresh := fresh_bytes env (L + 1)) in *.
  assert (Hlen : length fresh = S (Z.to_nat L)).
  { subst fresh. rewrite length_fresh_bytes. lia. }
  assert (Hbuf0 : buf0 = take (Z.to_nat L) fresh ++ [0]).
  { subst buf0. rewrite <- (take_drop (Z.to_nat L) fresh) at 1.
    assert (Hd : exists x, drop (Z.to_nat L) fresh = [x]).
    { destruct (drop (Z.to_nat L) fresh) as [|x [|y l]] eqn:E;
        apply (f_equal length) in E; rewrite length_drop, Hlen in E; simpl in E; try lia.
      eauto. }
    destruct Hd as [x Hd]. rewrite Hd.
    rewrite insert_app_r_alt by (rewrite length_take; lia).
    rewrite length_take, Hlen. replace (Z.to_nat L - Z.to_nat L `min` S (Z.to_nat L))%nat with 0%nat by lia.
    reflexivity. }
  assert (Hgot : (length got <= Z.to_nat L)%nat) by (subst got; rewrite length_take; lia).
  rewrite Hbuf0. rewrite drop_app_le by (rewrite length_take; lia).
  unfold decode_bytes. rewrite app_assoc.
  assert (Hfront : length (got ++ drop (length got) (take (Z.to_nat L) fresh)) = Z.to_nat L).
  { rewrite length_app, length_drop, length_take. lia. }
  rewrite take_app_length' by (symmetry; exact Hfront).
  rewrite drop_app_length' by (symmetry; exact Hfront). reflexivity.
Qed.

Lemma length_name_array env L rest : 0 <= L -> length (name_array env L rest) = Z.to_nat (L + 1).
Proof.
  intros HL. unfold name_array. rewrite length_app, length_fmap, length_app, length_drop.
  rewrite !length_take, length_fresh_bytes. simpl. lia.
Qed.

Lemma name_array_terminated env L rest : 0 <= L -> name_array env L rest !! Z.to_nat L = Some 0.
Proof.
  intros HL. unfold name_array. rewrite lookup_app_r.
  - rewrite length_fmap, length_app, length_drop, !length_take, length_fresh_bytes.
    replace (_ - _)%nat with 0%nat by lia. reflexivity.
  - rewrite length_fmap, length_app, length_drop, !length_take, length_fresh_bytes. lia.
Qed.

Lemma name_array_char env L rest (i : nat) :
  (i < Z.to_nat L)%nat -> (i < length rest)%nat ->
  name_array env L rest !! i = decode_one_byte <$> rest !! i.
Proof.
  intros Hi Hr. unfold name_array.
  rewrite lookup_app_l.
  - rewrite list_lookup_fmap. rewrite lookup_app_l by (rewrite length_take; lia).
    now rewrite lookup_take_lt by lia.
  - rewrite length_fmap, length_app, length_take. lia.
Qed.

Lemma name_array_full env L rest :
  0 <= L -> (Z.to_nat L <= length rest)%nat ->
  name_array env L rest = (decode_one_byte <$> take (Z.to_nat L) rest) ++ [0].
Proof.
  intros HL Hr. unfold name_array.
  rewrite drop_ge by (rewrite !length_take, length_fresh_bytes; lia).
  now rewrite app_nil_r.
Qed.

(** What [parse_file_name] does to the state when the length byte is there
    and the pool delivers. *)
Lemma parse_file_name_run env attr s byte rest a p arena' :
  f_data (st_pakFile s) = byte :: rest ->
  st_attrs s !! attr = Some a ->
  arena_malloc env (st_arena s) (decode_one_byte byte + 1) = Ret (p, arena') ->
  parse_file_name env attr s =
    Ret (tt, mkState arena'
               (mkFILE (drop (Z.to_nat (decode_one_byte byte)) rest)
                       (f_eof (st_pakFile s)
                        || (Z.of_nat (length rest) <? decode_one_byte byte)))
               (st_list s) (st_header s)
               (<[attr := mkFileAttr p (fileSize a) (lastWriteTime a) (next a)]> (st_attrs s))
               (<[p := name_array env (decode_one_byte byte) rest]> (st_bufs s))
               (st_dirs s) (st_files s) (st_times s) (st_stderr s)).
Proof.
  intros Hd Ha Hm. pose proof (decode_one_byte_range byte) as Hr.
  unfold parse_file_name, bind, pak_fread, fread. rewrite Hd. simpl.
  rewrite (u32_wrap_small (decode_one_byte byte)) by (rewrite u32_mod_eq; lia).
  rewrite (u32_wrap_small (decode_one_byte byte + 1)) by (rewrite u32_mod_eq; lia).
  rewrite Z.mul_1_r. rewrite size_wrap_small by (rewrite size_mod_eq; lia).
  unfold res_arena_malloc. simpl. rewrite Hm. simpl.
  rewrite name_array_eq by lia.
  unfold store_buf, modify, load_attr. simpl. rewrite Ha. simpl.
  unfold store_attr, modify, set_attrs, set_bufs. simpl.
  rewrite !drop_0.
  replace (Z.of_nat (S (length rest)) <? 1) with false by (symmetry; apply Z.ltb_ge; lia).
  rewrite orb_false_r. reflexivity.
Qed.


(** ** The record list *)

Lemma chain_insert_fresh attrs h ps p a :
  p ∉ ps -> chain attrs h ps -> chain (<[p := a]> attrs) h ps.
Proof.
  revert h. induction ps as [|q ps IH]; intros h Hp H; simpl in *; [exact H|].
  destruct H as (-> & aq & Hq & Hc). split; [reflexivity|].
  exists aq. split.
  - rewrite lookup_insert_ne; [exact Hq|]. intros ->. apply Hp. left.
  - apply IH; [|exact Hc]. intros Hin. apply Hp. now right.
Qed.

Lemma chain_last_next attrs h ps t :
  chain attrs h ps -> last ps = Some t ->
  exists ta, attrs !! t = Some ta /\ next ta = None.
Proof.
  revert h. induction ps as [|q ps IH]; intros h H Hl; [discriminate|].
  destruct H as (-> & aq & Hq & Hc). destruct ps as [|q' ps'].
  - simpl in Hl. inversion Hl; subst. simpl in Hc. eauto.
  - apply (IH _ Hc). exact Hl.
Qed.

(** Linking a new node behind the last one appends it to the chain. *)
Lemma chain_append attrs h ps t ta p a :
  chain attrs h ps -> NoDup ps -> last ps = Some t -> p ∉ ps ->
  attrs !! t = Some ta -> attrs !! p = Some a ->
  chain (<[t := with_next ta (Some p)]> (<[p := with_next a None]> attrs)) h (ps ++ [p]).
Proof.
  revert h. induction ps as [|q ps IH]; intros h Hc Hnd Hl Hp Ht Ha; [discriminate|].
  destruct Hc as (-> & aq & Hq & Hc). inversion Hnd as [|? ? Hq_notin Hnd']; subst.
  assert (Hpq : p <> q) by (intros ->; apply Hp; left).
  destruct ps as [|q' ps'].
  - simpl in Hl. inversion Hl; subst t. simpl in Hc.
    simpl. split; [reflexivity|]. exists (with_next ta (Some p)). split.
    + apply lookup_insert_eq.
    + simpl. split; [reflexivity|]. exists (with_next a None). split; [|reflexivity].
      rewrite lookup_insert_ne by congruence. apply lookup_insert_eq.
  - change (last (q' :: ps') = Some t) in Hl.
    assert (Htq : t <> q).
    { intros ->. apply Hq_notin. apply list_elem_of_lookup.
      rewrite last_lookup in Hl. eauto. }
    change ((q :: q' :: ps') ++ [p]) with (q :: ((q' :: ps') ++ [p])).
    split; [reflexivity|]. exists aq. split.
    + rewrite !lookup_insert_ne by congruence. exact Hq.
    + apply IH; try assumption. intros Hin. apply Hp. now right.
Qed.

(** [file_attr_list_add] appends the node to the list and touches nothing
    but the [next] fields of the node and of the former tail. *)
Lemma file_attr_list_add_run s ps p a :
  flist_holds s ps -> st_attrs s !! p = Some a -> p ∉ ps ->
  Z.of_nat (length ps) + 1 < SIZE_MOD ->
  exists attrs',
    file_attr_list_add p s =
      Ret (tt, mkState (st_arena s) (st_pakFile s) (st_list s)
                 (mkPakHeader (magic (st_header s)) (version (st_header s))
                    (mkFileAttrList (Some (hd p ps)) (Some p)
                                    (Z.of_nat (length ps) + 1)))
                 attrs' (st_bufs s) (st_dirs s) (st_files s) (st_times s) (st_stderr s))
    /\ chain attrs' (Some (hd p ps)) (ps ++ [p])
    /\ attrs' !! p = Some (with_next a None)
    /\ (forall q aq, q <> p -> st_attrs s !! q = Some aq ->
          exists n, attrs' !! q = Some (with_next aq n))
    /\ (forall q, is_Some (attrs' !! q) -> q = p \/ is_Some (st_attrs s !! q)).
Proof.
  intros (Hc & Ht & Hlen & Hnd) Ha Hp Hsmall.
  unfold file_attr_list_add, bind, load_attr. rewrite Ha. simpl.
  unfold store_attr, modify, gets. simpl. rewrite Hlen.
  rewrite (size_wrap_small (Z.of_nat (length ps))) by (pose proof size_mod_eq; lia).
  rewrite size_wrap_small by lia.
  destruct ps as [|q0 ps0].
  - simpl in Hc. rewrite Hc. unfold set_flist, modify. simpl.
    eexists. split; [reflexivity|]. unfold set_attrs; cbn [st_attrs].
    split; [|split; [|split]].
    + simpl. split; [reflexivity|]. eexists. split; [apply lookup_insert_eq | reflexivity].
    + apply lookup_insert_eq.
    + intros q aq Hq Hl. exists (next aq). rewrite lookup_insert_ne by congruence.
      rewrite Hl. destruct aq; reflexivity.
    + intros q [x Hx]. destruct (decide (q = p)); [now left | right].
      rewrite lookup_insert_ne in Hx by congruence. eauto.
  - pose proof Hc as Hc0. destruct Hc as (Hh & aq0 & Hq0 & Hc).
    rewrite Hh. destruct (last (q0 :: ps0)) as [t|] eqn:El.
    2:{ rewrite last_None in El. discriminate. }
    rewrite Ht. destruct (chain_last_next _ _ _ _ Hc0 El) as (ta & Hta & Hnone).
    assert (Htp : t <> p).
    { intros ->. apply Hp. apply list_elem_of_lookup. rewrite last_lookup in El. eauto. }
    unfold load_attr. simpl. rewrite lookup_insert_ne by congruence. rewrite Hta. simpl.
    unfold set_flist, modify. simpl.
    eexists. split; [reflexivity|]. unfold set_attrs; cbn [st_attrs].
    split; [|split; [|split]].
    + rewrite Hh in Hc0.
      apply (chain_append (st_attrs s) (Some q0) (q0 :: ps0) t ta p a); assumption.
    + rewrite lookup_insert_ne by congruence. apply lookup_insert_eq.
    + intros q aq Hq Hl. destruct (decide (q = t)) as [->|Hqt].
      * exists (Some p). rewrite lookup_insert_eq.
        assert (aq = ta) as -> by congruence. reflexivity.
      * exists (next aq). rewrite !lookup_insert_ne by congruence. rewrite Hl.
        destruct aq; reflexivity.
    + intros q [x Hx]. destruct (decide (q = p)); [now left | right].
      destruct (decide (q = t)) as [->|Hqt]; [eauto|].
      rewrite !lookup_insert_ne in Hx by congruence. eauto.
Qed.


(** ** Reading the record table *)

Lemma fread_enough n buf f bytes rest :
  f_data f = bytes ++ rest -> Z.of_nat (length bytes) = n -> length buf = length bytes ->
  fread n buf f = (bytes, n, mkFILE rest (f_eof f)).
Proof.
  intros Hd Hn Hb. unfold fread. rewrite Hd.
  assert (Hn' : Z.to_nat n = length bytes) by lia. rewrite Hn'.
  rewrite take_app_length, drop_app_length.
  rewrite drop_ge by lia. rewrite app_nil_r.
  replace (Z.of_nat (length (bytes ++ rest)) <? n) with false
    by (symmetry; apply Z.ltb_ge; rewrite length_app; lia).
  now rewrite orb_false_r, Hn.
Qed.

Lemma decode_bytes_all bytes n :
  Z.of_nat (length bytes) = n -> decode_bytes bytes n = decode_one_byte <$> bytes.
Proof.
  intros Hn. unfold decode_bytes. replace (Z.to_nat n) with (length bytes) by lia.
  now rewrite firstn_all, drop_all, app_nil_r.
Qed.

Lemma pak_fread_enough n buf s bytes rest :
  f_data (st_pakFile s) = bytes ++ rest -> Z.of_nat (length bytes) = n ->
  length buf = length bytes ->
  pak_fread n buf s = Ret ((bytes, n), set_pakFile (mkFILE rest (f_eof (st_pakFile s))) s).
Proof.
  intros Hd Hn Hb. unfold pak_fread. now rewrite (fread_enough n buf _ bytes rest).
Qed.

Lemma reach_pak_header_end_run env s byte rest :
  f_data (st_pakFile s) = byte :: rest ->
  reach_pak_header_end env s =
    Ret (decode_one_byte byte =? 128, set_pakFile (mkFILE rest (f_eof (st_pakFile s))) s).
Proof.
  intros Hd. unfold reach_pak_header_end, bind.
  rewrite (pak_fread_enough 1 _ _ [byte] rest); [reflexivity | exact Hd | reflexivity | reflexivity].
Qed.

Lemma parse_file_size_run attr s a sb rest :
  f_data (st_pakFile s) = sb ++ rest -> length sb = 4%nat ->
  st_attrs s !! attr = Some a ->
  parse_file_size attr s =
    Ret (tt, mkState (st_arena s) (mkFILE rest (f_eof (st_pakFile s))) (st_list s)
               (st_header s)
               (<[attr := mkFileAttr (fileName a) (u32_of_bytes (decode_one_byte <$> sb))
                                     (lastWriteTime a) (next a)]> (st_attrs s))
               (st_bufs s) (st_dirs s) (st_files s) (st_times s) (st_stderr s)).
Proof.
  intros Hd Hl Ha. unfold parse_file_size, bind, load_attr. rewrite Ha. cbv beta iota.
  rewrite (pak_fread_enough _ _ _ sb rest Hd); [|rewrite Hl; reflexivity|now rewrite Hl].
  cbv beta iota. rewrite decode_bytes_all by (rewrite Hl; reflexivity). reflexivity.
Qed.

Lemma parse_file_last_write_time_run attr s a tb rest :
  f_data (st_pakFile s) = tb ++ rest -> length tb = 8%nat ->
  st_attrs s !! attr = Some a -> length (lastWriteTime a) = 8%nat ->
  parse_file_last_write_time attr s =
    Ret (tt, mkState (st_arena s) (mkFILE rest (f_eof (st_pakFile s))) (st_list s)
               (st_header s)
               (<[attr := mkFileAttr (fileName a) (fileSize a) (decode_one_byte <$> tb)
                                     (next a)]> (st_attrs s))
               (st_bufs s) (st_dirs s) (st_files s) (st_times s) (st_stderr s)).
Proof.
  intros Hd Hl Ha Ht. unfold parse_file_last_write_time, bind, load_attr. rewrite Ha.
  cbv beta iota.
  rewrite (pak_fread_enough _ _ _ tb rest Hd); [|rewrite Hl; reflexivity|now rewrite Hl, Ht].
  cbv beta iota. rewrite decode_bytes_all by (rewrite Hl; reflexivity). reflexivity.
Qed.

Lemma chain_nodes attrs h ps q : chain attrs h ps -> q ∈ ps -> is_Some (attrs !! q).
Proof.
  revert h. induction ps as [|p ps IH]; intros h Hc Hq; [inversion Hq|].
  destruct Hc as (-> & a & Ha & Hc). apply elem_of_cons in Hq as [->|Hq]; eauto.
Qed.

Lemma allocated_grows env a size p a' q :
  arena_small a -> 0 <= size < 2 ^ 63 ->
  arena_malloc env a size = Ret (p, a') -> allocated a q -> allocated a' q.
Proof.
  intros Ha Hs Hm [H0 H1].
  destruct (arena_malloc_facts _ _ _ _ _ Ha Hs Hm) as (_ & Hoff & Hnew & Hother).
  destruct Hs as [Hs _].
  destruct q as [qk qo], p as [pk po]. unfold allocated. simpl in *.
  split; [exact H0|]. destruct (decide (qk = pk)) as [->|E].
  - lia.
  - rewrite Hother by exact E. exact H1.
Qed.

Lemma allocated_new env a size p a' :
  arena_small a -> 0 < size < 2 ^ 63 ->
  arena_malloc env a size = Ret (p, a') -> allocated a' p /\ ~ allocated a p.
Proof.
  intros Ha Hs Hm.
  assert (Hs' : 0 <= size < 2 ^ 63) by lia.
  destruct (arena_malloc_facts _ _ _ _ _ Ha Hs' Hm) as (Ha' & Hoff & Hnew & Hother).
  assert (0 <= used_of (head a) p.1).
  { destruct Ha as [_ Hb]. clear -Hb. induction Hb as [|b older [Hu _] _ IH]; simpl; [lia|].
    destruct (decide _); lia. }
  unfold allocated. split; lia.
Qed.

Lemma bind_run {A B} (m : M A) (k : A -> M B) s a s' :
  m s = Ret (a, s') -> bind m k s = k a s'.
Proof. intros H. unfold bind. now rewrite H. Qed.

Lemma used_of_nonneg a k : arena_small a -> 0 <= used_of (head a) k.
Proof.
  intros [_ Hb]. induction Hb as [|b older [Hu _] _ IH]; simpl; [lia|].
  destruct (decide _); lia.
Qed.

(** The last step of a round of the parser: the node at [p1], filled in and
    with its name at [p2], is linked to the list. [p1] and [p2] come from
    the two calls of [arena_malloc] of the round. *)
Lemma link_parsed_node env s ps p1 a1 p2 a2 L f' A B :
  parser_inv s ps -> Z.of_nat (length ps) + 1 < SIZE_MOD ->
  arena_malloc env (st_arena s) sizeof_FileAttr = Ret (p1, a1) ->
  0 <= L <= 255 -> arena_malloc env a1 (L + 1) = Ret (p2, a2) ->
  fileName A = p2 ->
  exists s1,
    file_attr_list_add p1
      (mkState a2 f' (st_list s) (st_header s) (<[p1 := A]> (st_attrs s))
               (<[p2 := B]> (st_bufs s)) (st_dirs s) (st_files s) (st_times s) (st_stderr s))
      = Ret (tt, s1) /\
    parser_inv s1 (ps ++ [p1]) /\ st_pakFile s1 = f' /\
    stored s1 p1 (B, fileSize A, lastWriteTime A) /\
    (forall q r, stored s q r -> stored s1 q r) /\ same_world s s1.
Proof.
  intros (Hsmall & [Hha Hhb] & Hfl) Hlen E1 HL E2 HA.
  assert (S1 : 0 < sizeof_FileAttr < 2 ^ 63) by (unfold sizeof_FileAttr; rewrite pow63_eq; lia).
  assert (S2 : 0 < L + 1 < 2 ^ 63) by (rewrite pow63_eq; lia).
  assert (S1' : 0 <= sizeof_FileAttr < 2 ^ 63) by lia.
  assert (S2' : 0 <= L + 1 < 2 ^ 63) by lia.
  destruct (arena_malloc_facts _ _ _ _ _ Hsmall S1' E1) as (Hsmall1 & _).
  destruct (arena_malloc_facts _ _ _ _ _ Hsmall1 S2' E2) as (Hsmall2 & _).
  destruct (allocated_new _ _ _ _ _ Hsmall S1 E1) as [Hp1 Hp1'].
  destruct (allocated_new _ _ _ _ _ Hsmall1 S2 E2) as [Hp2 Hp2'].
  assert (Hgrow : forall q, allocated (st_arena s) q -> allocated a1 q /\ allocated a2 q).
  { intros q Hq.
    assert (allocated a1 q) by (exact (allocated_grows _ _ _ _ _ q Hsmall S1' E1 Hq)).
    split; [assumption | exact (allocated_grows _ _ _ _ _ q Hsmall1 S2' E2 H)]. }
  assert (Hp12 : p1 <> p2) by (intros ->; contradiction).
  assert (Hp1ps : p1 ∉ ps).
  { intros Hin. apply Hp1'. apply Hha. destruct Hfl as (Hc & _). eapply chain_nodes; eauto. }
  set (sF := mkState a2 f' (st_list s) (st_header s) (<[p1 := A]> (st_attrs s))
               (<[p2 := B]> (st_bufs s)) (st_dirs s) (st_files s) (st_times s) (st_stderr s)).
  assert (HflF : flist_holds sF ps).
  { destruct Hfl as (Hc & Ht & Hl & Hnd). repeat split; try assumption.
    cbn [sF st_attrs st_header]. now apply chain_insert_fresh. }
  destruct (file_attr_list_add_run sF ps p1 A HflF) as (attrs' & Hadd & Hchain & Hnew & Hold & Hdom);
    [apply lookup_insert_eq | exact Hp1ps | exact Hlen |].
  eexists. split; [exact Hadd|]. split; [|split; [|split; [|split]]].
  - split; [exact Hsmall2|]. split; [split|].
    + cbn. intros q Hq. destruct (Hdom q Hq) as [->|Hq'].
      * exact (allocated_grows _ _ _ _ _ p1 Hsmall1 S2' E2 Hp1).
      * cbn in Hq'. destruct (decide (q = p1)) as [->|Hne].
        -- exact (allocated_grows _ _ _ _ _ p1 Hsmall1 S2' E2 Hp1).
        -- rewrite lookup_insert_ne in Hq' by congruence. now apply Hgrow, Hha.
    + cbn. intros q Hq. destruct (decide (q = p2)) as [->|Hne]; [exact Hp2|].
      rewrite lookup_insert_ne in Hq by congruence. now apply Hgrow, Hhb.
    + destruct Hfl as (Hc & Ht & Hl & Hnd). repeat split; cbn.
      * exact Hchain.
      * now rewrite last_snoc.
      * rewrite length_app, Nat.add_comm. cbn [length Nat.add].
        rewrite size_wrap_small by lia. lia.
      * apply NoDup_app. repeat split; [exact Hnd | | apply NoDup_singleton].
        intros q Hq Hq1. apply list_elem_of_singleton in Hq1 as ->. contradiction.
  - reflexivity.
  - exists (with_next A None). cbn. rewrite HA.
    repeat split; [exact Hnew | apply lookup_insert_eq].
  - intros q r (aq & Hq & Hb & Hsz & Htm).
    assert (Hqp : q <> p1) by (intros ->; apply Hp1'; apply Hha; eauto).
    destruct (Hold q aq Hqp) as [n Hn].
    { cbn. now rewrite lookup_insert_ne by congruence. }
    exists (with_next aq n). cbn. repeat split; try assumption.
    rewrite lookup_insert_ne; [exact Hb|].
    intros Heq. apply Hp2'. rewrite Heq. apply Hgrow. apply Hhb. eauto.
  - repeat split.
Qed.

Lemma parse_record_step env s ps fuel fb lb nb sb tb rest :
  (forall n z, malloc_ok env n z = true) ->
  parser_inv s ps -> Z.of_nat (length ps) + 1 < SIZE_MOD ->
  f_eof (st_pakFile s) = false ->
  f_data (st_pakFile s) = fb :: lb :: nb ++ sb ++ tb ++ rest ->
  decode_one_byte fb <> 128 -> decode_one_byte lb = Z.of_nat (length nb) ->
  length sb = 4%nat -> length tb = 8%nat ->
  exists s1 p,
    parse_all_file_attrs (S fuel) env s = parse_all_file_attrs fuel env s1 /\
    parser_inv s1 (ps ++ [p]) /\ st_pakFile s1 = mkFILE rest false /\
    stored s1 p ((decode_one_byte <$> nb) ++ [0],
                 u32_of_bytes (decode_one_byte <$> sb), decode_one_byte <$> tb) /\
    (forall q r, stored s q r -> stored s1 q r) /\ same_world s s1.
Proof.
  intros Hm Hinv Hlen Heof Hd Hfb Hlb Hsb Htb.
  pose proof (decode_one_byte_range lb) as Hlr.
  destruct (arena_malloc_returns env (st_arena s) sizeof_FileAttr Hm) as (p1 & a1 & E1).
  destruct (arena_malloc_returns env a1 (decode_one_byte lb + 1) Hm) as (p2 & a2 & E2).
  set (A3 := mkFileAttr p2 (u32_of_bytes (decode_one_byte <$> sb)) (decode_one_byte <$> tb) None).
  set (name := (decode_one_byte <$> nb) ++ [0]).
  set (sF := parsing s a2 rest (<[p1 := A3]> (st_attrs s)) (<[p2 := name]> (st_bufs s))).
  (* the body of the loop up to the call of file_attr_list_add *)
  assert (Hbody : parse_all_file_attrs (S fuel) env s
                  = bind (file_attr_list_add p1) (fun _ => parse_all_file_attrs fuel env) sF).
  { cbn [parse_all_file_attrs].
    rewrite (bind_run _ _ s false s) by (unfold gets; now rewrite Heof).
    cbv beta iota.
    rewrite (bind_run _ _ s false
               (parsing s (st_arena s) (lb :: nb ++ sb ++ tb ++ rest) (st_attrs s) (st_bufs s))).
    2:{ rewrite (reach_pak_header_end_run env s fb _ Hd).
        replace (decode_one_byte fb =? 128) with false by (symmetry; apply Z.eqb_neq; exact Hfb).
        unfold set_pakFile, parsing. now rewrite Heof. }
    cbv beta iota.
    rewrite (bind_run _ _ _ p1
               (parsing s a1 (lb :: nb ++ sb ++ tb ++ rest) (st_attrs s) (st_bufs s))).
    2:{ unfold res_arena_malloc. cbn [st_arena parsing]. now rewrite E1. }
    rewrite (bind_run _ _ _ tt
               (parsing s a1 (lb :: nb ++ sb ++ tb ++ rest)
                        (<[p1 := fresh_attr env]> (st_attrs s)) (st_bufs s))) by reflexivity.
    rewrite (bind_run _ _ _ tt
               (parsing s a2 (sb ++ tb ++ rest)
                        (<[p1 := mkFileAttr p2 (fileSize (fresh_attr env))
                                            (lastWriteTime (fresh_attr env)) None]> (st_attrs s))
                        (<[p2 := name]> (st_bufs s)))).
    2:{ erewrite parse_file_name_run;
          [ | reflexivity | cbn [st_attrs parsing]; apply lookup_insert_eq | exact E2 ].
        cbn [st_attrs st_bufs st_list st_header st_dirs st_files st_times st_stderr
             st_pakFile parsing f_eof].
        rewrite insert_insert_eq. rewrite Hlb, Nat2Z.id, drop_app_length.
        rewrite name_array_full by (rewrite ?Nat2Z.id, ?length_app; lia).
        rewrite Nat2Z.id, take_app_length.
        replace (Z.of_nat (length (nb ++ sb ++ tb ++ rest)) <? Z.of_nat (length nb))
          with false by (symmetry; apply Z.ltb_ge; rewrite length_app; lia).
        reflexivity. }
    rewrite (bind_run _ _ _ tt
               (parsing s a2 (tb ++ rest)
                        (<[p1 := mkFileAttr p2 (u32_of_bytes (decode_one_byte <$> sb))
                                            (lastWriteTime (fresh_attr env)) None]> (st_attrs s))
                        (<[p2 := name]> (st_bufs s)))).
    2:{ erewrite parse_file_size_run;
          [ | reflexivity | exact Hsb | cbn [st_attrs parsing]; apply lookup_insert_eq ].
        cbn [st_attrs st_bufs st_list st_header st_dirs st_files st_times st_stderr
             st_pakFile st_arena parsing f_eof fileName lastWriteTime next].
        now rewrite insert_insert_eq. }
    rewrite (bind_run _ _ _ tt sF).
    2:{ erewrite parse_file_last_write_time_run;
          [ | reflexivity | exact Htb | cbn [st_attrs parsing]; apply lookup_insert_eq
            | reflexivity ].
        cbn [st_attrs st_bufs st_list st_header st_dirs st_files st_times st_stderr
             st_pakFile st_arena parsing f_eof fileName fileSize next].
        now rewrite insert_insert_eq. }
    reflexivity. }
  destruct (link_parsed_node env s ps p1 a1 p2 a2 (decode_one_byte lb) (mkFILE rest false)
              A3 name Hinv Hlen E1 ltac:(lia) E2 eq_refl)
    as (s1 & Hadd & Hinv1 & Hpak & Hst & Hframe & Hworld).
  exists s1, p1. split; [|auto].
  rewrite Hbody. now rewrite (bind_run _ _ _ _ _ Hadd).
Qed.

Lemma decode_decode b : is_byte b -> decode_one_byte (decode_one_byte b) = b.
Proof. intros H. now apply decode_one_byte_involutive. Qed.

Lemma decode_encode bytes : Forall is_byte bytes -> decode_one_byte <$> encode bytes = bytes.
Proof.
  unfold encode. induction 1 as [|b bs Hb _ IH]; [reflexivity|].
  cbn [fmap list_fmap]. f_equal; [now apply decode_decode | exact IH].
Qed.

Lemma bytes_of_u32_bytes n : Forall is_byte (bytes_of_u32 n).
Proof. unfold bytes_of_u32, is_byte. repeat constructor; apply Z.mod_pos_bound; lia. Qed.

Lemma u32_of_bytes_of_u32 n : 0 <= n < UINT32_MOD -> u32_of_bytes (bytes_of_u32 n) = n.
Proof.
  rewrite u32_mod_eq. intros Hn. unfold u32_of_bytes, bytes_of_u32.
  cbn [lookup_total list_lookup_total].
  rewrite (Z.mod_small (n / 16777216)) by (split; [apply Z.div_pos; lia | apply Z.div_lt_upper_bound; lia]).
  pose proof (Z.div_mod n 256 ltac:(lia)).
  pose proof (Z.div_mod (n / 256) 256 ltac:(lia)).
  pose proof (Z.div_mod (n / 256 / 256) 256 ltac:(lia)).
  rewrite !Z.div_div in * by lia. change (256 * 256) with 65536 in *.
  change (65536 * 256) with 16777216 in *. lia.
Qed.

Lemma encode_entry e :
  encode (plain_entry e) =
    decode_one_byte (e_flag e) :: decode_one_byte (Z.of_nat (length (e_name e)))
      :: encode (e_name e) ++ encode (bytes_of_u32 (e_size e)) ++ encode (e_time e).
Proof. unfold plain_entry, encode. cbn [app fmap list_fmap]. now rewrite !fmap_app. Qed.

Lemma record_table_cons e es payload :
  record_table (e :: es) ++ payload = encode (plain_entry e) ++ record_table es ++ payload.
Proof.
  unfold record_table, encode. cbn [fmap list_fmap concat].
  now rewrite <- !app_assoc, !fmap_app, <- !app_assoc.
Qed.

(** The loop of [parse_all_file_attrs] on a record table: one node per
    entry, linked in the order of the table; the stream is left at the
    first byte behind the end flag. *)
Lemma parse_all_file_attrs_table env es : forall s ps fuel payload,
  (forall n z, malloc_ok env n z = true) ->
  parser_inv s ps -> Z.of_nat (length ps) + Z.of_nat (length es) < SIZE_MOD ->
  f_eof (st_pakFile s) = false ->
  f_data (st_pakFile s) = record_table es ++ payload ->
  Forall entry_ok es -> (length es < fuel)%nat ->
  exists s' ps',
    parse_all_file_attrs fuel env s = Ret (tt, s') /\
    parser_inv s' (ps ++ ps') /\ st_pakFile s' = mkFILE payload false /\
    Forall2 (stored s') ps' (record_of <$> es) /\
    (forall q r, stored s q r -> stored s' q r) /\ same_world s s'.
Proof.
  induction es as [|e es IH]; intros s ps fuel payload Hm Hinv Hlen Heof Hd Hok Hfuel.
  - destruct fuel as [|fuel]; [simpl in Hfuel; lia|].
    exists (set_pakFile (mkFILE payload false) s), [].
    split; [|split; [|split; [|split; [|split]]]].
    + cbn [parse_all_file_attrs].
      rewrite (bind_run _ _ s false s) by (unfold gets; now rewrite Heof).
      cbv beta iota.
      rewrite (bind_run _ _ s true (set_pakFile (mkFILE payload false) s)); [reflexivity|].
      rewrite (reach_pak_header_end_run env s (decode_one_byte 128) payload Hd).
      now rewrite Heof.
    + rewrite app_nil_r. exact Hinv.
    + reflexivity.
    + constructor.
    + intros q r H. exact H.
    + repeat split.
  - destruct fuel as [|fuel]; [simpl in Hfuel; lia|].
    inversion Hok as [|? ? He Hes]; subst.
    destruct He as (Hf & Hf128 & Hnl & Hnb & Hsz & Htl & Htb).
    rewrite record_table_cons, encode_entry in Hd. cbn [app] in Hd. rewrite <- !app_assoc in Hd.
    assert (H1 : Z.of_nat (length ps) + 1 < SIZE_MOD) by (cbn [length] in Hlen; lia).
    assert (H2 : decode_one_byte (decode_one_byte (e_flag e)) <> 128)
      by now rewrite decode_decode.
    assert (H3 : decode_one_byte (decode_one_byte (Z.of_nat (length (e_name e))))
                 = Z.of_nat (length (encode (e_name e)))).
    { rewrite decode_decode by (unfold is_byte; lia). unfold encode. now rewrite length_fmap. }
    assert (H4 : length (encode (bytes_of_u32 (e_size e))) = 4%nat)
      by (unfold encode; now rewrite length_fmap).
    assert (H5 : length (encode (e_time e)) = 8%nat)
      by (unfold encode; now rewrite length_fmap).
    destruct (parse_record_step env s ps fuel _ _ _ _ _ _ Hm Hinv H1 Heof Hd H2 H3 H4 H5)
      as (s1 & p & Hstep & Hinv1 & Hpak1 & Hst1 & Hframe1 & Hw1).
    destruct (IH s1 (ps ++ [p]) fuel payload Hm Hinv1)
      as (s' & ps' & Hrun & Hinv' & Hpak' & Hst' & Hframe' & Hw').
    + rewrite length_app. cbn [length] in *. lia.
    + now rewrite Hpak1.
    + now rewrite Hpak1.
    + exact Hes.
    + cbn [length] in Hfuel. lia.
    + exists s', (p :: ps'). split; [|split; [|split; [|split; [|split]]]].
      * now rewrite Hstep.
      * now rewrite <- app_assoc in Hinv'.
      * exact Hpak'.
      * cbn [fmap list_fmap]. constructor; [|exact Hst'].
        apply Hframe'. unfold record_of.
        rewrite !decode_encode in Hst1 by (assumption || apply bytes_of_u32_bytes).
        now rewrite u32_of_bytes_of_u32 in Hst1.
      * intros q r H. apply Hframe', Hframe1, H.
      * destruct Hw1 as (?&?&?&?&?&?&?), Hw' as (?&?&?&?&?&?&?).
        repeat split; congruence.
Qed.

Lemma records_from_chain s ps : forall h rs fuel,
  chain (st_attrs s) h ps -> Forall2 (stored s) ps rs -> (length ps <= fuel)%nat ->
  records_from fuel s h = Some rs.
Proof.
  induction ps as [|p ps IH]; intros h rs fuel Hc Hs Hf.
  - simpl in Hc. subst h. inversion Hs; subst. now destruct fuel.
  - destruct Hc as (-> & a & Ha & Hc). inversion Hs as [|? r ? rs' Hp Hrest]; subst.
    destruct fuel as [|fuel]; [simpl in Hf; lia|].
    destruct Hp as (a' & Ha' & Hb & Hsz & Htm). assert (a' = a) as -> by congruence.
    cbn [records_from]. rewrite Ha, Hb.
    rewrite (IH _ _ fuel Hc Hrest) by (simpl in Hf; lia).
    destruct r as [[nm sz] tm]. simpl in *. now subst.
Qed.

(** *** The parser on an arbitrary stream *)

Lemma advanced_refl f : advanced f f.
Proof. split; auto. Qed.

Lemma advanced_trans f1 f2 f3 : advanced f1 f2 -> advanced f2 f3 -> advanced f1 f3.
Proof. intros [H1 H2] [H3 H4]. split; [lia | auto]. Qed.

Lemma fread_advanced n buf f : advanced f (fread n buf f).2.
Proof.
  unfold fread, advanced. cbn [snd f_data f_eof]. rewrite length_drop.
  split; [lia|]. intros ->. reflexivity.
Qed.

(** A read of at least one byte shortens the stream or sets the indicator. *)
Lemma fread_progress n buf f :
  0 < n ->
  f_eof (fread n buf f).2 = true \/
  (length (f_data (fread n buf f).2) < length (f_data f))%nat.
Proof.
  intros Hn. unfold fread. cbn [snd f_data f_eof]. rewrite length_drop.
  destruct (f_data f) as [|b bs]; [left | right; cbn [length]; lia].
  cbn [length]. replace (Z.of_nat 0 <? n) with true by (symmetry; apply Z.ltb_lt; lia).
  apply orb_true_r.
Qed.

Lemma pak_fread_any n buf s :
  pak_fread n buf s =
    Ret (((fread n buf (st_pakFile s)).1.1, (fread n buf (st_pakFile s)).1.2),
         set_pakFile (fread n buf (st_pakFile s)).2 s).
Proof. reflexivity. Qed.

Lemma reach_pak_header_end_any env s :
  exists stop,
    reach_pak_header_end env s
      = Ret (stop, set_pakFile (fread 1 (fresh_bytes env 1) (st_pakFile s)).2 s).
Proof. eexists. reflexivity. Qed.

Lemma parse_file_name_any env attr s a :
  st_attrs s !! attr = Some a ->
  exists L, 0 <= L <= 255 /\
    forall p arena', arena_malloc env (st_arena s) (L + 1) = Ret (p, arena') ->
    exists f' B,
      parse_file_name env attr s =
        Ret (tt, mkState arena' f' (st_list s) (st_header s)
                   (<[attr := mkFileAttr p (fileSize a) (lastWriteTime a) (next a)]> (st_attrs s))
                   (<[p := B]> (st_bufs s))
                   (st_dirs s) (st_files s) (st_times s) (st_stderr s)) /\
      advanced (st_pakFile s) f'.
Proof.
  intros Ha.
  set (r1 := fread 1 (fresh_bytes env 1) (st_pakFile s)).
  set (L := decode_one_byte (r1.1.1 !!! 0%nat)).
  pose proof (decode_one_byte_range (r1.1.1 !!! 0%nat)) as Hr. fold L in Hr.
  exists L. split; [lia|]. intros p arena' Hm.
  set (r2 := fread L (<[Z.to_nat L := 0]> (fresh_bytes env (L + 1))) r1.2).
  exists r2.2, (decode_bytes r2.1.1 L). split.
  - unfold parse_file_name.
    rewrite (bind_run _ _ s (r1.1.1, r1.1.2) (set_pakFile r1.2 s)) by apply pak_fread_any.
    cbv beta iota. fold L.
    rewrite (u32_wrap_small L) by (rewrite u32_mod_eq; lia).
    rewrite (u32_wrap_small (L + 1)) by (rewrite u32_mod_eq; lia).
    rewrite Z.mul_1_r. rewrite size_wrap_small by (rewrite size_mod_eq; lia).
    rewrite (bind_run _ _ _ p (set_arena arena' (set_pakFile r1.2 s))).
    2:{ unfold res_arena_malloc. cbn [st_arena set_pakFile]. now rewrite Hm. }
    rewrite (bind_run _ _ _ (r2.1.1, r2.1.2)
               (set_pakFile r2.2 (set_arena arena' (set_pakFile r1.2 s)))) by apply pak_fread_any.
    cbv beta iota.
    rewrite (bind_run _ _ _ tt _ eq_refl).
    rewrite (bind_run _ _ _ a _) by (unfold load_attr; cbn; now rewrite Ha).
    reflexivity.
  - eapply advanced_trans; apply fread_advanced.
Qed.

Lemma parse_file_size_any attr s a :
  st_attrs s !! attr = Some a ->
  exists f' v,
    parse_file_size attr s =
      Ret (tt, mkState (st_arena s) f' (st_list s) (st_header s)
                 (<[attr := mkFileAttr (fileName a) v (lastWriteTime a) (next a)]> (st_attrs s))
                 (st_bufs s) (st_dirs s) (st_files s) (st_times s) (st_stderr s)) /\
    advanced (st_pakFile s) f'.
Proof.
  intros Ha. eexists _, _. split; [|apply (fread_advanced BYTES_OF_FILE_SIZE
                                             (bytes_of_u32 (fileSize a)))].
  unfold parse_file_size.
  rewrite (bind_run _ _ s a s) by (unfold load_attr; now rewrite Ha).
  rewrite (bind_run _ _ s _ _ (pak_fread_any _ _ _)). reflexivity.
Qed.

Lemma parse_file_last_write_time_any attr s a :
  st_attrs s !! attr = Some a ->
  exists f' v,
    parse_file_last_write_time attr s =
      Ret (tt, mkState (st_arena s) f' (st_list s) (st_header s)
                 (<[attr := mkFileAttr (fileName a) (fileSize a) v (next a)]> (st_attrs s))
                 (st_bufs s) (st_dirs s) (st_files s) (st_times s) (st_stderr s)) /\
    advanced (st_pakFile s) f'.
Proof.
  intros Ha. eexists _, _. split; [|apply (fread_advanced BYTES_OF_FILE_TIME (lastWriteTime a))].
  unfold parse_file_last_write_time.
  rewrite (bind_run _ _ s a s) by (unfold load_attr; now rewrite Ha).
  rewrite (bind_run _ _ s _ _ (pak_fread_any _ _ _)). reflexivity.
Qed.

Lemma parser_inv_set_pakFile f s ps : parser_inv s ps -> parser_inv (set_pakFile f s) ps.
Proof. intros H. exact H. Qed.

(** One round of the loop on any stream, by the flag byte it reads: the
    loop is left with the list as it was, or one node is appended. *)
Lemma parse_round_flag env s ps fuel :
  (forall n z, malloc_ok env n z = true) ->
  parser_inv s ps -> Z.of_nat (length ps) + 1 < SIZE_MOD ->
  f_eof (st_pakFile s) = false ->
  let r := fread 1 (fresh_bytes env 1) (st_pakFile s) in
  if decode_one_byte (r.1.1 !!! 0%nat) =? 128
  then parse_all_file_attrs (S fuel) env s = Ret (tt, set_pakFile r.2 s)
  else
    exists s1 p rcd,
      parse_all_file_attrs (S fuel) env s = parse_all_file_attrs fuel env s1 /\
      parser_inv s1 (ps ++ [p]) /\ stored s1 p rcd /\
      (forall q r, stored s q r -> stored s1 q r) /\ same_world s s1 /\
      advanced r.2 (st_pakFile s1).
Proof.
  intros Hm Hinv Hlen Heof. cbv zeta.
  set (f1 := (fread 1 (fresh_bytes env 1) (st_pakFile s)).2).
  set (stop := decode_one_byte ((fread 1 (fresh_bytes env 1) (st_pakFile s)).1.1 !!! 0%nat)
               =? 128).
  assert (Hreach : reach_pak_header_end env s = Ret (stop, set_pakFile f1 s)) by reflexivity.
  clearbody stop.
  assert (Hstart : parse_all_file_attrs (S fuel) env s
                   = (if stop then ret tt
                      else
                        let* attr := res_arena_malloc env sizeof_FileAttr in
                        let* _ := store_attr attr (fresh_attr env) in
                        let* _ := parse_file_name env attr in
                        let* _ := parse_file_size attr in
                        let* _ := parse_file_last_write_time attr in
                        let* _ := file_attr_list_add attr in
                        parse_all_file_attrs fuel env) (set_pakFile f1 s)).
  { cbn [parse_all_file_attrs].
    rewrite (bind_run _ _ s false s) by (unfold gets; now rewrite Heof).
    cbv beta iota. now rewrite (bind_run _ _ _ _ _ Hreach). }
  destruct stop; [exact Hstart|].
  destruct (arena_malloc_returns env (st_arena s) sizeof_FileAttr Hm) as (p1 & a1 & E1).
  set (sC := mkState a1 f1 (st_list s) (st_header s) (<[p1 := fresh_attr env]> (st_attrs s))
               (st_bufs s) (st_dirs s) (st_files s) (st_times s) (st_stderr s)).
  destruct (parse_file_name_any env p1 sC (fresh_attr env)) as (L & HL & Hname);
    [apply lookup_insert_eq|].
  destruct (arena_malloc_returns env a1 (L + 1) Hm) as (p2 & a2 & E2).
  destruct (Hname p2 a2 E2) as (f2 & B & Hrun2 & Hadv2). clear Hname.
  cbn [sC st_list st_header st_attrs st_bufs st_dirs st_files st_times st_stderr] in Hrun2.
  rewrite insert_insert_eq in Hrun2.
  match type of Hrun2 with _ = Ret (tt, ?st) => set (sD := st) in * end.
  destruct (parse_file_size_any p1 sD _ (lookup_insert_eq _ _ _)) as (f3 & v3 & Hrun3 & Hadv3).
  cbn [sD st_arena st_list st_header st_attrs st_bufs st_dirs st_files st_times st_stderr
       fileName lastWriteTime next] in Hrun3.
  rewrite insert_insert_eq in Hrun3.
  match type of Hrun3 with _ = Ret (tt, ?st) => set (sE := st) in * end.
  destruct (parse_file_last_write_time_any p1 sE _ (lookup_insert_eq _ _ _))
    as (f4 & v4 & Hrun4 & Hadv4).
  cbn [sE st_arena st_list st_header st_attrs st_bufs st_dirs st_files st_times st_stderr
       fileName fileSize next] in Hrun4.
  rewrite insert_insert_eq in Hrun4.
  set (A := mkFileAttr p2 v3 v4 (next (fresh_attr env))) in *.
  destruct (link_parsed_node env s ps p1 a1 p2 a2 L f4 A B Hinv Hlen E1 HL E2 eq_refl)
    as (s1 & Hadd & Hinv1 & Hpak & Hst & Hframe & Hworld).
  exists s1, p1, (B, fileSize A, lastWriteTime A).
  split; [|split; [exact Hinv1 | split; [exact Hst | split; [exact Hframe | split;
           [exact Hworld|]]]]].
  - rewrite Hstart.
    rewrite (bind_run _ _ _ p1 (set_arena a1 (set_pakFile f1 s))).
    2:{ unfold res_arena_malloc. cbn [st_arena set_pakFile]. now rewrite E1. }
    rewrite (bind_run _ _ _ tt sC) by reflexivity.
    rewrite (bind_run _ _ _ _ _ Hrun2).
    rewrite (bind_run _ _ _ _ _ Hrun3).
    rewrite (bind_run _ _ _ _ _ Hrun4).
    now rewrite (bind_run _ _ _ _ _ Hadd).
  - rewrite Hpak.
    eapply advanced_trans; [exact Hadv2|]. eapply advanced_trans; [exact Hadv3|exact Hadv4].
Qed.

(** One round of the loop on any stream: the loop is left with the list as
    it was, or one node is appended and the stream has advanced. *)
Lemma parse_round_any env s ps fuel :
  (forall n z, malloc_ok env n z = true) ->
  parser_inv s ps -> Z.of_nat (length ps) + 1 < SIZE_MOD ->
  f_eof (st_pakFile s) = false ->
  (exists s1,
     parse_all_file_attrs (S fuel) env s = Ret (tt, s1) /\
     parser_inv s1 ps /\ (forall q r, stored s q r -> stored s1 q r) /\ same_world s s1)
  \/
  (exists s1 p r,
     parse_all_file_attrs (S fuel) env s = parse_all_file_attrs fuel env s1 /\
     parser_inv s1 (ps ++ [p]) /\ stored s1 p r /\
     (forall q r, stored s q r -> stored s1 q r) /\ same_world s s1 /\
     (f_eof (st_pakFile s1) = true \/
      (length (f_data (st_pakFile s1)) < length (f_data (st_pakFile s)))%nat)).
Proof.
  intros Hm Hinv Hlen Heof.
  pose proof (parse_round_flag env s ps fuel Hm Hinv Hlen Heof) as H. cbv zeta in H.
  destruct (decode_one_byte _ =? 128).
  - left. eexists. split; [exact H|]. split; [exact Hinv|]. split; [auto | repeat split].
  - right. destruct H as (s1 & p & r & Hrun & Hinv1 & Hst & Hframe & Hworld & [Hl He]).
    exists s1, p, r. repeat (split; [assumption|]).
    destruct (fread_progress 1 (fresh_bytes env 1) (st_pakFile s) ltac:(lia)) as [H|H].
    + left. apply He. exact H.
    + right. lia.
Qed.

(** The loop of [parse_all_file_attrs] returns on every stream, and what
    it leaves is a list: the nodes it held before, then the nodes it has
    appended, each with its name in the pool. *)
Lemma parse_all_file_attrs_any env : forall fuel s ps,
  (forall n z, malloc_ok env n z = true) ->
  parser_inv s ps ->
  Z.of_nat (length ps) + Z.of_nat (length (f_data (st_pakFile s))) + 1 < SIZE_MOD ->
  (length (f_data (st_pakFile s)) + 1 < fuel)%nat ->
  exists s' ps' rs',
    parse_all_file_attrs fuel env s = Ret (tt, s') /\
    parser_inv s' (ps ++ ps') /\ Forall2 (stored s') ps' rs' /\
    (length ps' <= length (f_data (st_pakFile s)) + 1)%nat /\
    (forall q r, stored s q r -> stored s' q r) /\ same_world s s'.
Proof.
  induction fuel as [|fuel IH]; intros s ps Hm Hinv Hlen Hfuel; [lia|].
  destruct (f_eof (st_pakFile s)) eqn:Heof.
  { exists s, [], []. rewrite app_nil_r. split; [|split; [exact Hinv|split; [constructor|]]].
    - cbn [parse_all_file_attrs].
      now rewrite (bind_run _ _ s true s) by (unfold gets; now rewrite Heof).
    - split; [cbn; lia|]. split; [auto | repeat split]. }
  destruct (parse_round_any env s ps fuel Hm Hinv ltac:(lia) Heof)
    as [(s1 & Hrun & Hinv1 & Hframe & Hworld)
       | (s1 & p & r & Hrun & Hinv1 & Hst & Hframe & Hworld & Hprog)].
  { exists s1, [], []. rewrite app_nil_r.
    split; [exact Hrun|]. split; [exact Hinv1|]. split; [constructor|].
    split; [cbn; lia|]. split; assumption. }
  destruct Hprog as [Heof1|Hshort].
  - exists s1, [p], [r]. split; [|split; [exact Hinv1|split; [repeat constructor; exact Hst|]]].
    + rewrite Hrun. destruct fuel as [|fuel]; [lia|]. cbn [parse_all_file_attrs].
      now rewrite (bind_run _ _ s1 true s1) by (unfold gets; now rewrite Heof1).
    + split; [cbn; lia|]. split; assumption.
  - destruct (IH s1 (ps ++ [p]) Hm Hinv1) as (s' & ps' & rs' & Hrun' & Hinv' & Hst' & Hcount & Hframe' & Hworld').
    + rewrite length_app. cbn [length]. lia.
    + lia.
    + exists s', (p :: ps'), (r :: rs').
      split; [now rewrite Hrun|]. split; [now rewrite <- app_assoc in Hinv'|].
      split; [constructor; [apply Hframe'; exact Hst | exact Hst']|].
      split; [cbn [length]; lia|]. split.
      * intros q r0 H. apply Hframe', Hframe, H.
      * destruct Hworld as (?&?&?&?&?&?&?), Hworld' as (?&?&?&?&?&?&?).
        repeat split; congruence.
Qed.

(** The session up to the end of [parse_pak_header], on a container with
    the entries [es]: one node per entry, in table order, and the stream
    at the first payload byte. *)
Lemma session_parses_table env dirs files pak mg vs es payload fuel :
  (forall n z, malloc_ok env n z = true) -> fopen_w_ok env filenames_txt = true ->
  length mg = 4%nat -> length vs = 4%nat ->
  Forall entry_ok es -> Z.of_nat (length es) < SIZE_MOD -> (length es < fuel)%nat ->
  files !! pak = Some (mg ++ vs ++ record_table es ++ payload) ->
  exists s1 s1' s2 ps,
    resource_init env pak filenames_txt (initial_state env dirs files) = Ret (true, s1) /\
    pak_header_init s1 = Ret (tt, s1') /\
    parse_pak_header fuel env s1' = Ret (tt, s2) /\
    parser_inv s2 ps /\ Forall2 (stored s2) ps (record_of <$> es) /\
    st_pakFile s2 = mkFILE payload false /\
    st_dirs s2 = dirs /\ st_files s2 = files.
Proof.
  intros Hm Hw Hmg Hvs Hok Hlen Hfuel Hpak.
  set (arena0 := mkArena [mkBlock 0 8192] 8192 1).
  set (s0 := initial_state env dirs files).
  set (s1 := mkState arena0 (mkFILE (mg ++ vs ++ record_table es ++ payload) false) []
                     (st_header s0) ∅ ∅ dirs files ∅ []).
  assert (Hinit : resource_init env pak filenames_txt s0 = Ret (true, s1)).
  { unfold resource_init, arena_create. rewrite !Hm. cbn [negb].
    rewrite (bind_run _ _ s0 (Some (mg ++ vs ++ record_table es ++ payload)) s0)
      by (unfold gets; cbn; now rewrite Hpak).
    cbv beta iota. rewrite Hw. reflexivity. }
  set (s3 := mkState arena0 (mkFILE (record_table es ++ payload) false) []
                     (mkPakHeader (decode_one_byte <$> mg) (decode_one_byte <$> vs)
                                  (mkFileAttrList None None 0))
                     ∅ ∅ dirs files ∅ []).
  assert (Hinv : parser_inv s3 []).
  { split; [|split].
    - split; cbn; [rewrite pow63_eq; lia|]. repeat constructor; cbn; rewrite ?pow63_eq; lia.
    - split; cbn; intros p [x Hx]; rewrite lookup_empty in Hx; discriminate.
    - repeat split; cbn; constructor. }
  destruct (parse_all_file_attrs_table env es s3 [] fuel payload Hm Hinv)
    as (s2 & ps & Hrun & Hinv2 & Hpak2 & Hst & _ & Hworld);
    [cbn [length]; lia | reflexivity | reflexivity | exact Hok | exact Hfuel |].
  exists s1,
    (mkState arena0 (mkFILE (mg ++ vs ++ record_table es ++ payload) false) []
       (mkPakHeader (fresh_bytes env BYTES_OF_MAGIC) (fresh_bytes env BYTES_OF_VERSION)
                    (mkFileAttrList None None 0))
       ∅ ∅ dirs files ∅ []), s2, ps.
  split; [exact Hinit|]. split; [reflexivity|].
  destruct Hworld as (_ & Hdirs & Hfiles & _).
  split; [|exact (conj Hinv2 (conj Hst (conj Hpak2 (conj Hdirs Hfiles))))].
  unfold parse_pak_header.
  rewrite (bind_run _ _ _ tt
             (mkState arena0 (mkFILE (vs ++ record_table es ++ payload) false) []
                (mkPakHeader (decode_one_byte <$> mg) (fresh_bytes env BYTES_OF_VERSION)
                             (mkFileAttrList None None 0))
                ∅ ∅ dirs files ∅ [])).
  2:{ unfold parse_magic, bind, gets. cbv beta iota.
      rewrite (pak_fread_enough _ _ _ mg (vs ++ record_table es ++ payload));
        [ | reflexivity | rewrite Hmg; reflexivity
          | cbn; now rewrite length_fresh_bytes, Hmg ].
      cbv beta iota. unfold modify, set_header, set_pakFile. cbn.
      now rewrite decode_bytes_all by (rewrite Hmg; reflexivity). }
  rewrite (bind_run _ _ _ tt s3); [exact Hrun|].
  unfold parse_version, bind, gets. cbv beta iota.
  rewrite (pak_fread_enough _ _ _ vs (record_table es ++ payload));
    [ | reflexivity | rewrite Hvs; reflexivity
      | cbn; now rewrite length_fresh_bytes, Hvs ].
  cbv beta iota. unfold modify, set_header, set_pakFile. cbn.
  now rewrite decode_bytes_all by (rewrite Hvs; reflexivity).
Qed.

(** *** The end of the table *)

Lemma session_before_table_inv dirs files mg vs rest :
  parser_inv (session_before_table dirs files mg vs rest) [].
Proof.
  split; [|split].
  - split; cbn; [rewrite pow63_eq; lia|]. repeat constructor; cbn; rewrite ?pow63_eq; lia.
  - split; cbn; intros p [x Hx]; rewrite lookup_empty in Hx; discriminate.
  - repeat split; cbn; constructor.
Qed.

Lemma record_entries_cons e es rest :
  record_entries (e :: es) ++ rest = encode (plain_entry e) ++ record_entries es ++ rest.
Proof.
  unfold record_entries, encode. cbn [fmap list_fmap concat].
  now rewrite !fmap_app, <- !app_assoc.
Qed.

(** The loop of [parse_all_file_attrs] over the entries of a table: one
    round and one node per entry. *)
Lemma parse_all_file_attrs_entries env es : forall s ps fuel rest,
  (forall n z, malloc_ok env n z = true) ->
  parser_inv s ps -> Z.of_nat (length ps) + Z.of_nat (length es) < SIZE_MOD ->
  f_eof (st_pakFile s) = false ->
  f_data (st_pakFile s) = record_entries es ++ rest ->
  Forall entry_ok es ->
  exists s' ps',
    parse_all_file_attrs (length es + fuel) env s = parse_all_file_attrs fuel env s' /\
    parser_inv s' (ps ++ ps') /\ st_pakFile s' = mkFILE rest false /\
    Forall2 (stored s') ps' (record_of <$> es) /\
    (forall q r, stored s q r -> stored s' q r) /\ same_world s s'.
Proof.
  induction es as [|e es IH]; intros s ps fuel rest Hm Hinv Hlen Heof Hd Hok.
  - exists s, []. rewrite app_nil_r. cbn [length Nat.add].
    split; [reflexivity|]. split; [exact Hinv|]. split.
    + destruct (st_pakFile s) as [d e]. cbn in *. now subst.
    + split; [constructor|]. split; [auto | repeat split].
  - inversion Hok as [|? ? He Hes]; subst.
    destruct He as (Hf & Hf128 & Hnl & Hnb & Hsz & Htl & Htb).
    rewrite record_entries_cons, encode_entry in Hd. cbn [app] in Hd. rewrite <- !app_assoc in Hd.
    assert (H1 : Z.of_nat (length ps) + 1 < SIZE_MOD) by (cbn [length] in Hlen; lia).
    assert (H2 : decode_one_byte (decode_one_byte (e_flag e)) <> 128)
      by now rewrite decode_decode.
    assert (H3 : decode_one_byte (decode_one_byte (Z.of_nat (length (e_name e))))
                 = Z.of_nat (length (encode (e_name e)))).
    { rewrite decode_decode by (unfold is_byte; lia). unfold encode. now rewrite length_fmap. }
    assert (H4 : length (encode (bytes_of_u32 (e_size e))) = 4%nat)
      by (unfold encode; now rewrite length_fmap).
    assert (H5 : length (encode (e_time e)) = 8%nat)
      by (unfold encode; now rewrite length_fmap).
    destruct (parse_record_step env s ps (length es + fuel) _ _ _ _ _ _
                Hm Hinv H1 Heof Hd H2 H3 H4 H5)
      as (s1 & p & Hstep & Hinv1 & Hpak1 & Hst1 & Hframe1 & Hw1).
    destruct (IH s1 (ps ++ [p]) fuel rest Hm Hinv1)
      as (s' & ps' & Hrun & Hinv' & Hpak' & Hst' & Hframe' & Hw').
    + rewrite length_app. cbn [length] in *. lia.
    + now rewrite Hpak1.
    + now rewrite Hpak1.
    + exact Hes.
    + exists s', (p :: ps'). split; [|split; [|split; [|split; [|split]]]].
      * cbn [length Nat.add]. now rewrite Hstep.
      * now rewrite <- app_assoc in Hinv'.
      * exact Hpak'.
      * cbn [fmap list_fmap]. constructor; [|exact Hst'].
        apply Hframe'. unfold record_of.
        rewrite !decode_encode in Hst1 by (assumption || apply bytes_of_u32_bytes).
        now rewrite u32_of_bytes_of_u32 in Hst1.
      * intros q r H. apply Hframe', Hframe1, H.
      * destruct Hw1 as (?&?&?&?&?&?&?), Hw' as (?&?&?&?&?&?&?).
        repeat split; congruence.
Qed.

(** The round of the loop that starts with nothing left to read and the
    indicator not yet set: [fread] stores nothing, so the flag that is
    tested is the byte the local variable happened to hold. *)
Lemma round_at_end_of_stream env s ps fuel :
  (forall n z, malloc_ok env n z = true) ->
  parser_inv s ps -> Z.of_nat (length ps) + 1 < SIZE_MOD ->
  st_pakFile s = mkFILE [] false ->
  if decode_one_byte (indet env 0) =? 128
  then parse_all_file_attrs (S (S fuel)) env s = Ret (tt, set_pakFile (mkFILE [] true) s)
  else
    exists s' p r,
      parse_all_file_attrs (S (S fuel)) env s = Ret (tt, s') /\
      parser_inv s' (ps ++ [p]) /\ stored s' p r /\
      (forall q r, stored s q r -> stored s' q r) /\ same_world s s' /\
      st_pakFile s' = mkFILE [] true.
Proof.
  intros Hm Hinv Hlen Hpak.
  pose proof (parse_round_flag env s ps (S fuel) Hm Hinv Hlen
                ltac:(now rewrite Hpak)) as Hround.
  cbv zeta in Hround. rewrite Hpak in Hround.
  change (fread 1 (fresh_bytes env 1) (mkFILE [] false))
    with ([indet env 0], 0, mkFILE [] true) in Hround.
  cbn [fst snd] in Hround.
  change ([indet env 0] !!! 0%nat) with (indet env 0) in Hround.
  destruct (decode_one_byte (indet env 0) =? 128); [exact Hround|].
  destruct Hround as (s4 & p & r & Hrun4 & Hinv4 & Hst4 & Hframe4 & Hw4 & [Hlen4 Heof4]).
  assert (Hpak4 : st_pakFile s4 = mkFILE [] true).
  { destruct (st_pakFile s4) as [d e]. cbn in Hlen4, Heof4.
    rewrite (Heof4 eq_refl). destruct d; [reflexivity | cbn in Hlen4; lia]. }
  exists s4, p, r.
  split; [|exact (conj Hinv4 (conj Hst4 (conj Hframe4 (conj Hw4 Hpak4))))].
  rewrite Hrun4. cbn [parse_all_file_attrs].
  now rewrite (bind_run _ _ s4 true s4) by (unfold gets; now rewrite Hpak4).
Qed.

(** Claim C7, where the code departs from it.  The list is append-only and
    its count is the number of its nodes: the records [rs0] it held stay
    at its front, and on a table closed by the end flag the walk from the
    head yields after them the declared records, in the order of the
    table.  On a table that ends with the input instead, the loop does not
    stop after the last declared record: it runs once more, its read
    stores nothing, and unless the byte left in [flag] decodes to 0x80 one
    record that the container never declared is appended, so that the
    count is one more than the number of declared records. *)
Theorem record_list_after_the_table env s ps rs0 es payload (terminated : bool) fuel :
  (forall n z, malloc_ok env n z = true) ->
  parser_inv s ps -> Forall2 (stored s) ps rs0 ->
  f_eof (st_pakFile s) = false ->
  f_data (st_pakFile s)
    = (if terminated then record_table es ++ payload else record_entries es) ->
  Forall entry_ok es ->
  Z.of_nat (length ps) + Z.of_nat (length es) + 1 < SIZE_MOD ->
  (length es + 2 <= fuel)%nat ->
  exists s' rs,
    parse_all_file_attrs fuel env s = Ret (tt, s') /\
    records_from (length ps + fuel) s' (fl_head (flist (st_header s'))) = Some rs /\
    fl_length (flist (st_header s')) = Z.of_nat (length rs) /\
    if terminated || (decode_one_byte (indet env 0) =? 128)
    then rs = rs0 ++ (record_of <$> es)
    else exists r, rs = rs0 ++ (record_of <$> es) ++ [r].
Proof.
  intros Hm Hinv Hrs0 Heof Hd Hok Hlen Hfuel.
  pose proof (Forall2_length _ _ _ Hrs0) as Hl0.
  destruct terminated.
  - destruct (parse_all_file_attrs_table env es s ps fuel payload Hm Hinv
                ltac:(lia) Heof Hd Hok ltac:(lia))
      as (s' & ps' & Hrun & Hinv' & _ & Hst' & Hframe & _).
    pose proof (Forall2_length _ _ _ Hst') as Hl'. rewrite length_fmap in Hl'.
    exists s', (rs0 ++ (record_of <$> es)). cbn [orb].
    split; [exact Hrun|]. destruct Hinv' as (_ & _ & Hc & _ & Hl & _).
    split; [|split; [|reflexivity]].
    + apply (records_from_chain s' (ps ++ ps')); [exact Hc| |rewrite length_app; lia].
      apply Forall2_app; [|exact Hst'].
      eapply Forall2_impl; [exact Hrs0|]. intros q r H. now apply Hframe.
    + rewrite Hl, size_wrap_small;
          [apply (f_equal Z.of_nat); rewrite !length_app, ?length_fmap; cbn [length]; lia
          |rewrite !length_app; cbn [length]; lia].
  - assert (Hf : exists k, fuel = (length es + S (S k))%nat)
      by (exists (fuel - length es - 2)%nat; lia).
    destruct Hf as [k ->].
    destruct (parse_all_file_attrs_entries env es s ps (S (S k)) [] Hm Hinv
                ltac:(lia) Heof ltac:(now rewrite app_nil_r) Hok)
      as (s3 & ps' & Hrun3 & Hinv3 & Hpak3 & Hst3 & Hframe3 & _).
    pose proof (Forall2_length _ _ _ Hst3) as Hl3. rewrite length_fmap in Hl3.
    assert (Hrs3 : Forall2 (stored s3) (ps ++ ps') (rs0 ++ (record_of <$> es))).
    { apply Forall2_app; [|exact Hst3].
      eapply Forall2_impl; [exact Hrs0|]. intros q r H. now apply Hframe3. }
    pose proof (round_at_end_of_stream env s3 (ps ++ ps') k Hm Hinv3
                  ltac:(rewrite length_app, Nat2Z.inj_add; lia) Hpak3) as Hround.
    cbn [orb].
    destruct (decode_one_byte (indet env 0) =? 128).
    + exists (set_pakFile (mkFILE [] true) s3), (rs0 ++ (record_of <$> es)).
      split; [now rewrite Hrun3|].
      destruct Hinv3 as (_ & _ & Hc & _ & Hl & _).
      split; [|split; [|reflexivity]].
      * apply (records_from_chain (set_pakFile (mkFILE [] true) s3) (ps ++ ps'));
          [exact Hc | exact Hrs3 | rewrite length_app; lia].
      * cbn [set_pakFile st_header].
        rewrite Hl, size_wrap_small;
          [apply (f_equal Z.of_nat); rewrite !length_app, ?length_fmap; cbn [length]; lia
          |rewrite !length_app; cbn [length]; lia].
    + destruct Hround as (s4 & p & r & Hrun4 & Hinv4 & Hst4 & Hframe4 & _ & _).
      exists s4, (rs0 ++ (record_of <$> es) ++ [r]).
      split; [now rewrite Hrun3|].
      destruct Hinv4 as (_ & _ & Hc & _ & Hl & _).
      split; [|split; [|eexists; reflexivity]].
      * apply (records_from_chain s4 ((ps ++ ps') ++ [p]));
          [exact Hc | | rewrite !length_app; cbn [length]; lia].
        replace (rs0 ++ (record_of <$> es) ++ [r]) with ((rs0 ++ (record_of <$> es)) ++ [r])
          by (now rewrite <- app_assoc).
        apply Forall2_app; [|repeat constructor; exact Hst4].
        eapply Forall2_impl; [exact Hrs3|]. intros q r0 H. now apply Hframe4.
      * rewrite Hl, size_wrap_small;
          [apply (f_equal Z.of_nat); rewrite !length_app, ?length_fmap; cbn [length]; lia
          |rewrite !length_app; cbn [length]; lia].
Qed.

Lemma record_list_after_the_table_witness :
  exists s' rs,
    parse_all_file_attrs 3 all_ok
      (session_before_table ∅ ∅ [0; 0; 0; 0] [0; 0; 0; 0] (record_entries [entry_a 5]))
      = Ret (tt, s') /\
    records_from 3 s' (fl_head (flist (st_header s'))) = Some rs /\
    fl_length (flist (st_header s')) = 2 /\
    exists r, rs = [([97; 0], 5, a_time); r].
Proof.
  destruct (record_list_after_the_table all_ok
              (session_before_table ∅ ∅ [0; 0; 0; 0] [0; 0; 0; 0] (record_entries [entry_a 5]))
              [] [] [entry_a 5] [] false 3)
    as (s' & rs & Hrun & Hrec & Hlen & r & Hrs).
  - intros n z. reflexivity.
  - apply session_before_table_inv.
  - constructor.
  - reflexivity.
  - reflexivity.
  - repeat constructor; try discriminate; vm_compute; congruence.
  - vm_compute. reflexivity.
  - simpl. lia.
  - exists s', rs. split; [exact Hrun|]. split; [exact Hrec|].
    split; [rewrite Hlen, Hrs; reflexivity | exists r; exact Hrs].
Defined.

(** X7: the round of the record loop that starts with the stream
    exhausted and the end-of-file indicator not yet set, as after the last
    entry of a table without its end flag.  [fread] reads nothing and the
    flag tested is an uninitialised byte: if it decodes to 0x80 the loop
    ends and the list is as it was; otherwise exactly one more node is
    appended, built from bytes that were never read from the file, and the
    loop then ends with the indicator set.  Nothing outside the pool and
    the stream changes. *)
Theorem exhausted_stream_gives_one_more_record env s ps fuel :
  (forall n z, malloc_ok env n z = true) ->
  parser_inv s ps -> Z.of_nat (length ps) + 1 < SIZE_MOD ->
  f_data (st_pakFile s) = [] -> f_eof (st_pakFile s) = false ->
  (2 <= fuel)%nat ->
  if decode_one_byte (indet env 0) =? 128
  then parse_all_file_attrs fuel env s = Ret (tt, set_pakFile (mkFILE [] true) s)
  else
    exists s' p r,
      parse_all_file_attrs fuel env s = Ret (tt, s') /\
      parser_inv s' (ps ++ [p]) /\ stored s' p r /\
      (forall q r, stored s q r -> stored s' q r) /\
      fl_length (flist (st_header s')) = Z.of_nat (length ps) + 1 /\
      st_pakFile s' = mkFILE [] true /\ same_world s s'.
Proof.
  intros Hm Hinv Hlen Hd Heof Hfuel.
  destruct fuel as [|[|fuel]]; [lia | lia |].
  assert (Hpak : st_pakFile s = mkFILE [] false).
  { destruct (st_pakFile s) as [d e]. cbn in Hd, Heof. now subst. }
  pose proof (round_at_end_of_stream env s ps fuel Hm Hinv Hlen Hpak) as Hround.
  destruct (decode_one_byte (indet env 0) =? 128); [exact Hround|].
  destruct Hround as (s' & p & r & Hrun & Hinv' & Hst & Hframe & Hw & Hpak').
  exists s', p, r.
  split; [exact Hrun|]. split; [exact Hinv'|]. split; [exact Hst|]. split; [exact Hframe|].
  split; [|exact (conj Hpak' Hw)].
  destruct Hinv' as (_ & _ & _ & _ & Hl & _).
  rewrite Hl, length_app. cbn [length]. rewrite Nat2Z.inj_add.
  apply size_wrap_small. lia.
Qed.

Lemma exhausted_stream_gives_one_more_record_witness :
  exists s' p r,
    parse_all_file_attrs 2 all_ok (session_before_table ∅ ∅ [0; 0; 0; 0] [0; 0; 0; 0] [])
      = Ret (tt, s') /\
    stored s' p r /\
    fl_length (flist (st_header s')) = 1 /\
    st_pakFile s' = mkFILE [] true.
Proof.
  destruct (exhausted_stream_gives_one_more_record all_ok
              (session_before_table ∅ ∅ [0; 0; 0; 0] [0; 0; 0; 0] []) [] 2)
    as (s' & p & r & Hrun & _ & Hst & _ & Hlen & Hpak & _).
  - intros n z. reflexivity.
  - apply session_before_table_inv.
  - vm_compute. reflexivity.
  - reflexivity.
  - reflexivity.
  - lia.
  - exists s', p, r. exact (conj Hrun (conj Hst (conj Hlen Hpak))).
Defined.


(** ** Two requests that wrap, and the name array *)

(** Claim C5, at the input where [arena_malloc] departs from it. The claim:
    [allocate(size)] serves the request from the first block, most recent
    first, with [capacity - used >= size], and creates a new block of
    capacity [max(defaultBlockSize, size)] when no block qualifies.
    After [allocate(8)] on a fresh pool of block size 8192 the only block has
    [used = 8]. A request of [2^64 - 4] bytes does not fit there, yet
    [used + size] wraps to 4, the test of the scan passes, and the request is
    served from that block at offset 8 with [used] set back to 4; the
    allocator of the specification creates a new block (or aborts when
    malloc fails). Where no sum wraps the two agree: [arena_malloc_refines]. *)
Theorem wrapped_request_is_served_from_a_full_block env :
  let arena := mkArena [mkBlock 8 8192] 8192 1 in
  let size := 2 ^ 64 - 4 in
  arena_malloc_all env (mkArena [mkBlock 0 8192] 8192 1) [8] = Ret ([((0%nat, 0), 8)], arena)
  /\ 0 <= size < SIZE_MOD
  /\ capacity (mkBlock 8 8192) - used (mkBlock 8 8192) < size
  /\ arena_malloc env arena size = Ret ((0%nat, 8), mkArena [mkBlock 4 8192] 8192 1)
  /\ spec_allocate env arena size =
       (if malloc_ok env 2%nat (size_wrap (sizeof_ArenaBlockHeader + size))
        then Ret ((1%nat, 0), [mkBlock size size; mkBlock 8 8192])
        else Aborted).
Proof.
  cbv zeta. repeat split; try reflexivity; vm_compute; congruence.
Qed.


(** Claim C6, at the input where the code departs from it. The claim: every
    pool operation keeps [used <= capacity] in every block, and so no two
    spans returned by [allocate] overlap and the total of [used] never
    exceeds the total of [capacity]. The invariant and the totals hold for
    every call ([arena_malloc_block_ok], [total_used_le_capacity]) and the
    spans are disjoint while no sum wraps ([arena_malloc_all_disjoint]); but
    the requests 8, 2^64 - 4 and 4 on a fresh pool return the spans that
    start at offsets 0, 8 and 4 of block 0, and the first and the third
    share the bytes 4..7. *)
Theorem wrapped_request_makes_spans_overlap env :
  let sizes := [8; 2 ^ 64 - 4; 4] in
  let spans := [((0%nat, 0), 8); ((0%nat, 8), 2 ^ 64 - 4); ((0%nat, 4), 4)] in
  Forall (fun z => 0 <= z < SIZE_MOD) sizes
  /\ arena_malloc_all env (mkArena [mkBlock 0 8192] 8192 1) sizes
       = Ret (spans, mkArena [mkBlock 8 8192] 8192 1)
  /\ spans_overlap ((0%nat, 0), 8) ((0%nat, 4), 4) = true
  /\ ~ pairwise_disjoint spans.
Proof.
  cbv zeta. split; [|split; [|split]].
  - repeat constructor; vm_compute; congruence.
  - reflexivity.
  - reflexivity.
  - intros [H _]. inversion H as [|? ? _ H']; subst.
    inversion H' as [|? ? Hov _]; subst. vm_compute in Hov. discriminate.
Qed.

Lemma arena_malloc_outcome env a size :
  match arena_malloc env a size with
  | Ret _ | Aborted => True
  | _ => False
  end.
Proof.
  unfold arena_malloc. destruct (arena_scan (head a) size) as [[p bl]|]; [exact I|].
  unfold arena_create_new_block.
  destruct (size <? blockSize a); destruct (malloc_ok _ _ _); exact I.
Qed.

Lemma parse_file_name_aborts env attr s byte rest :
  f_data (st_pakFile s) = byte :: rest ->
  arena_malloc env (st_arena s) (decode_one_byte byte + 1) = Aborted ->
  parse_file_name env attr s = Aborted.
Proof.
  intros Hd Hm. pose proof (decode_one_byte_range byte) as Hr.
  unfold parse_file_name, bind.
  rewrite (pak_fread_enough 1 _ _ [byte] rest Hd) by reflexivity.
  cbv beta iota. cbn [lookup_total list_lookup_total].
  rewrite (u32_wrap_small (decode_one_byte byte)) by (rewrite u32_mod_eq; lia).
  rewrite (u32_wrap_small (decode_one_byte byte + 1)) by (rewrite u32_mod_eq; lia).
  rewrite Z.mul_1_r. rewrite size_wrap_small by (rewrite size_mod_eq; lia).
  unfold res_arena_malloc. cbn [st_arena set_pakFile]. now rewrite Hm.
Qed.


(** Claim C9. For every decoded length [L] (0 included), [parse_file_name]
    takes exactly [L + 1] bytes from the pool, stores the terminator at
    index [L] and fills only the indices below [L] with decoded name bytes:
    the stored name is null-terminated inside its own allocation. When the
    pool cannot deliver, the process is aborted. *)
Theorem parse_file_name_terminates_its_allocation env attr s byte rest a :
  f_data (st_pakFile s) = byte :: rest ->
  st_attrs s !! attr = Some a ->
  let L := decode_one_byte byte in
  0 <= L <= 255 /\
  match arena_malloc env (st_arena s) (L + 1) with
  | Ret (p, arena') =>
      exists s' buf,
        parse_file_name env attr s = Ret (tt, s') /\
        st_arena s' = arena' /\
        fileName <$> st_attrs s' !! attr = Some p /\
        st_bufs s' !! p = Some buf /\
        Z.of_nat (length buf) = L + 1 /\
        buf !! Z.to_nat L = Some 0 /\
        (forall i, (i < Z.to_nat L)%nat -> (i < length rest)%nat ->
                   buf !! i = decode_one_byte <$> rest !! i)
  | Aborted => parse_file_name env attr s = Aborted
  | _ => False
  end.
Proof.
  intros Hd Ha L. pose proof (decode_one_byte_range byte) as Hr. fold L in Hr.
  split; [lia|].
  pose proof (arena_malloc_outcome env (st_arena s) (L + 1)) as Ho.
  destruct (arena_malloc env (st_arena s) (L + 1)) as [[p arena']| | |] eqn:E;
    try contradiction.
  - eexists _, (name_array env L rest).
    split; [exact (parse_file_name_run env attr s byte rest a p arena' Hd Ha E)|].
    cbn [st_arena st_attrs st_bufs]. rewrite !lookup_insert_eq. cbn.
    repeat split.
    + rewrite length_name_array by lia. lia.
    + apply name_array_terminated. lia.
    + intros i Hi Hi'. now apply name_array_char.
  - exact (parse_file_name_aborts env attr s byte rest Hd E).
Qed.


(** ** The copy loop *)

(** A record that declares more bytes than the stream still has keeps the
    copy loop going for ever: once the stream is empty [fread] returns 0,
    [WriteFile] of 0 bytes succeeds and [fileSize] stays where it is. *)
Lemma copy_payload_starved env h buf len : forall fuel fileSize s old,
  (forall have n, write_ok env h have n = true) ->
  Z.of_nat (length (f_data (st_pakFile s))) < fileSize < UINT32_MOD ->
  st_bufs s !! buf = Some old ->
  copy_payload fuel env h fileSize buf len s = OutOfFuel.
Proof.
  induction fuel as [|fuel IH]; intros fileSize s old Hw Hsz Hb; [reflexivity|].
  cbn [copy_payload].
  replace (0 <? fileSize) with true by (symmetry; apply Z.ltb_lt; lia).
  unfold bind at 1. unfold load_buf at 1. rewrite Hb.
  unfold bind at 1. unfold pak_fread at 1. unfold fread.
  set (n := if fileSize <? len then fileSize else len).
  set (got := take (Z.to_nat n) (f_data (st_pakFile s))).
  assert (Hgot : (length got <= length (f_data (st_pakFile s)))%nat)
    by (subst got; rewrite length_take; lia).
  assert (Hgot' : Z.of_nat (length got) <= fileSize).
  { subst got. rewrite length_take. subst n.
    destruct (Z.ltb_spec fileSize len); lia. }
  rewrite (u32_wrap_small (Z.of_nat (length got))) by (rewrite u32_mod_eq in *; lia).
  unfold bind at 1. unfold store_buf at 1, modify at 1.
  unfold bind at 1. unfold WriteFile at 1. rewrite Hw. cbn [negb].
  eapply IH; [exact Hw | | ].
  - cbn [st_pakFile set_files set_bufs set_pakFile f_data].
    rewrite u32_wrap_small by (rewrite u32_mod_eq in *; lia).
    rewrite length_drop. subst got. rewrite length_take in *. lia.
  - cbn [st_bufs set_files set_bufs]. apply lookup_insert_eq.
Qed.

Lemma create_parent_dirs_keeps_session env : forall todo done s r s',
  create_parent_dirs_from env done todo s = Ret (r, s') ->
  st_pakFile s' = st_pakFile s /\ st_bufs s' = st_bufs s.
Proof.
  induction todo as [|c todo IH]; intros done s r s'; cbn [create_parent_dirs_from].
  - intros H. inversion H; subst. auto.
  - destruct (c =? BACKSLASH); [|apply IH].
    unfold bind, is_dir_exist, gets.
    destruct (bool_decide _); [apply IH|].
    unfold CreateDirectory.
    destruct (_ || _ || _).
    + intros H. inversion H; subst. auto.
    + intros H. apply IH in H. exact H.
Qed.

Lemma CreateFile_keeps_session env p s h s' :
  CreateFile env p s = Ret (h, s') ->
  st_pakFile s' = st_pakFile s /\ st_bufs s' = st_bufs s.
Proof.
  unfold CreateFile. destruct (_ || _ || _); intros H; inversion H; subst; auto.
Qed.


(** Claim C1, where the code departs from it. The claim: when a record
    declares a [size] larger than the number of payload bytes left in the
    stream, the copy loop of that record terminates with an explicit error.
    In [parse_and_extract_one_file] it does not: once the destination is
    created and the writes succeed, no amount of fuel lets the call return,
    because [fread] delivers 0 bytes at the end of the stream and
    [fileSize -= readLen] makes no progress. *)
Theorem truncated_record_copy_never_returns fuel env attr extractPath buf len
    s a name old shown s1 h s2 :
  st_attrs s !! attr = Some a ->
  st_bufs s !! fileName a = Some name ->
  st_bufs s !! buf = Some old ->
  let stored := build_complete_path (stray_byte env) extractPath name in
  Z.of_nat (length stored) <= MAX_PATH ->
  recursive_create_parent_dirs env (cstring stored) s = Ret ((true, shown), s1) ->
  CreateFile env (cstring stored) s1 = Ret (Some h, s2) ->
  (forall have n, write_ok env h have n = true) ->
  Z.of_nat (length (f_data (st_pakFile s))) < fileSize a < UINT32_MOD ->
  parse_and_extract_one_file fuel env attr extractPath buf len s = OutOfFuel.
Proof.
  intros Ha Hn Hb stored Hfit Hdirs Hcreate Hw Hsz.
  destruct (create_parent_dirs_keeps_session _ _ _ _ _ _ Hdirs) as [Hp1 Hb1].
  destruct (CreateFile_keeps_session _ _ _ _ _ Hcreate) as [Hp2 Hb2].
  unfold parse_and_extract_one_file.
  rewrite (bind_run _ _ s a s) by (unfold load_attr; now rewrite Ha).
  rewrite (bind_run _ _ s name s) by (unfold load_buf; now rewrite Hn).
  fold stored.
  replace (MAX_PATH <? Z.of_nat (length stored)) with false
    by (symmetry; apply Z.ltb_ge; lia).
  rewrite (bind_run _ _ _ _ _ Hdirs). cbn [negb].
  rewrite (bind_run _ _ _ _ _ Hcreate).
  unfold bind.
  rewrite (copy_payload_starved env h buf len fuel (fileSize a) s2 old Hw);
    [reflexivity | | ].
  - rewrite Hp2, Hp1. exact Hsz.
  - rewrite Hb2, Hb1. exact Hb.
Qed.


(** ** Runs on concrete containers *)

(** Claim C3, at an input where the code departs from it. The claim: a
    record whose destination cannot be created is skipped, and every other
    record still gets a file whose content is that record's decoded payload.
    The container declares [a], [a], [b], one byte each, with the payloads
    X, Y, Z. The second [a] cannot be created (the file exists) and is
    skipped with an error; its payload byte stays in the stream, and the
    file of [b] receives Y instead of Z. *)
Theorem skipped_record_shifts_later_payloads :
  let es := [entry_a 1; entry_a 1; entry_b 1] in
  let payloads := [88; 89; 90] in
  let files : gmap path (list Z) := {[ [112] := container es payloads ]} in
  exists s',
    main 8 all_ok argv_x_p_out (initial_state all_ok ∅ files) = Ret (0, s') /\
    st_stderr s' = [ErrCreateFile out_a] /\
    declared_payloads es (encode payloads) = [[88]; [89]; [90]] /\
    st_files s' !! out_a = Some [88] /\
    st_files s' !! out_b = Some [89].
Proof.
  cbv zeta. eexists. split; [vm_compute; reflexivity|].
  repeat split; vm_compute; reflexivity.
Qed.


(** Claim C8 as stated fails: the argument count is right, the extraction
    directory does not exist, pool, container and list are set up, and yet
    the process does not exit with code 0: malloc fails for the block of the
    working buffer and [abort()] ends the run. *)
Lemma abort_is_neither_exit_code :
  let files : gmap path (list Z) := {[ [112] := container [entry_a 1] [88] ]} in
  refuses (out_of_memory_at 2) argv_x_p_out ∅ files = false /\
  main 8 (out_of_memory_at 2) argv_x_p_out (initial_state (out_of_memory_at 2) ∅ files)
    = Aborted.
Proof. cbv zeta. split; vm_compute; reflexivity. Qed.


(** Claim C2 as stated fails: in this container the byte that the loop tests
    against 0x80 decodes to 0, and the name that is parsed has one
    character: its length is the decoded value, 1, of the byte that follows. *)
Lemma length_byte_is_not_the_flag_byte :
  let bytes := container [entry_a 5] [] in
  let files : gmap path (list Z) := {[ [112] := bytes ]} in
  exists s1 s2,
    resource_init all_ok [112] filenames_txt (initial_state all_ok ∅ files) = Ret (true, s1) /\
    bind pak_header_init (fun _ => parse_pak_header 3 all_ok) s1 = Ret (tt, s2) /\
    decode_one_byte (bytes !!! 8%nat) = 0 /\
    decode_one_byte (bytes !!! 9%nat) = 1 /\
    records_from 3 s2 (fl_head (flist (st_header s2))) = Some [([97; 0], 5, a_time)].
Proof.
  cbv zeta. eexists _, _. split; [vm_compute; reflexivity|].
  split; [vm_compute; reflexivity|]. repeat split; vm_compute; reflexivity.
Qed.


(** ** The session *)

Lemma bind_exits_0 {A} (m : M A) (k : A -> M Z) s :
  (forall a s', exits_0 (k a s')) -> exits_0 (bind m k s).
Proof. intros H. unfold bind. destruct (m s) as [[a s']| | |]; simpl; auto. Qed.


(** Claim C2, amended. In the record-table loop the parser reads and decodes
    one flag byte per iteration. If it is 0x80 the loop is done, with exactly
    that byte consumed. Otherwise a second byte is read and decoded as the
    name length [L], with [0 <= L <= 255]; the next [L] bytes are read and
    decoded as the name, then 4 bytes of size and 8 bytes of time, and the
    record is appended to the list. *)
Theorem record_loop_reads_flag_then_length env s ps fuel fb tail :
  f_eof (st_pakFile s) = false ->
  f_data (st_pakFile s) = fb :: tail ->
  if decode_one_byte fb =? 128
  then parse_all_file_attrs (S fuel) env s = Ret (tt, set_pakFile (mkFILE tail false) s)
  else
    forall lb nb sb tb rest,
      tail = lb :: nb ++ sb ++ tb ++ rest ->
      Z.of_nat (length nb) = decode_one_byte lb ->
      length sb = 4%nat -> length tb = 8%nat ->
      (forall n z, malloc_ok env n z = true) ->
      parser_inv s ps -> Z.of_nat (length ps) + 1 < SIZE_MOD ->
      0 <= decode_one_byte lb <= 255 /\
      exists s1 p,
        parse_all_file_attrs (S fuel) env s = parse_all_file_attrs fuel env s1 /\
        st_pakFile s1 = mkFILE rest false /\
        flist_holds s1 (ps ++ [p]) /\
        stored s1 p ((decode_one_byte <$> nb) ++ [0],
                     u32_of_bytes (decode_one_byte <$> sb), decode_one_byte <$> tb).
Proof.
  intros Heof Hd. destruct (Z.eqb_spec (decode_one_byte fb) 128) as [Hend|Hrec].
  - cbn [parse_all_file_attrs].
    rewrite (bind_run _ _ s false s) by (unfold gets; now rewrite Heof).
    cbv beta iota.
    rewrite (bind_run _ _ s true (set_pakFile (mkFILE tail false) s)); [reflexivity|].
    rewrite (reach_pak_header_end_run env s fb tail Hd).
    rewrite Heof. now replace (decode_one_byte fb =? 128) with true by (symmetry; now apply Z.eqb_eq).
  - intros lb nb sb tb rest -> Hlb Hsb Htb Hm Hinv Hlen.
    pose proof (decode_one_byte_range lb). split; [lia|].
    destruct (parse_record_step env s ps fuel fb lb nb sb tb rest Hm Hinv Hlen Heof Hd Hrec
                (eq_sym Hlb) Hsb Htb)
      as (s1 & p & Hstep & (_ & _ & Hfl) & Hpak & Hst & _ & _).
    exists s1, p. auto.
Qed.

Lemma same_session_refl s : same_session s s.
Proof. repeat split. Qed.

Lemma same_session_trans s1 s2 s3 :
  same_session s1 s2 -> same_session s2 s3 -> same_session s1 s3.
Proof.
  intros (?&?&?&?&?) (?&?&?&?&?). repeat split; congruence.
Qed.

Lemma create_parent_dirs_same_session env : forall todo done s r s',
  create_parent_dirs_from env done todo s = Ret (r, s') -> same_session s s'.
Proof.
  induction todo as [|c todo IH]; intros done s r s'; cbn [create_parent_dirs_from].
  - intros H. inversion H; subst. apply same_session_refl.
  - destruct (c =? BACKSLASH); [|apply IH].
    unfold bind, is_dir_exist, gets.
    destruct (bool_decide _); [apply IH|].
    unfold CreateDirectory.
    destruct (_ || _ || _).
    + intros H. inversion H; subst. apply same_session_refl.
    + intros H. apply IH in H. eapply same_session_trans; [|exact H]. repeat split.
Qed.

Lemma create_parent_dirs_returns env : forall todo done s,
  exists r s', create_parent_dirs_from env done todo s = Ret (r, s').
Proof.
  induction todo as [|c todo IH]; intros done s; cbn [create_parent_dirs_from].
  - eauto.
  - destruct (c =? BACKSLASH); [|apply IH].
    unfold bind, is_dir_exist, gets.
    destruct (bool_decide _); [apply IH|].
    unfold CreateDirectory.
    destruct (_ || _ || _); [eauto | apply IH].
Qed.

Lemma CreateFile_same_session env p s h s' :
  CreateFile env p s = Ret (h, s') -> same_session s s'.
Proof.
  unfold CreateFile. destruct (_ || _ || _); intros H; inversion H; subst; repeat split.
Qed.

Lemma CreateFile_returns env p s : exists h s', CreateFile env p s = Ret (h, s').
Proof. unfold CreateFile. destruct (_ || _ || _); eauto. Qed.

(** With the payload in the stream the copy loop returns: every round
    reads at least one byte. *)
Lemma copy_payload_returns env h buf len : forall fuel fileSize s,
  0 < len ->
  0 <= fileSize < UINT32_MOD ->
  fileSize <= Z.of_nat (length (f_data (st_pakFile s))) ->
  (Z.to_nat fileSize < fuel)%nat ->
  is_Some (st_bufs s !! buf) ->
  exists b s', copy_payload fuel env h fileSize buf len s = Ret (b, s') /\
               after_copy buf fileSize s s'.
Proof.
  induction fuel as [|fuel IH]; intros fileSize s Hlen Hsz Hdata Hfuel [old Hb]; [lia|].
  cbn [copy_payload]. destruct (Z.ltb_spec 0 fileSize) as [Hpos|Hzero].
  2:{ exists true, s. split; [reflexivity|]. repeat split; eauto; lia. }
  unfold bind at 1. unfold load_buf at 1. rewrite Hb.
  unfold bind at 1. unfold pak_fread at 1. unfold fread.
  set (n := if fileSize <? len then fileSize else len).
  assert (Hn : 0 < n <= fileSize) by (subst n; destruct (Z.ltb_spec fileSize len); lia).
  set (got := take (Z.to_nat n) (f_data (st_pakFile s))).
  assert (Hgot : Z.of_nat (length got) = n) by (subst got; rewrite length_take; lia).
  rewrite Hgot. rewrite (u32_wrap_small n) by lia.
  unfold bind at 1. unfold store_buf at 1, modify at 1.
  unfold bind at 1. unfold WriteFile at 1.
  destruct (write_ok env h _ _); cbn [negb].
  - rewrite u32_wrap_small by lia.
    match goal with
    | |- exists b s', copy_payload _ _ _ _ _ _ ?s1 = _ /\ _ =>
        destruct (IH (fileSize - n) s1) as (b & s' & Hrun & Hafter)
    end.
    + exact Hlen.
    + lia.
    + cbn [st_pakFile set_files set_bufs set_pakFile f_data]. rewrite length_drop. lia.
    + lia.
    + cbn [st_bufs set_files set_bufs]. rewrite lookup_insert_eq. eauto.
    + exists b, s'. split; [exact Hrun|].
      destruct Hafter as (Ha & Hh & Hat & Hbufs & Hbuf & Hd & Hd').
      cbn [st_arena st_header st_attrs st_bufs st_pakFile set_files set_bufs set_pakFile
           f_data] in *.
      repeat split; try assumption.
      * intros q Hq. rewrite (Hbufs q Hq). apply lookup_insert_ne. congruence.
      * rewrite length_drop in Hd. lia.
      * rewrite length_drop in Hd'. lia.
  - unfold bind, eprint, modify, ret. eexists _, _. split; [reflexivity|].
    unfold after_copy.
    cbn [st_arena st_header st_attrs st_bufs st_pakFile set_stderr set_bufs set_pakFile f_data].
    split; [reflexivity|]. split; [reflexivity|]. split; [reflexivity|].
    split; [|split; [|split]].
    + intros q Hq. apply lookup_insert_ne. congruence.
    + rewrite lookup_insert_eq. eauto.
    + rewrite length_drop. lia.
    + rewrite length_drop. lia.
Qed.

Lemma after_copy_same_session buf size s s' :
  0 <= size -> is_Some (st_bufs s !! buf) -> same_session s s' -> after_copy buf size s s'.
Proof.
  intros Hs Hb (Ha & Hp & Hh & Hat & Hbf). unfold after_copy.
  rewrite Ha, Hp, Hh, Hat, Hbf. repeat split; auto; lia.
Qed.

Lemma same_session_after_copy buf size s s1 s2 :
  same_session s s1 -> after_copy buf size s1 s2 -> after_copy buf size s s2.
Proof.
  intros (Ha & Hp & Hh & Hat & Hbf). unfold after_copy.
  now rewrite Ha, Hp, Hh, Hat, Hbf.
Qed.

Lemma after_copy_then_same_session buf size s s1 s2 :
  after_copy buf size s s1 -> same_session s1 s2 -> after_copy buf size s s2.
Proof.
  intros H (Ha & Hp & Hh & Hat & Hbf). unfold after_copy in *.
  now rewrite Ha, Hp, Hh, Hat, Hbf.
Qed.

(** With its payload in the stream and a destination that fits the path
    array, the extraction of one record returns, whatever the file system
    answers. *)
Lemma parse_and_extract_one_file_returns fuel env attr root buf len s a name :
  0 < len ->
  st_attrs s !! attr = Some a -> st_bufs s !! fileName a = Some name ->
  is_Some (st_bufs s !! buf) ->
  0 <= fileSize a < UINT32_MOD ->
  fileSize a <= Z.of_nat (length (f_data (st_pakFile s))) ->
  (Z.to_nat (fileSize a) < fuel)%nat ->
  Z.of_nat (length (build_complete_path (stray_byte env) root name)) <= MAX_PATH ->
  exists s', parse_and_extract_one_file fuel env attr root buf len s = Ret (tt, s') /\
             after_copy buf (fileSize a) s s'.
Proof.
  intros Hlen Ha Hn Hb Hsz Hdata Hfuel Hfit.
  unfold parse_and_extract_one_file.
  rewrite (bind_run _ _ s a s) by (unfold load_attr; now rewrite Ha).
  rewrite (bind_run _ _ s name s) by (unfold load_buf; now rewrite Hn).
  replace (MAX_PATH <? _) with false by (symmetry; apply Z.ltb_ge; lia).
  set (dest := cstring (build_complete_path (stray_byte env) root name)).
  destruct (create_parent_dirs_returns env dest [] s) as ([ok shown] & s1 & Hdirs).
  pose proof (create_parent_dirs_same_session _ _ _ _ _ _ Hdirs) as H1.
  unfold recursive_create_parent_dirs. rewrite (bind_run _ _ _ _ _ Hdirs).
  destruct ok; cbn [negb].
  2:{ eexists. split; [reflexivity|]. apply after_copy_same_session; [lia | exact Hb |].
      eapply same_session_trans; [exact H1|]. repeat split. }
  destruct (CreateFile_returns env dest s1) as (h & s2 & Hcreate).
  pose proof (CreateFile_same_session _ _ _ _ _ Hcreate) as H2.
  pose proof (same_session_trans _ _ _ H1 H2) as H12.
  rewrite (bind_run _ _ _ _ _ Hcreate).
  destruct h as [h|].
  2:{ eexists. split; [reflexivity|]. apply after_copy_same_session; [lia | exact Hb |].
      eapply same_session_trans; [exact H12|]. repeat split. }
  destruct H12 as (E1 & E2 & E3 & E4 & E5).
  destruct (copy_payload_returns env h buf len fuel (fileSize a) s2 Hlen Hsz)
    as (b & s3 & Hcopy & Hafter); [now rewrite E2 | exact Hfuel | now rewrite E5 |].
  assert (Hafter' : after_copy buf (fileSize a) s s3).
  { eapply same_session_after_copy; [|exact Hafter]. repeat split; assumption. }
  rewrite (bind_run _ _ _ _ _ Hcopy).
  destruct b.
  - unfold bind, SetFileTime. destruct (settime_ok env h); cbn [negb].
    + eexists. split; [reflexivity|].
      eapply after_copy_then_same_session; [exact Hafter'|]. repeat split.
    + eexists. split; [reflexivity|].
      eapply after_copy_then_same_session; [exact Hafter'|]. repeat split.
  - eexists. split; [reflexivity|]. exact Hafter'.
Qed.

Lemma save_file_name_list_from_returns ps : forall rs h fuel s,
  chain (st_attrs s) h ps -> Forall2 (stored s) ps rs -> (length ps <= fuel)%nat ->
  exists l, save_file_name_list_from fuel h s = Ret (tt, set_list l s).
Proof.
  induction ps as [|p ps IH]; intros rs h fuel s Hc Hs Hf.
  - simpl in Hc. subst h. exists (st_list s). destruct fuel, s; reflexivity.
  - destruct Hc as (-> & a & Ha & Hc). inversion Hs as [|? r ? rs' Hp Hrest]; subst.
    destruct fuel as [|fuel]; [simpl in Hf; lia|].
    destruct Hp as (a' & Ha' & Hb & _). assert (a' = a) as -> by congruence.
    cbn [save_file_name_list_from].
    rewrite (bind_run _ _ s a s) by (unfold load_attr; now rewrite Ha).
    rewrite (bind_run _ _ s r.1.1 s) by (unfold load_buf; now rewrite Hb).
    unfold bind at 1, modify at 1.
    destruct (IH rs' (next a) fuel (set_list (st_list s ++ [(cstring r.1.1, fileSize a)]) s))
      as (l & Hl); [exact Hc | exact Hrest | simpl in Hf; lia |].
    rewrite Hl. exists l. reflexivity.
Qed.

Lemma stored_after_copy buf size s s' p r :
  after_copy buf size s s' ->
  (forall a, st_attrs s !! p = Some a -> fileName a <> buf) ->
  stored s p r -> stored s' p r.
Proof.
  intros (_ & _ & Hat & Hbufs & _) Hne (a & Ha & Hb & Hsz & Htm).
  exists a. rewrite Hat. repeat split; try assumption.
  rewrite Hbufs; [exact Hb | exact (Hne a Ha)].
Qed.

Lemma Forall2_stored_after_copy buf size s s' ps rs :
  after_copy buf size s s' ->
  (forall p a, p ∈ ps -> st_attrs s !! p = Some a -> fileName a <> buf) ->
  Forall2 (stored s) ps rs -> Forall2 (stored s') ps rs.
Proof.
  intros Hafter Hne H. induction H as [|p r ps rs Hp _ IH]; constructor.
  - eapply stored_after_copy; [exact Hafter | | exact Hp].
    intros a Ha. apply (Hne p a); [left | exact Ha].
  - apply IH. intros q a Hq. apply Hne. now right.
Qed.

(** With all payloads in the stream, the loop of [extract_files] returns. *)
Lemma extract_files_from_returns env root buf len ps : forall rs h fuel s,
  0 < len ->
  chain (st_attrs s) h ps -> Forall2 (stored s) ps rs ->
  (forall p a, p ∈ ps -> st_attrs s !! p = Some a -> fileName a <> buf) ->
  is_Some (st_bufs s !! buf) ->
  Forall (extractable env root) rs ->
  total_size rs <= Z.of_nat (length (f_data (st_pakFile s))) ->
  (length ps + length (f_data (st_pakFile s)) < fuel)%nat ->
  exists s', extract_files_from fuel env h root buf len s = Ret (tt, s').
Proof.
  induction ps as [|p ps IH]; intros rs h fuel s Hlen Hc Hs Hne Hb Hex Htot Hfuel.
  - simpl in Hc. subst h. exists s. now destruct fuel.
  - destruct Hc as (-> & a & Ha & Hc). inversion Hs as [|? r ? rs' Hp Hrest]; subst.
    inversion Hex as [|? ? [Hr1 Hr2] Hex']; subst.
    destruct fuel as [|fuel]; [simpl in Hfuel; lia|].
    pose proof Hp as (a' & Ha' & Hbn & Hsz & Htm). assert (a' = a) as -> by congruence.
    assert (Hrest_nonneg : 0 <= total_size rs').
    { clear -Hex'. induction Hex' as [|r' rs'' [[H0 _] _] _ IH']; simpl; [lia|].
      unfold total_size in *. simpl. lia. }
    unfold total_size in Htot. simpl in Htot. fold (total_size rs') in Htot.
    cbn [extract_files_from].
    assert (F1 : 0 <= fileSize a < UINT32_MOD) by (rewrite Hsz; lia).
    assert (F2 : fileSize a <= Z.of_nat (length (f_data (st_pakFile s)))) by (rewrite Hsz; lia).
    assert (F3 : (Z.to_nat (fileSize a) < S fuel)%nat) by (simpl in Hfuel; lia).
    destruct (parse_and_extract_one_file_returns (S fuel) env p root buf len s a r.1.1
                Hlen Ha Hbn Hb F1 F2 F3 Hr2) as (s1 & Hrun & Hafter).
    rewrite (bind_run _ _ _ _ _ Hrun).
    pose proof Hafter as (_ & _ & Hat & _ & Hb1 & Hd & Hd').
    rewrite (bind_run _ _ s1 a s1) by (unfold load_attr; now rewrite Hat, Ha).
    apply (IH rs' (next a) fuel s1 Hlen).
    + now rewrite Hat.
    + eapply Forall2_stored_after_copy; [exact Hafter | | exact Hrest].
      intros q aq Hq Haq. apply (Hne q aq); [now right | exact Haq].
    + intros q aq Hq Haq. rewrite Hat in Haq. apply (Hne q aq); [now right | exact Haq].
    + exact Hb1.
    + exact Hex'.
    + rewrite Hsz in Hd. lia.
    + simpl in Hfuel. lia.
Qed.

Lemma total_size_records es : total_size (record_of <$> es) = declared_size es.
Proof.
  unfold total_size, declared_size. induction es as [|e es IH]; [reflexivity|].
  cbn [fmap list_fmap foldr]. cbn [fmap] in IH. now rewrite IH.
Qed.

Lemma Forall2_stored_elem s ps rs p :
  Forall2 (stored s) ps rs -> p ∈ ps -> exists r, stored s p r.
Proof.
  induction 1 as [|q r ps rs Hq _ IH]; intros Hp; [inversion Hp|].
  apply elem_of_cons in Hp as [->|Hp]; eauto.
Qed.

(** A complete container is extracted to the end: with its table well
    formed, all declared payload bytes in the stream and destinations that
    fit the path array, [main] returns 0 when malloc and the open calls
    succeed, whatever happens to the single records. *)
Lemma main_returns_0_on_complete_container env prog pak root dirs files mg vs es payload fuel :
  (forall n z, malloc_ok env n z = true) -> fopen_w_ok env filenames_txt = true ->
  root ∉ dirs ->
  files !! pak = Some (mg ++ vs ++ record_table es ++ payload) ->
  length mg = 4%nat -> length vs = 4%nat ->
  Forall entry_ok es -> Z.of_nat (length es) < SIZE_MOD ->
  Forall (path_fits env root) es ->
  declared_size es <= Z.of_nat (length payload) ->
  (length es + length payload < fuel)%nat ->
  exists s', main fuel env [prog; pak; root] (initial_state env dirs files) = Ret (0, s').
Proof.
  intros Hm Hw Hroot Hpak Hmg Hvs Hok Hlen Hfits Hsize Hfuel.
  destruct (session_parses_table env dirs files pak mg vs es payload fuel
              Hm Hw Hmg Hvs Hok Hlen ltac:(lia) Hpak)
    as (s1 & s1' & s2 & ps & Hinit & Hhdr & Hparse & (Hsmall & [Hha Hhb] & Hfl) & Hst & Hpak2 & _).
  destruct Hfl as (Hc & _).
  pose proof (Forall2_length _ _ _ Hst) as Hlps. rewrite length_fmap in Hlps.
  unfold main. cbn [length lookup_total list_lookup_total].
  change (negb (Z.of_nat 3 =? 3)) with false. cbv iota.
  rewrite (bind_run _ _ _ false (initial_state env dirs files)).
  2:{ unfold is_dir_exist, gets. cbn [st_dirs initial_state].
      now rewrite bool_decide_eq_false_2. }
  cbv beta iota.
  rewrite (bind_run _ _ _ _ _ Hinit). cbn [negb].
  rewrite (bind_run _ _ _ _ _ Hhdr).
  rewrite (bind_run _ _ _ _ _ Hparse).
  (* the list of names *)
  destruct (save_file_name_list_from_returns ps (record_of <$> es)
              (fl_head (flist (st_header s2))) fuel s2 Hc Hst ltac:(lia)) as (l & Hsave).
  rewrite (bind_run _ _ s2 tt (set_list l s2)).
  2:{ unfold save_file_name_list. now rewrite (bind_run _ _ s2 (st_header s2) s2). }
  (* the working buffer *)
  set (s3 := set_list l s2).
  destruct (arena_malloc_returns env (st_arena s2) (size_wrap (8192 * 1)) Hm)
    as (buf & a' & Hbuf).
  assert (Hsz : 0 < size_wrap (8192 * 1) < 2 ^ 63) by (vm_compute; split; reflexivity).
  destruct (allocated_new _ _ _ _ _ Hsmall Hsz Hbuf) as [_ Hfresh].
  set (s4 := set_bufs (<[buf := fresh_bytes env 8192]> (st_bufs s3)) (set_arena a' s3)).
  destruct (extract_files_from_returns env (root ++ [0]) buf 8192 ps (record_of <$> es)
              (fl_head (flist (st_header s2))) fuel s4) as (s5 & Hextract).
  - lia.
  - exact Hc.
  - eapply Forall2_impl; [exact Hst|]. intros p r (a & Ha & Hb & Hrest).
    exists a. split; [exact Ha|]. split; [|exact Hrest].
    cbn [s4 s3 st_bufs set_bufs set_list set_arena]. rewrite lookup_insert_ne; [exact Hb|].
    intros Heq. apply Hfresh. rewrite Heq. apply Hhb. eauto.
  - intros p a Hp Ha Heq. apply Hfresh. rewrite <- Heq.
    destruct (Forall2_stored_elem _ _ _ _ Hst Hp) as (r & a0 & Ha0 & Hb0 & _).
    cbn in Ha. apply Hhb. assert (a0 = a) as -> by congruence. eauto.
  - cbn [s4 st_bufs set_bufs]. rewrite lookup_insert_eq. eauto.
  - rewrite Forall_fmap. clear -Hok Hfits.
    induction Hok as [|e es (_ & _ & _ & _ & He & _) _ IH]; [constructor|].
    inversion Hfits; subst. constructor; [split; assumption | now apply IH].
  - cbn [s4 s3 st_pakFile set_bufs set_list set_arena]. rewrite Hpak2. cbn [f_data].
    rewrite total_size_records. exact Hsize.
  - cbn [s4 s3 st_pakFile set_bufs set_list set_arena]. rewrite Hpak2. cbn [f_data]. lia.
  - exists s5.
    assert (Hall : extract_files fuel env (root ++ [0]) s3 = Ret (tt, s5)).
    { unfold extract_files.
      rewrite (bind_run _ _ s3 (st_header s2) s3) by reflexivity.
      rewrite (bind_run _ _ s3 buf (set_arena a' s3)).
      2:{ unfold res_arena_malloc. cbn [s3 st_arena set_list]. now rewrite Hbuf. }
      rewrite (bind_run _ _ _ tt s4) by reflexivity.
      exact Hextract. }
    now rewrite (bind_run _ _ _ _ _ Hall).
Qed.

(** Claim C8, amended. Whenever [main] returns, it returns 1 exactly when the
    argument count is wrong, the extraction directory exists, or pool,
    container or list file cannot be set up, and then the state of the file
    system and of the session is untouched; in every other run that returns
    it returns 0, even if records were skipped. A run that does not return
    (ended by [abort()], by a path that overflows its array, or still in a
    copy loop) is never one of the refused runs. And the run does return 0
    whenever malloc succeeds, the table is well formed, all declared payload
    bytes are in the stream and the destinations fit the path array. *)
Theorem exit_code_of_main env dirs files :
  (forall fuel argv,
     match main fuel env argv (initial_state env dirs files) with
     | Ret (code, s') =>
         if refuses env argv dirs files
         then code = 1 /\ s' = initial_state env dirs files
         else code = 0
     | _ => refuses env argv dirs files = false
     end) /\
  (forall fuel prog pak root mg vs es payload,
     (forall n z, malloc_ok env n z = true) -> fopen_w_ok env filenames_txt = true ->
     root ∉ dirs ->
     files !! pak = Some (mg ++ vs ++ record_table es ++ payload) ->
     length mg = 4%nat -> length vs = 4%nat ->
     Forall entry_ok es -> Z.of_nat (length es) < SIZE_MOD ->
     Forall (path_fits env root) es ->
     declared_size es <= Z.of_nat (length payload) ->
     (length es + length payload < fuel)%nat ->
     exists s', main fuel env [prog; pak; root] (initial_state env dirs files) = Ret (0, s')).
Proof.
  split; [|intros fuel prog pak root mg vs es payload;
            apply main_returns_0_on_complete_container].
  intros fuel argv.
  set (s0 := initial_state env dirs files).
  unfold main, refuses.
  destruct (Z.of_nat (length argv) =? 3); cbn [negb orb]; [|now split].
  unfold bind at 1, is_dir_exist, gets. change (st_dirs s0) with dirs.
  destruct (bool_decide (argv !!! 2%nat ∈ dirs)); cbn [orb]; [now split|].
  unfold bind at 1, resource_init, arena_create.
  destruct (malloc_ok env 0%nat sizeof_ArenaAllocator); cbn [negb andb orb]; [|now split].
  destruct (malloc_ok env 1%nat _); cbn [negb andb orb]; [|now split].
  unfold bind at 1, gets. change (st_files s0) with files.
  destruct (files !! (argv !!! 1%nat)) as [bytes|] eqn:Epak.
  2:{ rewrite bool_decide_eq_true_2 by reflexivity. now split. }
  rewrite bool_decide_eq_false_2 by discriminate. cbn [orb].
  destruct (fopen_w_ok env filenames_txt); cbn [negb]; [|now split].
  cbv beta iota.
  match goal with
  | |- match ?r with _ => _ end =>
      assert (H : exits_0 r) by (repeat (apply bind_exits_0; intros); reflexivity);
      destruct r as [[code s']| | |]; [exact H | reflexivity ..]
  end.
Qed.

(** *** More fuel does not change a result *)

Lemma bind_mono {A B} (m : M A) (k1 k2 : A -> M B) s r :
  (forall a s', k1 a s' = Ret r -> k2 a s' = Ret r) ->
  bind m k1 s = Ret r -> bind m k2 s = Ret r.
Proof. unfold bind. destruct (m s) as [[a s']| | |]; auto. Qed.

Lemma parse_all_file_attrs_more_fuel env : forall fuel s r,
  parse_all_file_attrs fuel env s = Ret r -> parse_all_file_attrs (S fuel) env s = Ret r.
Proof.
  induction fuel as [|fuel IH]; intros s r H; [discriminate|].
  change (parse_all_file_attrs (S (S fuel)) env s) with
    ((let* eof := gets (fun s => f_eof (st_pakFile s)) in
      if eof then ret tt
      else
        let* stop := reach_pak_header_end env in
        if stop then ret tt
        else
          let* attr := res_arena_malloc env sizeof_FileAttr in
          let* _ := store_attr attr (fresh_attr env) in
          let* _ := parse_file_name env attr in
          let* _ := parse_file_size attr in
          let* _ := parse_file_last_write_time attr in
          let* _ := file_attr_list_add attr in
          parse_all_file_attrs (S fuel) env) s).
  cbn [parse_all_file_attrs] in H. revert H.
  apply bind_mono. intros [] s1; [auto|].
  apply bind_mono. intros [] s2; [auto|].
  do 6 (apply bind_mono; intros ? ?). apply IH.
Qed.

Lemma parse_pak_header_more_fuel env fuel k s r :
  parse_pak_header fuel env s = Ret r -> parse_pak_header (k + fuel) env s = Ret r.
Proof.
  unfold parse_pak_header. do 2 (apply bind_mono; intros ? ?).
  induction k as [|k IH]; [auto|]. intros H. apply parse_all_file_attrs_more_fuel. auto.
Qed.

Lemma save_file_name_list_from_more_fuel : forall fuel h s r,
  save_file_name_list_from fuel h s = Ret r -> save_file_name_list_from (S fuel) h s = Ret r.
Proof.
  induction fuel as [|fuel IH]; intros h s r H.
  - destruct h; [discriminate|]. exact H.
  - destruct h as [p|]; [|exact H].
    change (save_file_name_list_from (S (S fuel)) (Some p) s) with
      ((let* a := load_attr p in
        let* name := load_buf (fileName a) in
        let* _ := modify (fun s => set_list (st_list s ++ [(cstring name, fileSize a)]) s) in
        save_file_name_list_from (S fuel) (next a)) s).
    cbn [save_file_name_list_from] in H. revert H.
    do 3 (apply bind_mono; intros ? ?). apply IH.
Qed.

Lemma save_file_name_list_more_fuel fuel k s r :
  save_file_name_list fuel s = Ret r -> save_file_name_list (k + fuel) s = Ret r.
Proof.
  unfold save_file_name_list. apply bind_mono; intros ? ?.
  induction k as [|k IH]; [auto|]. intros H. apply save_file_name_list_from_more_fuel. auto.
Qed.

(** The run of the whole program on the truncated container never returns:
    whatever the fuel, the model is still in the copy loop of the record. *)
Lemma main_never_returns_on_truncated_container fuel :
  main fuel all_ok argv_x_p_out (initial_state all_ok ∅ truncated_files) = OutOfFuel.
Proof.
  destruct fuel as [|[|n]]; [reflexivity | vm_compute; reflexivity |].
  set (s0 := initial_state all_ok ∅ truncated_files).
  set (s1 := state_after (resource_init all_ok [112] filenames_txt s0) s0).
  set (s1' := state_after (pak_header_init s1) s1).
  set (s2 := state_after (parse_pak_header 2 all_ok s1') s1').
  set (s3 := state_after (save_file_name_list 2 s2) s2).
  set (s4 := state_after (res_arena_malloc all_ok (size_wrap (8192 * 1)) s3) s3).
  set (s5 := state_after (store_buf (1%nat, 0) (fresh_bytes all_ok 8192) s4) s4).
  unfold main. change (negb (Z.of_nat (length argv_x_p_out) =? 3)) with false. cbv iota.
  rewrite (bind_run _ _ s0 false s0) by (vm_compute; reflexivity). cbv iota.
  rewrite (bind_run _ _ s0 true s1) by (vm_compute; reflexivity).
  change (negb true) with false. cbv iota.
  rewrite (bind_run _ _ s1 tt s1') by (vm_compute; reflexivity).
  rewrite (bind_run _ _ s1' tt s2).
  2:{ replace (S (S n)) with (n + 2)%nat by lia. apply parse_pak_header_more_fuel.
      vm_compute. reflexivity. }
  rewrite (bind_run _ _ s2 tt s3).
  2:{ replace (S (S n)) with (n + 2)%nat by lia. apply save_file_name_list_more_fuel.
      vm_compute. reflexivity. }
  assert (Hloop : extract_files (S (S n)) all_ok (argv_x_p_out !!! 2%nat ++ [0]) s3 = OutOfFuel).
  { unfold extract_files.
    rewrite (bind_run _ _ s3 (st_header s3) s3) by reflexivity.
    rewrite (bind_run _ _ s3 (1%nat, 0) s4) by (vm_compute; reflexivity).
    rewrite (bind_run _ _ s4 tt s5) by (vm_compute; reflexivity).
    change (fl_head (flist (st_header s3))) with (Some (0%nat, 0)).
    cbn [extract_files_from]. unfold bind at 1.
    set (a := mkFileAttr (0%nat, 32) 5 a_time None).
    set (s6 := state_after (recursive_create_parent_dirs all_ok out_a s5) s5).
    set (s7 := state_after (CreateFile all_ok out_a s6) s6).
    assert (Hone : parse_and_extract_one_file (S (S n)) all_ok (0%nat, 0)
                     (argv_x_p_out !!! 2%nat ++ [0]) (1%nat, 0) 8192 s5 = OutOfFuel).
    { unfold parse_and_extract_one_file.
      rewrite (bind_run _ _ s5 a s5) by (vm_compute; reflexivity).
      rewrite (bind_run _ _ s5 [97; 0] s5) by (vm_compute; reflexivity).
      change (build_complete_path (stray_byte all_ok) (argv_x_p_out !!! 2%nat ++ [0]) [97; 0])
        with (out_a ++ [0]).
      change (MAX_PATH <? Z.of_nat (length (out_a ++ [0]))) with false. cbv iota.
      change (cstring (out_a ++ [0])) with out_a.
      rewrite (bind_run _ _ s5 (true, out_a) s6) by (vm_compute; reflexivity).
      change (negb true) with false. cbv iota.
      rewrite (bind_run _ _ s6 (Some out_a) s7) by (vm_compute; reflexivity).
      unfold bind.
      rewrite (copy_payload_starved all_ok out_a (1%nat, 0) 8192 (S (S n)) (fileSize a) s7
                 (fresh_bytes all_ok 8192)); [reflexivity | | | ].
      - intros have k. reflexivity.
      - vm_compute. split; reflexivity.
      - vm_compute. reflexivity. }
    now rewrite Hone. }
  unfold bind at 1. now rewrite Hloop.
Qed.


(** ** The statements at concrete inputs *)

Lemma decode_involution_witness :
  0 <= 55 < 256 /\ decode_one_byte 55 = 192 /\ decode_one_byte (decode_one_byte 55) = 55.
Proof.
  assert (H : 0 <= 55 < 256) by lia.
  split; [exact H|]. split; [reflexivity|]. exact (proj2 (decode_involution 55 H)).
Defined.

Lemma parse_file_name_terminates_its_allocation_witness :
  let s := session_at_record all_ok 1 (encode [1; 97]) in
  exists s' buf,
    parse_file_name all_ok (0%nat, 0) s = Ret (tt, s') /\
    st_arena s' = mkArena [mkBlock 8192 8192; mkBlock 36 8192] 8192 2 /\
    fileName <$> st_attrs s' !! (0%nat, 0) = Some (0%nat, 34) /\
    st_bufs s' !! (0%nat, 34) = Some buf /\
    Z.of_nat (length buf) = 1 + 1 /\
    buf !! 1%nat = Some 0 /\
    (forall i, (i < 1)%nat -> (i < 1)%nat -> buf !! i = decode_one_byte <$> [150] !! i).
Proof.
  exact (proj2 (parse_file_name_terminates_its_allocation all_ok (0%nat, 0)
                  (session_at_record all_ok 1 (encode [1; 97])) 246 [150]
                  (mkFileAttr (0%nat, 32) 1 a_time None) eq_refl eq_refl)).
Defined.

Lemma record_loop_reads_flag_then_length_witness :
  let s := session_at_table all_ok (record_table [entry_a 5] ++ [119]) in
  exists s1 p,
    parse_all_file_attrs 1 all_ok s = parse_all_file_attrs 0 all_ok s1 /\
    st_pakFile s1 = mkFILE [encode [128] !!! 0%nat; 119] false /\
    flist_holds s1 ([] ++ [p]) /\
    stored s1 p ([97; 0], 5, a_time).
Proof.
  refine (proj2 (record_loop_reads_flag_then_length all_ok
            (session_at_table all_ok (record_table [entry_a 5] ++ [119])) [] 0 247
            (246 :: encode [97] ++ encode (bytes_of_u32 5) ++ encode a_time ++ [119; 119])
            eq_refl eq_refl
            246 (encode [97]) (encode (bytes_of_u32 5)) (encode a_time) [119; 119]
            eq_refl eq_refl eq_refl eq_refl _ _ _)).
  - intros n z. reflexivity.
  - split; [|split].
    + split; [vm_compute; split; congruence|]. repeat constructor; vm_compute; congruence.
    + split; intros p [x Hx]; vm_compute in Hx; discriminate.
    + repeat split; constructor.
  - reflexivity.
Defined.

Lemma truncated_record_copy_never_returns_witness :
  let s := session_at_record all_ok 5 (encode [104; 101]) in
  Z.of_nat (length (f_data (st_pakFile s))) < 5 /\
  parse_and_extract_one_file 1000 all_ok (0%nat, 0) ([111; 117; 116] ++ [0]) (1%nat, 0) 8192 s
    = OutOfFuel.
Proof.
  split; [reflexivity|].
  eapply (truncated_record_copy_never_returns 1000 all_ok (0%nat, 0) _ (1%nat, 0) 8192
            (session_at_record all_ok 5 (encode [104; 101]))).
  - reflexivity.
  - reflexivity.
  - reflexivity.
  - vm_compute. congruence.
  - vm_compute. reflexivity.
  - vm_compute. reflexivity.
  - intros have n. reflexivity.
  - vm_compute. split; reflexivity.
Defined.

Lemma exit_code_of_main_witness :
  let files : gmap path (list Z) := {[ [112] := container [entry_a 1; entry_b 2] [88; 89; 90] ]} in
  refuses all_ok argv_x_p_out ∅ files = false /\
  exists s', main 6 all_ok argv_x_p_out (initial_state all_ok ∅ files) = Ret (0, s').
Proof.
  split; [reflexivity|].
  refine (proj2 (exit_code_of_main all_ok ∅ _) 6%nat [120] [112] [111; 117; 116]
            (encode [192; 74; 192; 186]) (encode [0; 0; 0; 0])
            [entry_a 1; entry_b 2] (encode [88; 89; 90]) _ _ _ _ _ _ _ _ _ _ _).
  - intros n z. reflexivity.
  - reflexivity.
  - apply not_elem_of_empty.
  - reflexivity.
  - reflexivity.
  - reflexivity.
  - repeat constructor; try discriminate; vm_compute; congruence.
  - reflexivity.
  - repeat constructor; vm_compute; congruence.
  - vm_compute. congruence.
  - simpl. lia.
Defined.


(** ** Further properties of the allocator *)

(** *** The pool under any sequence of requests *)

Lemma arena_malloc_shape env a size p a' :
  arena_malloc env a size = Ret (p, a') ->
  blockSize a' = blockSize a /\
  (length (head a) <= length (head a'))%nat /\
  (blockNum a = size_wrap (Z.of_nat (length (head a))) ->
   blockNum a' = size_wrap (Z.of_nat (length (head a')))).
Proof.
  unfold arena_malloc.
  assert (Hscan : forall blocks q blocks',
            arena_scan blocks size = Some (q, blocks') -> length blocks' = length blocks).
  { induction blocks as [|b blocks IH]; intros q blocks' H; simpl in H; [discriminate|].
    destruct (size_wrap (used b + size) <=? capacity b).
    - injection H as _ <-. reflexivity.
    - destruct (arena_scan blocks size) as [[q' next']|] eqn:E; [|discriminate].
      injection H as _ <-. simpl. f_equal. eapply IH. reflexivity. }
  destruct (arena_scan (head a) size) as [[q blocks]|] eqn:E.
  - intros H. injection H as _ <-. simpl.
    rewrite (Hscan _ _ _ E). auto.
  - unfold arena_create_new_block.
    destruct (size <? blockSize a);
      destruct (malloc_ok env _ _); intros H; try discriminate;
      injection H as _ <-; simpl; (split; [reflexivity|split; [lia|]]);
      intros ->; unfold size_wrap;
      rewrite Zplus_mod_idemp_l; f_equal; lia.
Qed.

(** X1: the fields of the pool stay consistent, whatever is requested. *)
Theorem pool_fields_stay_consistent env bs sizes : forall a spans a',
  0 <= bs -> arena_create env bs = Some a ->
  Forall (fun z => 0 <= z) sizes ->
  arena_malloc_all env a sizes = Ret (spans, a') ->
  Forall block_ok (head a') /\
  total_used (head a') <= total_capacity (head a') /\
  blockSize a' = bs /\
  blockNum a' = size_wrap (Z.of_nat (length (head a'))) /\
  (1 <= length (head a'))%nat /\
  length spans = length sizes.
Proof.
  intros a spans a' Hbs Hc Hsz Hall.
  assert (Ha : Forall block_ok (head a) /\ blockSize a = bs /\
               blockNum a = size_wrap (Z.of_nat (length (head a))) /\
               (1 <= length (head a))%nat).
  { unfold arena_create in Hc.
    destruct (negb (malloc_ok env 0%nat sizeof_ArenaAllocator)); [discriminate|].
    destruct (negb (malloc_ok env 1%nat _)); [discriminate|].
    injection Hc as <-. simpl. repeat split; try lia.
    constructor; [|constructor]. unfold block_ok; simpl; lia. }
  clear Hc. revert a spans a' Ha Hall.
  induction Hsz as [|size sizes Hsize Hsz IH]; intros a spans a' (Hok & Hb & Hn & Hl) Hall.
  - simpl in Hall. injection Hall as <- <-.
    repeat split; auto. now apply total_used_le_capacity.
  - simpl in Hall.
    destruct (arena_malloc env a size) as [[p a1]| | |] eqn:E1; try discriminate.
    destruct (arena_malloc_all env a1 sizes) as [[spans1 a2]| | |] eqn:E2; try discriminate.
    injection Hall as <- <-.
    destruct (arena_malloc_shape _ _ _ _ _ E1) as (Hb1 & Hl1 & Hn1).
    destruct (IH a1 spans1 a2) as (? & ? & ? & ? & ? & ?).
    + repeat split; [eapply arena_malloc_block_ok; eauto|congruence|auto|lia].
    + exact E2.
    + repeat split; auto. simpl. congruence.
Qed.

Lemma pool_fields_stay_consistent_witness :
  let a' := mkArena [mkBlock 9000 9000; mkBlock 14 8192] 8192 2 in
  arena_malloc_all all_ok (mkArena [mkBlock 0 8192] 8192 1) [8; 2 ^ 64 - 4; 10; 9000]
    = Ret ([((0%nat, 0), 8); ((0%nat, 8), 2 ^ 64 - 4); ((0%nat, 4), 10); ((1%nat, 0), 9000)], a')
  /\ Forall block_ok (head a')
  /\ total_used (head a') <= total_capacity (head a')
  /\ blockSize a' = 8192
  /\ blockNum a' = size_wrap (Z.of_nat (length (head a'))).
Proof.
  assert (E : arena_malloc_all all_ok (mkArena [mkBlock 0 8192] 8192 1) [8; 2 ^ 64 - 4; 10; 9000]
    = Ret ([((0%nat, 0), 8); ((0%nat, 8), 2 ^ 64 - 4); ((0%nat, 4), 10); ((1%nat, 0), 9000)],
           mkArena [mkBlock 9000 9000; mkBlock 14 8192] 8192 2)) by (vm_compute; reflexivity).
  split; [exact E|].
  destruct (pool_fields_stay_consistent all_ok 8192 [8; 2 ^ 64 - 4; 10; 9000]
              (mkArena [mkBlock 0 8192] 8192 1) _ _ ltac:(lia) eq_refl
              ltac:(repeat constructor; lia) E) as (H1 & H2 & H3 & H4 & _).
  auto.
Defined.

(** *** Spans, while no sum wraps *)

Lemma used_le_capacity_of blocks k :
  Forall block_small blocks -> 0 <= used_of blocks k <= capacity_of blocks k.
Proof.
  induction 1 as [|b blocks Hb _ IH]; simpl; [lia|].
  destruct (decide (k = length blocks)); [|exact IH].
  destruct Hb as [Hb _]. exact Hb.
Qed.

Lemma arena_malloc_used_grows env a size p a' k :
  arena_small a -> 0 <= size < 2 ^ 63 ->
  arena_malloc env a size = Ret (p, a') ->
  used_of (head a) k <= used_of (head a') k.
Proof.
  intros Ha Hs E.
  destruct (arena_malloc_facts _ _ _ _ _ Ha Hs E) as (_ & Hp & Hp' & Hother).
  destruct (decide (k = p.1)) as [->|Hk]; [lia|].
  rewrite (Hother k Hk). lia.
Qed.

Lemma arena_malloc_all_used_grows env sizes : forall a spans a' k,
  arena_small a -> Forall (fun z => 0 <= z < 2 ^ 63) sizes ->
  arena_malloc_all env a sizes = Ret (spans, a') ->
  arena_small a' /\ used_of (head a) k <= used_of (head a') k.
Proof.
  induction sizes as [|size sizes IH]; intros a spans a' k Ha Hs E; simpl in E.
  - injection E as _ <-. split; [exact Ha|lia].
  - apply Forall_cons in Hs as [Hsize Hs].
    destruct (arena_malloc env a size) as [[p a1]| | |] eqn:E1; try discriminate.
    destruct (arena_malloc_all env a1 sizes) as [[spans1 a2]| | |] eqn:E2; try discriminate.
    injection E as _ <-.
    pose proof (arena_malloc_used_grows _ _ _ _ _ k Ha Hsize E1) as H1.
    destruct (arena_malloc_facts _ _ _ _ _ Ha Hsize E1) as (Ha1 & _).
    destruct (IH a1 spans1 a2 k Ha1 Hs E2) as [Ha2 H2].
    split; [exact Ha2|lia].
Qed.

Lemma arena_malloc_all_below_mark env sizes : forall a spans a',
  arena_small a -> Forall (fun z => 0 <= z < 2 ^ 63) sizes ->
  arena_malloc_all env a sizes = Ret (spans, a') ->
  Forall (fun s : span => s.1.2 + s.2 <= used_of (head a') s.1.1) spans.
Proof.
  induction sizes as [|size sizes IH]; intros a spans a' Ha Hs E; simpl in E.
  - injection E as <- _. constructor.
  - apply Forall_cons in Hs as [Hsize Hs].
    destruct (arena_malloc env a size) as [[p a1]| | |] eqn:E1; try discriminate.
    destruct (arena_malloc_all env a1 sizes) as [[spans1 a2]| | |] eqn:E2; try discriminate.
    injection E as <- <-.
    destruct (arena_malloc_facts _ _ _ _ _ Ha Hsize E1) as (Ha1 & Hp & Hp' & _).
    constructor; [|eapply IH; eauto].
    simpl. destruct (arena_malloc_all_used_grows _ _ _ _ _ p.1 Ha1 Hs E2) as [_ Hg]. lia.
Qed.

(** X2: as long as no sum can wrap, the spans handed out are pairwise
    disjoint and each lies inside the payload of its block. *)
Theorem spans_are_disjoint_and_inside_their_blocks env bs sizes a spans a' :
  0 <= bs < 2 ^ 63 -> arena_create env bs = Some a ->
  Forall (fun z => 0 <= z < 2 ^ 63) sizes ->
  arena_malloc_all env a sizes = Ret (spans, a') ->
  pairwise_disjoint spans /\ Forall (span_in_block (head a')) spans.
Proof.
  intros Hbs Hc Hs E.
  assert (Ha : arena_small a).
  { unfold arena_create in Hc.
    destruct (negb (malloc_ok env 0%nat sizeof_ArenaAllocator)); [discriminate|].
    destruct (negb (malloc_ok env 1%nat _)); [discriminate|].
    injection Hc as <-. split; simpl; [lia|].
    constructor; [|constructor]. unfold block_small; simpl; lia. }
  destruct (arena_malloc_all_disjoint _ _ _ _ _ Ha Hs E) as [Hd Hlow].
  split; [exact Hd|].
  pose proof (arena_malloc_all_below_mark _ _ _ _ _ Ha Hs E) as Hup.
  destruct (arena_malloc_all_used_grows _ _ _ _ _ 0%nat Ha Hs E) as [[_ Ha'] _].
  rewrite Forall_forall in Hlow, Hup. apply Forall_forall. intros s Hin.
  specialize (Hlow s Hin). specialize (Hup s Hin). simpl in Hlow, Hup.
  destruct Ha as [_ Hblocks].
  pose proof (used_le_capacity_of (head a) s.1.1 Hblocks).
  pose proof (used_le_capacity_of (head a') s.1.1 Ha').
  split; lia.
Qed.

Lemma spans_are_disjoint_and_inside_their_blocks_witness :
  let spans := [((0%nat, 0), 32); ((0%nat, 32), 0); ((0%nat, 32), 8000);
                ((1%nat, 0), 8192); ((0%nat, 8032), 100); ((2%nat, 0), 10000)] in
  let a' := mkArena [mkBlock 10000 10000; mkBlock 8192 8192; mkBlock 8132 8192] 8192 3 in
  arena_malloc_all all_ok (mkArena [mkBlock 0 8192] 8192 1) [32; 0; 8000; 8192; 100; 10000]
    = Ret (spans, a')
  /\ pairwise_disjoint spans /\ Forall (span_in_block (head a')) spans.
Proof.
  assert (E : arena_malloc_all all_ok (mkArena [mkBlock 0 8192] 8192 1)
                [32; 0; 8000; 8192; 100; 10000]
    = Ret ([((0%nat, 0), 32); ((0%nat, 32), 0); ((0%nat, 32), 8000);
            ((1%nat, 0), 8192); ((0%nat, 8032), 100); ((2%nat, 0), 10000)],
           mkArena [mkBlock 10000 10000; mkBlock 8192 8192; mkBlock 8132 8192] 8192 3))
    by (vm_compute; reflexivity).
  split; [exact E|].
  exact (spans_are_disjoint_and_inside_their_blocks all_ok 8192
           [32; 0; 8000; 8192; 100; 10000] (mkArena [mkBlock 0 8192] 8192 1) _ _
           ltac:(lia) eq_refl ltac:(repeat constructor; lia) E).
Defined.

(** *** One request, while no sum wraps *)

Lemma arena_scan_first_fit size newer : forall b older,
  Forall block_small (newer ++ b :: older) -> 0 <= size < 2 ^ 63 ->
  Forall (block_full size) newer -> size <= capacity b - used b ->
  arena_scan (newer ++ b :: older) size =
    Some ((length older, used b), newer ++ mkBlock (used b + size) (capacity b) :: older).
Proof.
  induction newer as [|n newer IH]; intros b older Hsm Hs Hfull Hroom; simpl.
  - apply Forall_cons in Hsm as [[Hb Hcap] _].
    rewrite (size_wrap_small (used b + size)) by (zsimp; lia).
    destruct (Z.leb_spec (used b + size) (capacity b)); [|lia].
    rewrite size_wrap_small by (zsimp; lia).
    repeat f_equal. lia.
  - simpl in Hsm. apply Forall_cons in Hsm as [[Hn Hcap] Hsm].
    apply Forall_cons in Hfull as [Hnfull Hfull]. unfold block_full in Hnfull.
    rewrite (size_wrap_small (used n + size)) by (zsimp; lia).
    destruct (Z.leb_spec (used n + size) (capacity n)); [lia|].
    rewrite (IH b older Hsm Hs Hfull Hroom). reflexivity.
Qed.

Lemma arena_scan_all_full size blocks :
  Forall block_small blocks -> 0 <= size < 2 ^ 63 ->
  Forall (block_full size) blocks -> arena_scan blocks size = None.
Proof.
  intros Hsm Hs Hfull. induction blocks as [|b blocks IH]; simpl; [reflexivity|].
  apply Forall_cons in Hsm as [[Hb Hcap] Hsm].
  apply Forall_cons in Hfull as [Hbfull Hfull]. unfold block_full in Hbfull.
  rewrite (size_wrap_small (used b + size)) by (zsimp; lia).
  destruct (Z.leb_spec (used b + size) (capacity b)); [lia|].
  now rewrite IH.
Qed.

(** X3: first fit, newest block first.  While no sum can wrap, the request
    is served by the newest block that has room, at its [used] mark, which
    moves up by [size]; when every block is full one block is added, or the
    process is aborted. *)
Theorem arena_malloc_is_first_fit env a size :
  arena_small a -> 0 <= size < 2 ^ 63 ->
  (forall newer b older,
     head a = newer ++ b :: older ->
     Forall (block_full size) newer -> size <= capacity b - used b ->
     arena_malloc env a size =
       Ret ((length older, used b),
            mkArena (newer ++ mkBlock (used b + size) (capacity b) :: older)
                    (blockSize a) (blockNum a))) /\
  (Forall (block_full size) (head a) ->
     arena_malloc env a size =
       if malloc_ok env (S (length (head a)))
            (sizeof_ArenaBlockHeader + Z.max (blockSize a) size)
       then Ret ((length (head a), 0),
                 mkArena (mkBlock size (Z.max (blockSize a) size) :: head a)
                         (blockSize a) (size_wrap (blockNum a + 1)))
       else Aborted).
Proof.
  intros [Hbs Hsm] Hs. split.
  - intros newer b older Hhead Hfull Hroom. unfold arena_malloc.
    rewrite Hhead in Hsm |- *.
    now rewrite (arena_scan_first_fit size newer b older Hsm Hs Hfull Hroom).
  - intros Hfull. unfold arena_malloc, arena_create_new_block.
    rewrite (arena_scan_all_full size (head a) Hsm Hs Hfull).
    destruct (Z.ltb_spec size (blockSize a)).
    + rewrite Z.max_l by lia.
      rewrite size_wrap_small by (unfold sizeof_ArenaBlockHeader; zsimp; lia).
      destruct (malloc_ok env _ _); reflexivity.
    + rewrite Z.max_r by lia.
      rewrite size_wrap_small by (unfold sizeof_ArenaBlockHeader; zsimp; lia).
      destruct (malloc_ok env _ _); reflexivity.
Qed.

Lemma arena_malloc_is_first_fit_witness :
  let a := mkArena [mkBlock 8192 8192; mkBlock 8100 8192] 8192 2 in
  arena_malloc all_ok a 50 =
    Ret ((0%nat, 8100), mkArena [mkBlock 8192 8192; mkBlock 8150 8192] 8192 2)
  /\ arena_malloc (out_of_memory_at 2) a 100 = Aborted.
Proof.
  assert (Ha : arena_small (mkArena [mkBlock 8192 8192; mkBlock 8100 8192] 8192 2)).
  { split; simpl; [lia|]. repeat constructor; simpl; lia. }
  split.
  - exact (proj1 (arena_malloc_is_first_fit all_ok _ 50 Ha ltac:(lia))
             [mkBlock 8192 8192] (mkBlock 8100 8192) [] eq_refl
             ltac:(repeat constructor; unfold block_full; simpl; lia) ltac:(simpl; lia)).
  - exact (proj2 (arena_malloc_is_first_fit (out_of_memory_at 2) _ 100 Ha ltac:(lia))
             ltac:(repeat constructor; unfold block_full; simpl; lia)).
Defined.


(** ** Further properties of the codec and the parser *)

(** *** Decoding a buffer in place *)

(** X4: [decode_bytes] over the first [len] bytes of a buffer keeps the
    length of the buffer, decodes each of the first [len] bytes, leaves the
    bytes behind them alone, and undoes itself when it is run again. *)
Theorem decode_bytes_in_place buf len :
  0 <= len <= Z.of_nat (length buf) ->
  length (decode_bytes buf len) = length buf /\
  (forall i, (i < Z.to_nat len)%nat ->
     decode_bytes buf len !! i = decode_one_byte <$> buf !! i) /\
  (forall i, (Z.to_nat len <= i)%nat -> decode_bytes buf len !! i = buf !! i) /\
  Forall is_byte (take (Z.to_nat len) (decode_bytes buf len)) /\
  (Forall is_byte buf -> decode_bytes (decode_bytes buf len) len = buf).
Proof.
  intros Hlen. unfold decode_bytes.
  assert (Hn : (Z.to_nat len <= length buf)%nat) by lia.
  set (n := Z.to_nat len) in *.
  assert (Hl : length (decode_one_byte <$> take n buf) = n)
    by (rewrite length_fmap, length_take; lia).
  repeat split.
  - rewrite length_app, Hl, length_drop. lia.
  - intros i Hi. rewrite lookup_app_l by lia.
    rewrite list_lookup_fmap, lookup_take_lt by lia. reflexivity.
  - intros i Hi. rewrite lookup_app_r by lia. rewrite Hl, lookup_drop.
    f_equal. lia.
  - rewrite take_app_length' by (symmetry; exact Hl).
    apply Forall_fmap, Forall_forall. intros b _. apply decode_one_byte_range.
  - intros Hb. rewrite take_app_length' by (symmetry; exact Hl).
    rewrite drop_app_length' by (symmetry; exact Hl).
    rewrite <- list_fmap_compose.
    rewrite <- (take_drop n buf) at 3. f_equal.
    rewrite <- (list_fmap_id (take n buf)) at 2.
    apply Forall_fmap_ext_1. eapply Forall_impl; [apply Forall_take, Hb|].
    intros b Hbyte. simpl. now apply decode_decode.
Qed.

Lemma decode_bytes_in_place_witness :
  decode_bytes [55; 189; 55; 77] 3 = [192; 74; 192; 77] /\
  decode_bytes (decode_bytes [55; 189; 55; 77] 3) 3 = [55; 189; 55; 77].
Proof.
  split; [reflexivity|].
  refine (proj2 (proj2 (proj2 (proj2 (decode_bytes_in_place [55; 189; 55; 77] 3 _)))) _).
  - simpl. lia.
  - repeat constructor; unfold is_byte; lia.
Defined.

(** *** The eight bytes in front of the table *)

(** X5: [parse_magic] and [parse_version] take eight bytes off the stream
    and keep their decoded values; whatever these are, the table is parsed
    next. *)
Theorem magic_and_version_are_not_checked fuel env s mg vs rest :
  f_data (st_pakFile s) = mg ++ vs ++ rest -> length mg = 4%nat -> length vs = 4%nat ->
  length (magic (st_header s)) = 4%nat -> length (version (st_header s)) = 4%nat ->
  parse_pak_header fuel env s =
    parse_all_file_attrs fuel env
      (set_header (mkPakHeader (decode_one_byte <$> mg) (decode_one_byte <$> vs)
                               (flist (st_header s)))
         (set_pakFile (mkFILE rest (f_eof (st_pakFile s))) s)).
Proof.
  intros Hd Hmg Hvs Hm Hv. unfold parse_pak_header.
  rewrite (bind_run _ _ s tt
             (set_header (mkPakHeader (decode_one_byte <$> mg) (version (st_header s))
                                      (flist (st_header s)))
                (set_pakFile (mkFILE (vs ++ rest) (f_eof (st_pakFile s))) s))).
  2:{ unfold parse_magic, bind, gets. cbv beta iota.
      rewrite (pak_fread_enough _ _ _ mg (vs ++ rest) Hd);
        [ | rewrite Hmg; reflexivity | now rewrite Hm, Hmg ].
      cbv beta iota. unfold modify.
      now rewrite decode_bytes_all by (rewrite Hmg; reflexivity). }
  match goal with |- bind _ _ ?st = _ => set (sA := st) end.
  rewrite (bind_run _ _ sA tt
             (set_header (mkPakHeader (decode_one_byte <$> mg) (decode_one_byte <$> vs)
                                      (flist (st_header s)))
                (set_pakFile (mkFILE rest (f_eof (st_pakFile s))) s))); [reflexivity|].
  unfold parse_version, bind, gets. cbv beta iota.
  rewrite (pak_fread_enough _ _ sA vs rest);
    [ | reflexivity | rewrite Hvs; reflexivity | cbn; now rewrite Hv, Hvs ].
  cbv beta iota. unfold modify.
  now rewrite decode_bytes_all by (rewrite Hvs; reflexivity).
Qed.

Lemma magic_and_version_are_not_checked_witness :
  let s := session_before_table ∅ ∅ [0; 0; 0; 0] [0; 0; 0; 0]
             ([1; 2; 3; 4] ++ [5; 6; 7; 8] ++ encode [128; 9]) in
  parse_pak_header 1 all_ok s =
    Ret (tt, session_before_table ∅ ∅ [1; 2; 3; 4] [5; 6; 7; 8] (encode [9])).
Proof.
  cbv zeta.
  rewrite (magic_and_version_are_not_checked 1 all_ok
             (session_before_table ∅ ∅ [0; 0; 0; 0] [0; 0; 0; 0]
                ([1; 2; 3; 4] ++ [5; 6; 7; 8] ++ encode [128; 9]))
             [1; 2; 3; 4] [5; 6; 7; 8]
             (encode [128; 9]) eq_refl eq_refl eq_refl eq_refl eq_refl).
  reflexivity.
Defined.

(** The session up to the table: [resource_init], [pak_header_init] and the
    eight bytes of magic and version. *)
Lemma session_reads_header env dirs files pak mg vs rest fuel :
  malloc_ok env 0%nat sizeof_ArenaAllocator = true ->
  malloc_ok env 1%nat (size_wrap (sizeof_ArenaBlockHeader + 8192)) = true ->
  fopen_w_ok env filenames_txt = true ->
  length mg = 4%nat -> length vs = 4%nat ->
  files !! pak = Some (mg ++ vs ++ rest) ->
  exists s1,
    resource_init env pak filenames_txt (initial_state env dirs files) = Ret (true, s1) /\
    bind pak_header_init (fun _ => parse_pak_header fuel env) s1
      = parse_all_file_attrs fuel env (session_before_table dirs files mg vs rest).
Proof.
  intros Hm0 Hm1 Hw Hmg Hvs Hpak.
  set (s0 := initial_state env dirs files).
  set (s1 := mkState arena0 (mkFILE (mg ++ vs ++ rest) false) []
                     (st_header s0) ∅ ∅ dirs files ∅ []).
  exists s1. split.
  - unfold resource_init, arena_create. rewrite Hm0, Hm1. cbn [negb].
    rewrite (bind_run _ _ s0 (Some (mg ++ vs ++ rest)) s0)
      by (unfold gets; cbn; now rewrite Hpak).
    cbv beta iota. rewrite Hw. reflexivity.
  - rewrite (bind_run _ _ s1 tt s1) by reflexivity.
    unfold parse_pak_header.
    rewrite (bind_run _ _ _ tt
               (mkState arena0 (mkFILE (vs ++ rest) false) []
                  (mkPakHeader (decode_one_byte <$> mg) (fresh_bytes env BYTES_OF_VERSION)
                               (mkFileAttrList None None 0))
                  ∅ ∅ dirs files ∅ [])).
    2:{ unfold parse_magic, bind, gets. cbv beta iota.
        rewrite (pak_fread_enough _ _ _ mg (vs ++ rest));
          [ | reflexivity | rewrite Hmg; reflexivity
            | cbn; now rewrite length_fresh_bytes, Hmg ].
        cbv beta iota. unfold modify, set_header, set_pakFile. cbn.
        now rewrite decode_bytes_all by (rewrite Hmg; reflexivity). }
    rewrite (bind_run _ _ _ tt (session_before_table dirs files mg vs rest)); [reflexivity|].
    unfold parse_version, bind, gets. cbv beta iota.
    rewrite (pak_fread_enough _ _ _ vs rest);
      [ | reflexivity | rewrite Hvs; reflexivity
        | cbn; now rewrite length_fresh_bytes, Hvs ].
    cbv beta iota. unfold modify, set_header, set_pakFile. cbn.
    now rewrite decode_bytes_all by (rewrite Hvs; reflexivity).
Qed.

(** [main] from the parsed table on. *)
Lemma main_after_parsing env prog pak root dirs files fuel s1 s2 :
  root ∉ dirs ->
  resource_init env pak filenames_txt (initial_state env dirs files) = Ret (true, s1) ->
  bind pak_header_init (fun _ => parse_pak_header fuel env) s1 = Ret (tt, s2) ->
  main fuel env [prog; pak; root] (initial_state env dirs files)
    = bind (save_file_name_list fuel)
        (fun _ => bind (extract_files fuel env (root ++ [0])) (fun _ => ret 0)) s2.
Proof.
  intros Hroot Hinit Hparse.
  unfold main. cbn [length lookup_total list_lookup_total].
  change (negb (Z.of_nat 3 =? 3)) with false. cbv iota.
  rewrite (bind_run _ _ _ false (initial_state env dirs files)).
  2:{ unfold is_dir_exist, gets. cbn [st_dirs initial_state].
      now rewrite bool_decide_eq_false_2. }
  cbv beta iota.
  rewrite (bind_run _ _ _ _ _ Hinit). cbn [negb].
  assert (Hhdr : pak_header_init s1
                 = Ret (tt, set_header (mkPakHeader (magic (st_header s1)) (version (st_header s1))
                                          (mkFileAttrList None None 0)) s1)) by reflexivity.
  rewrite (bind_run _ _ _ _ _ Hhdr) in Hparse.
  rewrite (bind_run _ _ _ _ _ Hhdr).
  now rewrite (bind_run _ _ _ _ _ Hparse).
Qed.

(** [main] behind the parser when the list is empty: no line is printed, the
    working buffer is taken from the first block, nothing is extracted. *)
Lemma main_on_empty_list env fuel root f m v dirs files :
  bind (save_file_name_list fuel)
    (fun _ => bind (extract_files fuel env root) (fun _ => ret 0))
    (mkState arena0 f [] (mkPakHeader m v (mkFileAttrList None None 0)) ∅ ∅ dirs files ∅ [])
  = Ret (0, mkState (mkArena [mkBlock 8192 8192] 8192 1) f []
              (mkPakHeader m v (mkFileAttrList None None 0))
              ∅ {[ (0%nat, 0) := fresh_bytes env 8192 ]} dirs files ∅ []).
Proof. destruct fuel; reflexivity. Qed.

(** The parser on a stream that ends inside magic and version. *)
Lemma parse_pak_header_short env fuel bytes dirs files m v :
  (length bytes < 8)%nat -> (0 < fuel)%nat ->
  exists f' m' v',
    parse_pak_header fuel env
      (mkState arena0 (mkFILE bytes false) [] (mkPakHeader m v (mkFileAttrList None None 0))
               ∅ ∅ dirs files ∅ [])
    = Ret (tt, mkState arena0 f' [] (mkPakHeader m' v' (mkFileAttrList None None 0))
                 ∅ ∅ dirs files ∅ []).
Proof.
  intros Hshort Hfuel. destruct fuel as [|fuel]; [lia|].
  set (r1 := fread BYTES_OF_MAGIC m (mkFILE bytes false)).
  set (r2 := fread BYTES_OF_VERSION v r1.2).
  exists r2.2, (decode_bytes r1.1.1 BYTES_OF_MAGIC), (decode_bytes r2.1.1 BYTES_OF_VERSION).
  assert (Heof : f_eof r2.2 = true).
  { unfold r2, r1, fread. cbn [snd f_data f_eof]. rewrite length_drop.
    unfold BYTES_OF_MAGIC, BYTES_OF_VERSION.
    replace (Z.of_nat (length bytes - Z.to_nat 4) <? 4) with true
      by (symmetry; apply Z.ltb_lt; lia).
    apply orb_true_r. }
  unfold parse_pak_header.
  rewrite (bind_run _ _ _ tt
             (mkState arena0 r1.2 [] (mkPakHeader (decode_bytes r1.1.1 BYTES_OF_MAGIC) v
                                        (mkFileAttrList None None 0)) ∅ ∅ dirs files ∅ []))
    by reflexivity.
  rewrite (bind_run _ _ _ tt
             (mkState arena0 r2.2 []
                (mkPakHeader (decode_bytes r1.1.1 BYTES_OF_MAGIC)
                             (decode_bytes r2.1.1 BYTES_OF_VERSION)
                             (mkFileAttrList None None 0)) ∅ ∅ dirs files ∅ []))
    by reflexivity.
  cbn [parse_all_file_attrs].
  rewrite (bind_run _ _ _ true _) by (unfold gets; cbn [st_pakFile]; now rewrite Heof).
  reflexivity.
Qed.

(** X6: a file that ends before its ninth byte, or whose ninth byte is the
    end flag, is an empty container.  When the container is not the list
    file, [main] exits with 0, prints no line into the list and nothing to
    [stderr], and creates no directory, not even the extraction directory,
    and no file other than the list file: every other file is as it was. *)
Theorem empty_container_creates_nothing env prog pak root dirs files bytes fuel :
  malloc_ok env 0%nat sizeof_ArenaAllocator = true ->
  malloc_ok env 1%nat (size_wrap (sizeof_ArenaBlockHeader + 8192)) = true ->
  fopen_w_ok env filenames_txt = true ->
  pak <> filenames_txt ->
  root ∉ dirs -> files !! pak = Some bytes ->
  (length bytes < 8)%nat \/
    (exists mg vs rest, bytes = mg ++ vs ++ decode_one_byte 128 :: rest /\
                        length mg = 4%nat /\ length vs = 4%nat) ->
  (0 < fuel)%nat ->
  exists s',
    main fuel env [prog; pak; root] (initial_state env dirs files) = Ret (0, s') /\
    st_dirs s' = dirs /\
    (forall p, p <> filenames_txt -> st_files s' !! p = files !! p) /\
    st_times s' = ∅ /\
    st_list s' = [] /\ st_stderr s' = [] /\
    flist (st_header s') = mkFileAttrList None None 0.
Proof.
  intros Hm0 Hm1 Hw _ Hroot Hpak Hshape Hfuel.
  set (s0 := initial_state env dirs files).
  assert (Hparsed : exists s1 f m v,
            resource_init env pak filenames_txt s0 = Ret (true, s1) /\
            bind pak_header_init (fun _ => parse_pak_header fuel env) s1
              = Ret (tt, mkState arena0 f [] (mkPakHeader m v (mkFileAttrList None None 0))
                           ∅ ∅ dirs files ∅ [])).
  { destruct Hshape as [Hshort | (mg & vs & rest & -> & Hmg & Hvs)].
    - destruct (parse_pak_header_short env fuel bytes dirs files
                  (fresh_bytes env BYTES_OF_MAGIC) (fresh_bytes env BYTES_OF_VERSION)
                  Hshort Hfuel) as (f & m & v & Hrun).
      exists (mkState arena0 (mkFILE bytes false) [] (st_header s0) ∅ ∅ dirs files ∅ []), f, m, v.
      split.
      + unfold resource_init, arena_create. rewrite Hm0, Hm1. cbn [negb].
        rewrite (bind_run _ _ s0 (Some bytes) s0) by (unfold gets; cbn; now rewrite Hpak).
        cbv beta iota. rewrite Hw. reflexivity.
      + exact Hrun.
    - destruct (session_reads_header env dirs files pak mg vs (decode_one_byte 128 :: rest) fuel
                  Hm0 Hm1 Hw Hmg Hvs Hpak) as (s1 & Hinit & Hrun).
      exists s1, (mkFILE rest false), (decode_one_byte <$> mg), (decode_one_byte <$> vs).
      split; [exact Hinit|]. rewrite Hrun.
      destruct fuel as [|fuel]; [lia|]. cbn [parse_all_file_attrs].
      set (sT := session_before_table dirs files mg vs (decode_one_byte 128 :: rest)).
      rewrite (bind_run _ _ sT false sT) by reflexivity. cbv beta iota.
      rewrite (bind_run _ _ sT true (set_pakFile (mkFILE rest false) sT)); [reflexivity|].
      rewrite (reach_pak_header_end_run env sT (decode_one_byte 128) rest eq_refl).
      reflexivity. }
  destruct Hparsed as (s1 & f & m & v & Hinit & Hrun). unfold s0 in *. clear s0.
  rewrite (main_after_parsing env prog pak root dirs files fuel s1 _ Hroot Hinit Hrun).
  rewrite main_on_empty_list.
  eexists. split; [reflexivity|]. repeat split.
Qed.

Lemma empty_container_creates_nothing_witness :
  let files : gmap path (list Z) := {[ [112] := [55; 189; 55] ]} in
  exists s',
    main 1 all_ok argv_x_p_out (initial_state all_ok ∅ files) = Ret (0, s') /\
    st_dirs s' = ∅ /\
    (forall p, p <> filenames_txt -> st_files s' !! p = files !! p) /\
    st_times s' = ∅ /\
    st_list s' = [] /\ st_stderr s' = [] /\
    flist (st_header s') = mkFileAttrList None None 0.
Proof.
  refine (empty_container_creates_nothing all_ok [120] [112] [111; 117; 116] ∅
            {[ [112] := [55; 189; 55] ]} [55; 189; 55] 1 eq_refl eq_refl eq_refl _ _ eq_refl _ _).
  - discriminate.
  - apply not_elem_of_empty.
  - left. simpl. lia.
  - lia.
Defined.


(** ** Further properties of the extraction *)

(** *** Parent directories *)

(** Where every parent directory exists the loop changes nothing. *)
Lemma create_parent_dirs_from_noop env todo : forall done s,
  Forall (fun d => d ∈ st_dirs s) (dir_prefixes done todo) ->
  create_parent_dirs_from env done todo s = Ret ((true, done ++ todo), s).
Proof.
  induction todo as [|c todo IH]; intros done s Hall; cbn [create_parent_dirs_from].
  - now rewrite app_nil_r.
  - cbn [dir_prefixes] in Hall. destruct (c =? BACKSLASH).
    + cbn [app] in Hall. apply Forall_cons in Hall as [Hd Hall].
      rewrite (bind_run _ _ s true s)
        by (unfold is_dir_exist, gets; now rewrite bool_decide_eq_true_2).
      cbv iota. rewrite (IH _ _ Hall). now rewrite <- app_assoc.
    + rewrite (IH _ _ Hall). now rewrite <- app_assoc.
Qed.

(** X8: [recursive_create_parent_dirs] always returns and changes nothing
    but the set of directories, to which it only adds parents of the path.
    When it returns TRUE the path is as it was, every parent exists, and a
    second call changes nothing; when it returns FALSE the path is left cut
    at the first parent that neither existed nor could be created, and all
    parents in front of that one exist.  The statement is about the loop
    with its cursor behind [done]; the function is the loop with [done]
    empty. *)
Theorem parent_dirs_are_created env todo : forall done s,
  exists ok shown s',
    create_parent_dirs_from env done todo s = Ret ((ok, shown), s') /\
    s' = set_dirs (st_dirs s') s /\
    st_dirs s ⊆ st_dirs s' /\
    (forall d, d ∈ st_dirs s' -> d ∈ st_dirs s \/ d ∈ dir_prefixes done todo) /\
    if ok
    then shown = done ++ todo /\
         Forall (fun d => d ∈ st_dirs s') (dir_prefixes done todo) /\
         create_parent_dirs_from env done todo s' = Ret ((true, done ++ todo), s')
    else exists front back,
         dir_prefixes done todo = front ++ shown :: back /\
         Forall (fun d => d ∈ st_dirs s') front /\ (shown ∉ st_dirs s') /\
         (is_Some (st_files s !! shown) \/ mkdir_ok env shown = false).
Proof.
  induction todo as [|c todo IH]; intros done s.
  - exists true, done, s. cbn [create_parent_dirs_from dir_prefixes].
    split; [reflexivity|]. split; [now destruct s|]. split; [set_solver|].
    split; [auto|]. rewrite app_nil_r. repeat split. constructor.
  - cbn [create_parent_dirs_from dir_prefixes].
    destruct (c =? BACKSLASH); cbn [app].
    2:{ destruct (IH (done ++ [c]) s) as (ok & shown & s' & Hrun & Hs & Hsub & Hnew & Hres).
        exists ok, shown, s'. rewrite <- (app_assoc done [c] todo) in Hres.
        repeat (split; [assumption|]). exact Hres. }
    destruct (decide (done ∈ st_dirs s)) as [Hin|Hnin].
    + rewrite (bind_run _ _ s true s)
        by (unfold is_dir_exist, gets; now rewrite bool_decide_eq_true_2).
      cbv iota.
      destruct (IH (done ++ [c]) s) as (ok & shown & s' & Hrun & Hs & Hsub & Hnew & Hres).
      exists ok, shown, s'. rewrite <- (app_assoc done [c] todo) in Hres.
      split; [exact Hrun|]. split; [exact Hs|]. split; [exact Hsub|].
      split; [intros d Hd; destruct (Hnew d Hd); [now left | right; now right]|].
      destruct ok.
      * destruct Hres as (Hshown & Hall & Hagain). split; [exact Hshown|].
        split; [constructor; [set_solver | exact Hall]|].
        rewrite (bind_run _ _ s' true s'); [exact Hagain|].
        unfold is_dir_exist, gets. rewrite bool_decide_eq_true_2; [reflexivity | set_solver].
      * destruct Hres as [front [back [Hfb [Hfront [Hshown Hwhy]]]]].
        exists (done :: front), back. rewrite Hfb.
        split; [reflexivity|]. split; [constructor; [exact (Hsub done Hin) | exact Hfront]|].
        split; [exact Hshown | exact Hwhy].
    + rewrite (bind_run _ _ s false s)
        by (unfold is_dir_exist, gets; now rewrite bool_decide_eq_false_2).
      cbv iota.
      assert (Hcd : exists created s1,
                CreateDirectory env done s = Ret (created, s1) /\
                if created then s1 = set_dirs ({[done]} ∪ st_dirs s) s
                else s1 = s /\ (is_Some (st_files s !! done) \/ mkdir_ok env done = false)).
      { unfold CreateDirectory. rewrite bool_decide_eq_false_2 by exact Hnin. cbn [orb].
        destruct (bool_decide _) eqn:Hb; cbn [orb].
        - exists false, s. split; [reflexivity|]. split; [reflexivity|].
          left. now apply bool_decide_eq_true_1 in Hb.
        - destruct (mkdir_ok env done) eqn:Hmk; cbn [negb].
          + eexists true, _. split; reflexivity.
          + exists false, s. split; [reflexivity|]. split; [reflexivity|]. now right. }
      destruct Hcd as (created & s1 & Hcd & Hres1). rewrite (bind_run _ _ _ _ _ Hcd).
      destruct created; [subst s1 | destruct Hres1 as [-> Hwhy]].
      2:{ exists false, done, s. split; [reflexivity|]. split; [now destruct s|].
        split; [set_solver|]. split; [auto|].
        exists [], (dir_prefixes (done ++ [c]) todo).
        split; [reflexivity|]. split; [constructor|]. split; [exact Hnin|exact Hwhy]. }
      destruct (IH (done ++ [c]) (set_dirs ({[done]} ∪ st_dirs s) s))
        as (ok & shown & s' & Hrun & Hs & Hsub & Hnew & Hres).
      cbn [st_dirs set_dirs st_files] in Hsub, Hnew, Hres.
      exists ok, shown, s'. rewrite <- (app_assoc done [c] todo) in Hres.
      split; [exact Hrun|].
      split; [rewrite Hs at 1; now destruct s|].
      split; [set_solver|].
      split.
      { intros d Hd. destruct (Hnew d Hd) as [H|H]; [|right; now right].
        apply elem_of_union in H as [H|H]; [|now left].
        apply elem_of_singleton in H as ->. right. now left. }
      destruct ok.
      * destruct Hres as (Hshown & Hall & Hagain). split; [exact Hshown|].
        split; [constructor; [set_solver | exact Hall]|].
        rewrite (bind_run _ _ s' true s'); [exact Hagain|].
        unfold is_dir_exist, gets. rewrite bool_decide_eq_true_2; [reflexivity | set_solver].
      * destruct Hres as [front [back [Hfb [Hfront [Hshown Hwhy]]]]].
        exists (done :: front), back. rewrite Hfb.
        split; [reflexivity|]. split; [constructor; [apply Hsub, elem_of_union_l, elem_of_singleton; reflexivity | exact Hfront]|].
        split; [exact Hshown|]. exact Hwhy.
Qed.

(** *** The copy loop on a payload that is all there *)

(** When the stream still holds the bytes of the payload and every
    [WriteFile] succeeds, the copy loop returns: it has appended the decoded
    payload to the file, byte for byte, whatever the length [len] of the
    working buffer is, it has taken exactly these bytes off the stream, and
    it has changed nothing else but the working buffer. *)
Lemma copy_payload_complete env h buf len :
  forall fuel payload s rest old content,
  0 < len -> Z.of_nat (length payload) < UINT32_MOD ->
  f_data (st_pakFile s) = payload ++ rest ->
  st_bufs s !! buf = Some old -> len <= Z.of_nat (length old) ->
  st_files s !! h = Some content ->
  (forall have n, write_ok env h have n = true) ->
  (length payload < fuel)%nat ->
  exists s',
    copy_payload fuel env h (Z.of_nat (length payload)) buf len s = Ret (true, s') /\
    st_pakFile s' = mkFILE rest (f_eof (st_pakFile s)) /\
    st_files s' = <[h := content ++ (decode_one_byte <$> payload)]> (st_files s) /\
    (forall q, q <> buf -> st_bufs s' !! q = st_bufs s !! q) /\
    (exists old', st_bufs s' !! buf = Some old' /\ length old' = length old) /\
    s' = set_files (st_files s') (set_bufs (st_bufs s') (set_pakFile (st_pakFile s') s)).
Proof.
  induction fuel as [|fuel IH];
    intros payload s rest old content Hlen Hsz Hd Hb Hold Hf Hw Hfuel; [lia|].
  cbn [copy_payload]. destruct (Z.ltb_spec 0 (Z.of_nat (length payload))) as [Hpos|Hzero].
  2:{ destruct payload; [|cbn [length] in Hzero; lia]. exists s.
      split; [reflexivity|]. cbn [app] in Hd. cbn [fmap list_fmap]. rewrite app_nil_r.
      split; [destruct (st_pakFile s); cbn in *; now subst|].
      split; [now rewrite insert_id|]. split; [auto|]. split; [eauto|].
      now destruct s. }
  unfold bind at 1. unfold load_buf at 1. rewrite Hb.
  unfold bind at 1. unfold pak_fread at 1. unfold fread.
  set (n := if Z.of_nat (length payload) <? len then Z.of_nat (length payload) else len).
  assert (Hn : 0 < n <= Z.of_nat (length payload))
    by (subst n; destruct (Z.ltb_spec (Z.of_nat (length payload)) len); lia).
  assert (Hnl : n <= len) by (subst n; destruct (Z.ltb_spec (Z.of_nat (length payload)) len); lia).
  rewrite Hd. rewrite take_app_le by lia. rewrite drop_app_le by lia.
  set (got := take (Z.to_nat n) payload).
  assert (Hgot : length got = Z.to_nat n) by (subst got; rewrite length_take; lia).
  rewrite Hgot, Z2Nat.id by lia. rewrite (u32_wrap_small n) by lia.
  unfold bind at 1. unfold store_buf at 1, modify at 1.
  unfold bind at 1. unfold WriteFile at 1.
  cbn [st_files set_bufs set_pakFile]. rewrite Hw. cbn [negb]. rewrite Hf. cbn [default from_option]. unfold id.
  assert (Hdec : take (Z.to_nat n) (decode_bytes (got ++ drop (Z.to_nat n) old) n)
                 = decode_one_byte <$> got).
  { unfold decode_bytes. rewrite <- Hgot at 2 3. rewrite take_app_length.
    rewrite take_app_length' by (now rewrite length_fmap). reflexivity. }
  rewrite Hdec.
  rewrite (u32_wrap_small (Z.of_nat (length payload) - n)) by lia.
  replace (Z.of_nat (length payload) - n) with (Z.of_nat (length (drop (Z.to_nat n) payload)))
    by (rewrite length_drop; lia).
  match goal with
  | |- exists s', copy_payload _ _ _ _ _ _ ?st = _ /\ _ => set (s1 := st)
  end.
  destruct (IH (drop (Z.to_nat n) payload) s1 rest
              (decode_bytes (got ++ drop (Z.to_nat n) old) n)
              (content ++ (decode_one_byte <$> got)))
    as (s' & Hrun & Hpak & Hfiles & Hbufs & (old' & Hbuf' & Hlold') & Hrest).
  - exact Hlen.
  - rewrite length_drop. lia.
  - reflexivity.
  - cbn [s1 st_bufs set_files set_bufs]. apply lookup_insert_eq.
  - unfold decode_bytes. rewrite length_app, length_fmap, length_take, length_drop.
    rewrite length_app, length_drop, Hgot. lia.
  - cbn [s1 st_files set_files]. apply lookup_insert_eq.
  - exact Hw.
  - rewrite length_drop. lia.
  - exists s'. split; [exact Hrun|].
    cbn [s1 st_pakFile st_files st_bufs set_files set_bufs set_pakFile f_eof] in Hpak, Hfiles, Hbufs, Hrest.
    split.
    { rewrite Hpak. f_equal.
      replace (Z.of_nat (length (payload ++ rest)) <? n) with false
        by (symmetry; apply Z.ltb_ge; rewrite length_app; lia).
      apply orb_false_r. }
    split.
    { rewrite Hfiles, insert_insert_eq. f_equal.
      rewrite <- app_assoc, <- fmap_app. subst got. now rewrite take_drop. }
    split.
    { intros q Hq. rewrite (Hbufs q Hq). apply lookup_insert_ne. congruence. }
    split.
    { exists old'. split; [exact Hbuf'|]. rewrite Hlold'.
      unfold decode_bytes. rewrite length_app, length_fmap, length_take, length_drop.
      rewrite length_app, length_drop, Hgot. lia. }
    rewrite Hrest at 1. reflexivity.
Qed.

(** The two calls in front of the copy loop. *)
Lemma create_parent_dirs_only_dirs env : forall todo done s r s',
  create_parent_dirs_from env done todo s = Ret (r, s') ->
  s' = set_dirs (st_dirs s') s /\ st_dirs s ⊆ st_dirs s'.
Proof.
  induction todo as [|c todo IH]; intros done s r s'; cbn [create_parent_dirs_from].
  - intros H. inversion H; subst. split; [now destruct s' | reflexivity].
  - destruct (c =? BACKSLASH); [|apply IH].
    unfold bind, is_dir_exist, gets.
    destruct (bool_decide _); [apply IH|].
    unfold CreateDirectory.
    destruct (_ || _ || _).
    + intros H. inversion H; subst. split; [now destruct s' | reflexivity].
    + intros H. apply IH in H. cbn [st_dirs set_dirs] in H. destruct H as [H1 H2].
      split; [rewrite H1 at 1; now destruct s|].
      intros d Hd. apply H2, elem_of_union_r, Hd.
Qed.

Lemma CreateFile_new env p s h s' :
  CreateFile env p s = Ret (Some h, s') ->
  h = p /\ (p ∉ st_dirs s) /\ st_files s !! p = None /\
  s' = set_files (<[p := []]> (st_files s)) s.
Proof.
  unfold CreateFile.
  destruct (bool_decide (p ∈ st_dirs s)) eqn:Hd; cbn [orb]; [discriminate|].
  destruct (bool_decide (is_Some (st_files s !! p))) eqn:Hf; cbn [orb]; [discriminate|].
  destruct (negb (create_ok env p)); [discriminate|].
  intros H. inversion H; subst.
  apply bool_decide_eq_false_1 in Hd, Hf.
  split; [reflexivity|]. split; [exact Hd|]. split; [|reflexivity].
  destruct (st_files s !! h); [exfalso; apply Hf; eauto | reflexivity].
Qed.

Lemma CreateFile_refused env p s s' :
  CreateFile env p s = Ret (None, s') ->
  s' = s /\ (p ∈ st_dirs s \/ is_Some (st_files s !! p) \/ create_ok env p = false).
Proof.
  unfold CreateFile.
  destruct (bool_decide (p ∈ st_dirs s)) eqn:Hd; cbn [orb].
  { intros H. inversion H; subst. apply bool_decide_eq_true_1 in Hd. auto. }
  destruct (bool_decide (is_Some (st_files s !! p))) eqn:Hf; cbn [orb].
  { intros H. inversion H; subst. apply bool_decide_eq_true_1 in Hf. auto. }
  destruct (create_ok env p); cbn [negb]; [discriminate|].
  intros H. inversion H; subst. auto.
Qed.

(** *** One record *)

(** A record whose payload is all there and whose file can be created, up
    to the call of [SetFileTime]: the state in front of that call. *)
Lemma record_payload_copied fuel env attr extractPath buf len
    s a name old payload rest shown s1 h s2 :
  st_attrs s !! attr = Some a ->
  st_bufs s !! fileName a = Some name ->
  st_bufs s !! buf = Some old -> 0 < len <= Z.of_nat (length old) ->
  let stored := build_complete_path (stray_byte env) extractPath name in
  Z.of_nat (length stored) <= MAX_PATH ->
  recursive_create_parent_dirs env (cstring stored) s = Ret ((true, shown), s1) ->
  CreateFile env (cstring stored) s1 = Ret (Some h, s2) ->
  (forall have n, write_ok env h have n = true) ->
  f_data (st_pakFile s) = payload ++ rest ->
  Z.of_nat (length payload) = fileSize a -> fileSize a < UINT32_MOD ->
  (length payload < fuel)%nat ->
  exists s3,
    parse_and_extract_one_file fuel env attr extractPath buf len s
      = bind (SetFileTime env h (lastWriteTime a))
          (fun set => if negb set then eprint ErrSetFileTime else ret tt) s3 /\
    h = cstring stored /\ st_files s !! h = None /\
    st_files s3 = <[h := decode_one_byte <$> payload]> (st_files s) /\
    st_pakFile s3 = mkFILE rest (f_eof (st_pakFile s)) /\
    st_dirs s3 = st_dirs s1 /\ st_times s3 = st_times s /\ st_stderr s3 = st_stderr s /\
    st_arena s3 = st_arena s /\ st_attrs s3 = st_attrs s /\ st_header s3 = st_header s /\
    st_list s3 = st_list s /\
    (forall q, q <> buf -> st_bufs s3 !! q = st_bufs s !! q) /\
    (exists old', st_bufs s3 !! buf = Some old' /\ length old' = length old).
Proof.
  intros Ha Hn Hb Hlen stored Hfit Hdirs Hcreate Hw Hd Hsz Hsz32 Hfuel.
  destruct (create_parent_dirs_only_dirs _ _ _ _ _ _ Hdirs) as [E1 _].
  destruct (CreateFile_new _ _ _ _ _ Hcreate) as (Hh & _ & Hnew & E2).
  assert (F1 : st_files s1 = st_files s) by (rewrite E1; reflexivity).
  destruct (copy_payload_complete env h buf len fuel payload s2 rest old [])
    as (s3 & Hcopy & Hpak3 & Hfiles3 & Hbufs3 & Hold3 & E3).
  - lia.
  - lia.
  - rewrite E2, E1. exact Hd.
  - rewrite E2, E1. exact Hb.
  - lia.
  - rewrite E2, Hh. cbn [st_files set_files]. apply lookup_insert_eq.
  - exact Hw.
  - exact Hfuel.
  - rewrite Hsz in Hcopy. exists s3. split.
    { unfold parse_and_extract_one_file.
      rewrite (bind_run _ _ s a s) by (unfold load_attr; now rewrite Ha).
      rewrite (bind_run _ _ s name s) by (unfold load_buf; now rewrite Hn).
      fold stored.
      replace (MAX_PATH <? Z.of_nat (length stored)) with false
        by (symmetry; apply Z.ltb_ge; lia).
      rewrite (bind_run _ _ _ _ _ Hdirs). cbn [negb].
      rewrite (bind_run _ _ _ _ _ Hcreate).
      now rewrite (bind_run _ _ _ _ _ Hcopy). }
    split; [exact Hh|]. split; [rewrite Hh, <- F1; exact Hnew|].
    split.
    { rewrite Hfiles3, E2, Hh. cbn [st_files set_files app].
      now rewrite insert_insert_eq, F1. }
    split; [rewrite Hpak3, E2, E1; reflexivity|].
    assert (R3 : st_dirs s3 = st_dirs s1 /\ st_times s3 = st_times s /\
                 st_stderr s3 = st_stderr s /\ st_arena s3 = st_arena s /\
                 st_attrs s3 = st_attrs s /\ st_header s3 = st_header s /\
                 st_list s3 = st_list s).
    { rewrite E3, E2. cbn. rewrite E1. cbn. repeat split. }
    destruct R3 as (D3 & T3 & S3 & A3 & At3 & H3 & L3).
    repeat (split; [assumption|]). split.
    + intros q Hq. rewrite (Hbufs3 q Hq), E2, E1. reflexivity.
    + exact Hold3.
Qed.

(** X9: a record whose payload is all there.  When its parent directories
    and its file can be created and the writes succeed, the call returns
    and the new file holds the decoded payload, byte for byte; exactly the
    payload is gone from the stream; the time of the record is set on the
    file, or [SetFileTime] has failed and that is the one message printed. *)
Theorem record_is_extracted fuel env attr extractPath buf len
    s a name old payload rest shown s1 h s2 :
  st_attrs s !! attr = Some a ->
  st_bufs s !! fileName a = Some name ->
  st_bufs s !! buf = Some old -> 0 < len <= Z.of_nat (length old) ->
  let stored := build_complete_path (stray_byte env) extractPath name in
  Z.of_nat (length stored) <= MAX_PATH ->
  recursive_create_parent_dirs env (cstring stored) s = Ret ((true, shown), s1) ->
  CreateFile env (cstring stored) s1 = Ret (Some h, s2) ->
  (forall have n, write_ok env h have n = true) ->
  f_data (st_pakFile s) = payload ++ rest ->
  Z.of_nat (length payload) = fileSize a -> fileSize a < UINT32_MOD ->
  (length payload < fuel)%nat ->
  exists s',
    parse_and_extract_one_file fuel env attr extractPath buf len s = Ret (tt, s') /\
    h = cstring stored /\ st_files s !! h = None /\
    st_files s' = <[h := decode_one_byte <$> payload]> (st_files s) /\
    st_pakFile s' = mkFILE rest (f_eof (st_pakFile s)) /\
    st_dirs s' = st_dirs s1 /\
    (if settime_ok env h
     then st_times s' = <[h := lastWriteTime a]> (st_times s) /\ st_stderr s' = st_stderr s
     else st_times s' = st_times s /\ st_stderr s' = st_stderr s ++ [ErrSetFileTime]) /\
    st_arena s' = st_arena s /\ st_attrs s' = st_attrs s /\ st_header s' = st_header s /\
    st_list s' = st_list s /\
    (forall q, q <> buf -> st_bufs s' !! q = st_bufs s !! q).
Proof.
  intros Ha Hn Hb Hlen stored Hfit Hdirs Hcreate Hw Hd Hsz Hsz32 Hfuel.
  destruct (record_payload_copied fuel env attr extractPath buf len s a name old payload rest
              shown s1 h s2 Ha Hn Hb Hlen Hfit Hdirs Hcreate Hw Hd Hsz Hsz32 Hfuel)
    as (s3 & Hrun & Hh & Hnew & Fl3 & P3 & D3 & T3 & S3 & A3 & At3 & H3 & L3 & B3 & _).
  rewrite Hrun. unfold bind, SetFileTime.
  destruct (settime_ok env h); cbn [negb].
  - eexists. split; [reflexivity|]. cbn.
    rewrite T3. repeat split; assumption.
  - eexists. split; [reflexivity|]. cbn.
    rewrite S3. repeat split; assumption.
Qed.

Lemma record_is_extracted_witness :
  let s := session_at_record all_ok 5 (encode [104; 101; 108; 108; 111] ++ [7]) in
  exists s',
    parse_and_extract_one_file 6 all_ok (0%nat, 0) ([111; 117; 116] ++ [0]) (1%nat, 0) 8192 s
      = Ret (tt, s') /\
    st_files s' = <[out_a := decode_one_byte <$> encode [104; 101; 108; 108; 111]]> ∅ /\
    st_pakFile s' = mkFILE [7] false /\
    st_times s' = <[out_a := a_time]> ∅ /\ st_stderr s' = [].
Proof.
  cbv zeta.
  edestruct (record_is_extracted 6 all_ok (0%nat, 0) ([111; 117; 116] ++ [0]) (1%nat, 0) 8192
               (session_at_record all_ok 5 (encode [104; 101; 108; 108; 111] ++ [7]))
               (mkFileAttr (0%nat, 32) 5 a_time None) [97; 0] (fresh_bytes all_ok 8192)
               (encode [104; 101; 108; 108; 111]) [7])
    as (s' & Hrun & Hh & _ & Hfiles & Hpak & _ & Htime & _).
  - reflexivity.
  - reflexivity.
  - reflexivity.
  - vm_compute. split; [reflexivity | congruence].
  - vm_compute. congruence.
  - vm_compute. reflexivity.
  - vm_compute. reflexivity.
  - intros have n. reflexivity.
  - reflexivity.
  - reflexivity.
  - reflexivity.
  - simpl. lia.
  - exists s'. split; [exact Hrun|]. split; [exact Hfiles|]. split; [exact Hpak|]. exact Htime.
Defined.

(** *** A record that is skipped *)

(** X10: a record whose parent directories or whose file cannot be created
    is skipped with one message, which names the parent that failed or the
    file.  Nothing is read from the stream for it, so its payload stays in
    front of the next record; no file is created or changed. *)
Theorem skipped_record_reads_nothing fuel env attr extractPath buf len
    s a name ok shown s1 :
  st_attrs s !! attr = Some a ->
  st_bufs s !! fileName a = Some name ->
  let stored := build_complete_path (stray_byte env) extractPath name in
  Z.of_nat (length stored) <= MAX_PATH ->
  recursive_create_parent_dirs env (cstring stored) s = Ret ((ok, shown), s1) ->
  (ok = true -> exists s2, CreateFile env (cstring stored) s1 = Ret (None, s2)) ->
  parse_and_extract_one_file fuel env attr extractPath buf len s
    = Ret (tt, set_stderr
                 (st_stderr s ++ [if ok then ErrCreateFile (cstring stored)
                                  else ErrParentDirs shown])
                 (set_dirs (st_dirs s1) s)) /\
  st_dirs s ⊆ st_dirs s1 /\
  (ok = true ->
   cstring stored ∈ st_dirs s1 \/ is_Some (st_files s !! cstring stored) \/
   create_ok env (cstring stored) = false).
Proof.
  intros Ha Hn stored Hfit Hdirs Hcreate.
  destruct (create_parent_dirs_only_dirs _ _ _ _ _ _ Hdirs) as [E1 Hsub].
  split; [|split; [exact Hsub|]].
  - unfold parse_and_extract_one_file.
    rewrite (bind_run _ _ s a s) by (unfold load_attr; now rewrite Ha).
    rewrite (bind_run _ _ s name s) by (unfold load_buf; now rewrite Hn).
    fold stored.
    replace (MAX_PATH <? Z.of_nat (length stored)) with false
      by (symmetry; apply Z.ltb_ge; lia).
    rewrite (bind_run _ _ _ _ _ Hdirs).
    destruct ok; cbn [negb].
    + destruct (Hcreate eq_refl) as [s2 Hc].
      destruct (CreateFile_refused _ _ _ _ Hc) as [-> _].
      rewrite (bind_run _ _ _ _ _ Hc).
      unfold eprint, modify. rewrite E1 at 1 2. reflexivity.
    + unfold eprint, modify. rewrite E1 at 1 2. reflexivity.
  - intros ->. destruct (Hcreate eq_refl) as [s2 Hc].
    destruct (CreateFile_refused _ _ _ _ Hc) as [_ Hwhy].
    rewrite E1 in Hwhy. exact Hwhy.
Qed.

Lemma skipped_record_reads_nothing_witness :
  let s := set_files {[ out_a := [88] ]} (session_at_record all_ok 1 (encode [89; 90])) in
  parse_and_extract_one_file 2 all_ok (0%nat, 0) ([111; 117; 116] ++ [0]) (1%nat, 0) 8192 s
    = Ret (tt, set_stderr [ErrCreateFile out_a] (set_dirs {[ [111; 117; 116] ]} s)).
Proof.
  cbv zeta.
  refine (proj1 (skipped_record_reads_nothing 2 all_ok (0%nat, 0) ([111; 117; 116] ++ [0])
            (1%nat, 0) 8192
            (set_files {[ out_a := [88] ]} (session_at_record all_ok 1 (encode [89; 90])))
            (mkFileAttr (0%nat, 32) 1 a_time None) [97; 0] true out_a
            (set_dirs {[ [111; 117; 116] ]}
               (set_files {[ out_a := [88] ]} (session_at_record all_ok 1 (encode [89; 90]))))
            eq_refl eq_refl _ _ _)).
  - vm_compute. congruence.
  - vm_compute. reflexivity.
  - intros _. eexists. vm_compute. reflexivity.
Defined.

(** *** What the extraction never does *)

Lemma only_added_refl s : only_added 0 s s.
Proof.
  repeat split; auto. exists []. now rewrite app_nil_r.
Qed.

Lemma only_added_trans n m s1 s2 s3 :
  only_added n s1 s2 -> only_added m s2 s3 -> only_added (n + m) s1 s3.
Proof.
  intros (F1 & D1 & (m1 & S1 & L1) & A1 & At1 & H1 & Li1)
         (F2 & D2 & (m2 & S2 & L2) & A2 & At2 & H2 & Li2).
  split; [|split; [|split; [|repeat split; congruence]]].
  - intros p c Hp. destruct (F1 p c Hp) as [Hp1 Ht1]. destruct (F2 p c Hp1) as [Hp2 Ht2].
    split; [exact Hp2 | congruence].
  - intros d Hd. apply D2, D1, Hd.
  - exists (m1 ++ m2). rewrite S2, S1, app_assoc, length_app. split; [reflexivity | lia].
Qed.

Lemma only_added_weaken n m s s' : (n <= m)%nat -> only_added n s s' -> only_added m s s'.
Proof.
  intros Hnm (F & D & (ms & S & L) & R). split; [exact F|]. split; [exact D|].
  split; [exists ms; split; [exact S | lia] | exact R].
Qed.

(** The copy loop touches the file of its handle only. *)
Lemma copy_payload_frame env h buf len : forall fuel fileSize s b s',
  copy_payload fuel env h fileSize buf len s = Ret (b, s') ->
  (forall p, p <> h -> st_files s' !! p = st_files s !! p) /\
  st_dirs s' = st_dirs s /\ st_times s' = st_times s /\
  st_stderr s' = st_stderr s ++ (if b then [] else [ErrWriteFile]) /\
  st_arena s' = st_arena s /\ st_attrs s' = st_attrs s /\
  st_header s' = st_header s /\ st_list s' = st_list s.
Proof.
  induction fuel as [|fuel IH]; intros fileSize s b s'; [discriminate|].
  cbn [copy_payload]. destruct (0 <? fileSize).
  2:{ intros H. inversion H; subst. rewrite app_nil_r. repeat split. }
  unfold bind at 1. unfold load_buf at 1. destruct (st_bufs s !! buf); [|discriminate].
  unfold bind at 1. unfold pak_fread at 1.
  destruct (fread _ _ _) as [[new cnt] f].
  unfold bind at 1. unfold store_buf at 1, modify at 1.
  unfold bind at 1. unfold WriteFile at 1.
  destruct (write_ok env h _ _); cbn [negb].
  - intros H. apply IH in H.
    cbn [st_files st_dirs st_times st_stderr st_arena st_attrs st_header st_list
         set_files set_bufs set_pakFile] in H.
    destruct H as (Hf & Hrest). split; [|exact Hrest].
    intros p Hp. rewrite (Hf p Hp). apply lookup_insert_ne. congruence.
  - unfold bind, eprint, modify, ret. intros H. inversion H; subst. cbn. repeat split.
Qed.

(** One record: whatever becomes of it, nothing that was there is lost. *)
Lemma parse_and_extract_one_file_only_adds fuel env attr root buf len s s' :
  parse_and_extract_one_file fuel env attr root buf len s = Ret (tt, s') ->
  only_added 1 s s'.
Proof.
  unfold parse_and_extract_one_file.
  unfold bind at 1. unfold load_attr at 1. destruct (st_attrs s !! attr) as [a|]; [|discriminate].
  unfold bind at 1. unfold load_buf at 1.
  destruct (st_bufs s !! fileName a) as [name|]; [|discriminate].
  destruct (MAX_PATH <? _); [discriminate|].
  set (dest := cstring _).
  unfold bind at 1.
  destruct (recursive_create_parent_dirs env dest s) as [[[ok shown] s1]| | |] eqn:Hdirs;
    try discriminate.
  destruct (create_parent_dirs_only_dirs _ _ _ _ _ _ Hdirs) as [E1 Hsub].
  assert (H1 : only_added 0 s s1).
  { rewrite E1. cbn. repeat split; auto. exists []. now rewrite app_nil_r. }
  destruct ok; cbn [negb].
  2:{ unfold eprint, modify. intros H. inversion H; subst.
      apply (only_added_trans 0 1 s s1); [exact H1|].
      cbn. repeat split; auto. exists [ErrParentDirs shown]. split; [reflexivity | cbn; lia]. }
  unfold bind at 1.
  destruct (CreateFile env dest s1) as [[[h|] s2]| | |] eqn:Hcreate; try discriminate.
  2:{ destruct (CreateFile_refused _ _ _ _ Hcreate) as [-> _].
      unfold eprint, modify. intros H. inversion H; subst.
      apply (only_added_trans 0 1 s s1); [exact H1|].
      cbn. repeat split; auto. exists [ErrCreateFile dest]. split; [reflexivity | cbn; lia]. }
  destruct (CreateFile_new _ _ _ _ _ Hcreate) as (-> & _ & Hnew & E2).
  assert (H2 : forall (p : path) c, st_files s1 !! p = Some c -> p <> dest)
    by (intros p c Hp Heq; rewrite Heq, Hnew in Hp; discriminate).
  unfold bind at 1.
  destruct (copy_payload fuel env dest (fileSize a) buf len s2) as [[b s3]| | |] eqn:Hcopy;
    try discriminate.
  destruct (copy_payload_frame _ _ _ _ _ _ _ _ _ Hcopy)
    as (F3 & D3 & T3 & S3 & A3 & At3 & Hd3 & L3).
  rewrite E2 in F3, D3, T3, S3, A3, At3, Hd3, L3.
  cbn [st_files st_dirs st_times st_stderr st_arena st_attrs st_header st_list set_files]
    in F3, D3, T3, S3, A3, At3, Hd3, L3.
  assert (H3 : forall p c, st_files s1 !! p = Some c -> st_files s3 !! p = Some c).
  { intros p c Hp. rewrite (F3 p (H2 p c Hp)).
    rewrite lookup_insert_ne by (intros Heq; apply (H2 p c Hp); now symmetry). exact Hp. }
  intros Hrun. apply (only_added_trans 0 1 s s1); [exact H1|].
  assert (Hend : forall tm msgs, (length msgs <= 1)%nat ->
            (forall p c, st_files s1 !! p = Some c -> tm !! p = st_times s1 !! p) ->
            only_added 1 s1 (set_stderr (st_stderr s1 ++ msgs) (set_times tm s3))).
  { intros tm msgs Hm Htm. unfold only_added.
    cbn [st_files st_dirs st_times st_stderr st_arena st_attrs st_header st_list
         set_stderr set_times].
    split; [intros p c Hp; split; [now apply H3 | now apply (Htm p c)]|].
    split; [now rewrite D3|]. split; [exists msgs; auto | auto]. }
  destruct b.
  - rewrite app_nil_r in S3. unfold bind, SetFileTime in Hrun.
    destruct (settime_ok env dest); cbn [negb] in Hrun; inversion Hrun; subst.
    + replace (set_times (<[dest := lastWriteTime a]> (st_times s3)) s3)
        with (set_stderr (st_stderr s1 ++ []) (set_times (<[dest := lastWriteTime a]> (st_times s3)) s3))
        by (rewrite app_nil_r, <- S3; now destruct s3).
      apply Hend; [cbn; lia|]. intros p c Hp.
      rewrite lookup_insert_ne by (intros Heq; apply (H2 p c Hp); now symmetry).
      now rewrite T3.
    + unfold set_stderr at 1. cbn [st_stderr set_stderr]. rewrite S3.
      replace (mkState (st_arena s3) (st_pakFile s3) (st_list s3) (st_header s3) (st_attrs s3)
                 (st_bufs s3) (st_dirs s3) (st_files s3) (st_times s3)
                 (st_stderr s1 ++ [ErrSetFileTime]))
        with (set_stderr (st_stderr s1 ++ [ErrSetFileTime]) (set_times (st_times s3) s3))
        by reflexivity.
      apply Hend; [cbn; lia|]. intros p c Hp. now rewrite T3.
  - inversion Hrun; subst.
    replace s' with (set_stderr (st_stderr s1 ++ [ErrWriteFile]) (set_times (st_times s') s'))
      by (rewrite <- S3; now destruct s').
    apply Hend; [cbn; lia|]. intros p c Hp. now rewrite T3.
Qed.

(** X11: the extraction loop only adds.  Whatever the records are and
    whatever fails on the way, when [extract_files] has gone through the
    list every file that existed before has its contents and its time,
    every directory is still there, at most one message per record was
    printed, and the record list in the pool is as it was. *)
Theorem extraction_only_adds env root buf len ps : forall fuel h s s',
  chain (st_attrs s) h ps ->
  extract_files_from fuel env h root buf len s = Ret (tt, s') ->
  only_added (length ps) s s'.
Proof.
  induction ps as [|p ps IH]; intros fuel h s s' Hc Hrun.
  - cbn in Hc. subst h. cbn in Hrun. destruct fuel; inversion Hrun; subst; apply only_added_refl.
  - destruct Hc as (-> & a & Ha & Hc).
    destruct fuel as [|fuel]; [discriminate|].
    cbn [extract_files_from] in Hrun. unfold bind at 1 in Hrun.
    destruct (parse_and_extract_one_file _ _ _ _ _ _ s) as [[[] s1]| | |] eqn:Hone;
      try discriminate.
    pose proof (parse_and_extract_one_file_only_adds _ _ _ _ _ _ _ _ Hone) as H1.
    destruct H1 as (F1 & D1 & M1 & A1 & At1 & Hd1 & L1).
    unfold bind at 1, load_attr at 1 in Hrun. rewrite At1, Ha in Hrun.
    apply IH in Hrun; [|now rewrite At1].
    change (length (p :: ps)) with (1 + length ps)%nat.
    apply (only_added_trans 1 (length ps) s s1 s'); [|exact Hrun].
    exact (conj F1 (conj D1 (conj M1 (conj A1 (conj At1 (conj Hd1 L1)))))).
Qed.

Lemma extraction_only_adds_witness :
  let s := set_files {[ out_a := [88] ]} (session_at_record all_ok 1 (encode [89; 90])) in
  let s' := set_stderr [ErrCreateFile out_a] (set_dirs {[ [111; 117; 116] ]} s) in
  extract_files_from 2 all_ok (Some (0%nat, 0)) ([111; 117; 116] ++ [0]) (1%nat, 0) 8192 s
    = Ret (tt, s') /\
  only_added 1 s s'.
Proof.
  cbv zeta.
  assert (E : extract_files_from 2 all_ok (Some (0%nat, 0)) ([111; 117; 116] ++ [0])
                (1%nat, 0) 8192
                (set_files {[ out_a := [88] ]} (session_at_record all_ok 1 (encode [89; 90])))
              = Ret (tt, set_stderr [ErrCreateFile out_a]
                           (set_dirs {[ [111; 117; 116] ]}
                              (set_files {[ out_a := [88] ]}
                                 (session_at_record all_ok 1 (encode [89; 90]))))))
    by (vm_compute; reflexivity).
  split; [exact E|].
  refine (extraction_only_adds all_ok _ _ _ [(0%nat, 0)] _ _ _ _ _ E).
  split; [reflexivity|]. eexists. split; [reflexivity|]. reflexivity.
Defined.


(** ** Further properties of the whole run *)

(** *** The list of names *)

(** The loop of [save_file_name_list] over the nodes [ps]. *)
Lemma name_list_lines ps : forall rs h fuel s,
  chain (st_attrs s) h ps -> Forall2 (stored s) ps rs -> (length ps <= fuel)%nat ->
  save_file_name_list_from fuel h s
    = Ret (tt, set_list (st_list s ++ ((fun r => (cstring r.1.1, r.1.2)) <$> rs)) s).
Proof.
  induction ps as [|p ps IH]; intros rs h fuel s Hc Hs Hf.
  - simpl in Hc. subst h. inversion Hs; subst. cbn [fmap list_fmap]. rewrite app_nil_r.
    destruct fuel, s; reflexivity.
  - destruct Hc as (-> & a & Ha & Hc). inversion Hs as [|? r ? rs' Hp Hrest]; subst.
    destruct fuel as [|fuel]; [simpl in Hf; lia|].
    destruct Hp as (a' & Ha' & Hb & Hsz & _). assert (a' = a) as -> by congruence.
    cbn [save_file_name_list_from].
    rewrite (bind_run _ _ s a s) by (unfold load_attr; now rewrite Ha).
    rewrite (bind_run _ _ s r.1.1 s) by (unfold load_buf; now rewrite Hb).
    unfold bind at 1, modify at 1.
    rewrite (IH rs' (next a) fuel (set_list (st_list s ++ [(cstring r.1.1, fileSize a)]) s));
      [ | exact Hc | exact Hrest | simpl in Hf; lia ].
    cbn [st_list set_list fmap list_fmap]. rewrite <- app_assoc, Hsz. reflexivity.
Qed.

(** *** A container whose records do not collide *)

(** Where no parent directory is a file and [CreateDirectory] is never
    refused, all parent directories exist afterwards. *)
Lemma create_parent_dirs_succeeds env todo : forall done s,
  (forall p, mkdir_ok env p = true) ->
  Forall (fun d => st_files s !! d = None) (dir_prefixes done todo) ->
  exists s',
    create_parent_dirs_from env done todo s = Ret ((true, done ++ todo), s') /\
    s' = set_dirs (st_dirs s') s /\
    (forall d, d ∈ st_dirs s' <-> d ∈ st_dirs s \/ d ∈ dir_prefixes done todo).
Proof.
  induction todo as [|c todo IH]; intros done s Hmk Hfree; cbn [create_parent_dirs_from].
  - exists s. rewrite app_nil_r. split; [reflexivity|]. split; [now destruct s|].
    intros d. cbn [dir_prefixes]. rewrite elem_of_nil. tauto.
  - cbn [dir_prefixes] in Hfree |- *. destruct (c =? BACKSLASH); cbn [app] in Hfree |- *.
    2:{ destruct (IH (done ++ [c]) s Hmk Hfree) as (s' & Hrun & Hs & Hd).
        exists s'. rewrite <- (app_assoc done [c] todo) in Hrun. auto. }
    apply Forall_cons in Hfree as [Hdone Hfree].
    destruct (decide (done ∈ st_dirs s)) as [Hin|Hnin].
    + rewrite (bind_run _ _ s true s)
        by (unfold is_dir_exist, gets; now rewrite bool_decide_eq_true_2).
      cbv iota.
      destruct (IH (done ++ [c]) s Hmk Hfree) as (s' & Hrun & Hs & Hd).
      exists s'. rewrite <- (app_assoc done [c] todo) in Hrun.
      split; [exact Hrun|]. split; [exact Hs|].
      intros d. rewrite Hd, elem_of_cons. split; [tauto|].
      intros [H|[->|H]]; auto.
    + rewrite (bind_run _ _ s false s)
        by (unfold is_dir_exist, gets; now rewrite bool_decide_eq_false_2).
      cbv iota.
      rewrite (bind_run _ _ s true (set_dirs ({[done]} ∪ st_dirs s) s)).
      2:{ unfold CreateDirectory. rewrite bool_decide_eq_false_2 by exact Hnin.
          rewrite bool_decide_eq_false_2 by (rewrite Hdone; intros [x Hx]; discriminate).
          now rewrite Hmk. }
      destruct (IH (done ++ [c]) (set_dirs ({[done]} ∪ st_dirs s) s) Hmk Hfree)
        as (s' & Hrun & Hs & Hd).
      exists s'. rewrite <- (app_assoc done [c] todo) in Hrun.
      split; [exact Hrun|]. split; [rewrite Hs at 1; now destruct s|].
      intros d. rewrite Hd, elem_of_cons. cbn [st_dirs set_dirs].
      rewrite elem_of_union, elem_of_singleton. tauto.
Qed.

Lemma CreateFile_succeeds env p s :
  p ∉ st_dirs s -> st_files s !! p = None -> create_ok env p = true ->
  CreateFile env p s = Ret (Some p, set_files (<[p := []]> (st_files s)) s).
Proof.
  intros Hd Hf Hc. unfold CreateFile.
  rewrite bool_decide_eq_false_2 by exact Hd.
  rewrite bool_decide_eq_false_2 by (rewrite Hf; intros [x Hx]; discriminate).
  now rewrite Hc.
Qed.

Lemma declared_size_nonneg es : Forall entry_ok es -> 0 <= declared_size es.
Proof.
  induction 1 as [|e es (_ & _ & _ & _ & He & _) _ IH]; cbn; [lia|].
  unfold declared_size in IH. lia.
Qed.

(** The loop of [extract_files] over records that do not collide, with all
    payloads in the stream and an operating system that refuses nothing. *)
Lemma extract_files_from_complete env root buf len : forall es ps h fuel s payload old,
  (forall p, mkdir_ok env p = true) -> (forall p, create_ok env p = true) ->
  (forall p have n, write_ok env p have n = true) -> (forall p, settime_ok env p = true) ->
  0 < len <= Z.of_nat (length old) -> st_bufs s !! buf = Some old ->
  chain (st_attrs s) h ps -> Forall2 (stored s) ps (record_of <$> es) ->
  (forall p a, p ∈ ps -> st_attrs s !! p = Some a -> fileName a <> buf) ->
  Forall entry_ok es -> Forall (path_fits env root) es ->
  f_data (st_pakFile s) = payload -> declared_size es <= Z.of_nat (length payload) ->
  (length es + length payload < fuel)%nat ->
  conflict_free env root (st_dirs s) (st_files s) es ->
  exists s',
    extract_files_from fuel env h (root ++ [0]) buf len s = Ret (tt, s') /\
    st_stderr s' = st_stderr s /\ st_list s' = st_list s /\
    Forall2 (fun e bytes => st_files s' !! destination env root e = Some bytes /\
                            st_times s' !! destination env root e = Some (e_time e))
            es (declared_payloads es payload) /\
    (forall p, p ∉ destination env root <$> es ->
       st_files s' !! p = st_files s !! p /\ st_times s' !! p = st_times s !! p) /\
    (forall d, d ∈ st_dirs s' <->
       d ∈ st_dirs s \/ exists e, e ∈ es /\ d ∈ dir_prefixes [] (destination env root e)).
Proof.
  induction es as [|e es IH];
    intros ps h fuel s payload old Hmk Hcr Hw Hst Hlen Hbuf Hc Hs Hne Hok Hfits Hd Hsize
           Hfuel [Hnd Hclear].
  - clear Hd. inversion Hs; subst. cbn in Hc. subst h. exists s.
    split; [now destruct fuel|]. split; [reflexivity|]. split; [reflexivity|].
    split; [constructor|]. split; [auto|].
    intros d. split; [auto|]. intros [H|(e & He & _)]; [exact H|]. now apply elem_of_nil in He.
  - cbn [fmap list_fmap] in Hs. revert Hd Hsize Hfuel.
    inversion Hs as [|p r ps' rs' Hp Hrest]; subst. intros Hd Hsize Hfuel.
    destruct Hc as (-> & a & Ha & Hc).
    destruct fuel as [|fuel]; [simpl in Hfuel; lia|].
    destruct Hp as (a' & Ha' & Hb & Hsz & Htm). assert (a' = a) as -> by congruence.
    cbn [record_of fst snd] in Hb, Hsz, Htm.
    apply Forall_cons in Hok as [He Hok]. apply Forall_cons in Hfits as [Hfit Hfits].
    apply Forall_cons in Hclear as [(Hfile & Hdir & Hpar & Hnotpar) Hclear].
    cbn [fmap list_fmap] in Hnd. apply NoDup_cons in Hnd as [Hfresh Hnd].
    pose proof (declared_size_nonneg es Hok) as Hrest_nonneg.
    destruct He as (_ & _ & _ & _ & He32 & _).
    unfold declared_size in Hsize. cbn [foldr] in Hsize. fold (declared_size es) in Hsize.
    set (dest := destination env root e) in *.
    set (n := Z.to_nat (e_size e)).
    (* the parent directories *)
    destruct (create_parent_dirs_succeeds env dest [] s Hmk Hpar) as (s1 & Hdirs & Hs1 & Hd1).
    cbn [app] in Hdirs.
    assert (Hf1 : st_files s1 = st_files s) by (rewrite Hs1; reflexivity).
    (* the file *)
    assert (Hcreate : CreateFile env dest s1
                      = Ret (Some dest, set_files (<[dest := []]> (st_files s1)) s1)).
    { apply CreateFile_succeeds; [|now rewrite Hf1|apply Hcr].
      rewrite Hd1. intros [H|H]; [exact (Hdir H)|].
      apply Forall_cons in Hnotpar as [Hself _]. exact (Hself H). }
    (* the payload *)
    destruct (record_payload_copied (S fuel) env p (root ++ [0]) buf len s a (e_name e ++ [0]) old
                (take n payload) (drop n payload) dest s1 dest _
                Ha Hb Hbuf Hlen Hfit Hdirs Hcreate (Hw dest))
      as (s3 & Hrun & _ & _ & Fl3 & P3 & D3 & T3 & S3 & A3 & At3 & H3 & L3 & B3 & (old' & Bb3 & Hold'));
      [ rewrite Hd; now rewrite take_drop
      | rewrite length_take; subst n; lia
      | lia
      | rewrite length_take; simpl in Hfuel; lia |].
    set (s4 := set_times (<[dest := lastWriteTime a]> (st_times s3)) s3).
    assert (Hone : parse_and_extract_one_file (S fuel) env p (root ++ [0]) buf len s
                   = Ret (tt, s4)).
    { rewrite Hrun. unfold bind, SetFileTime. now rewrite Hst. }
    cbn [extract_files_from]. rewrite (bind_run _ _ _ _ _ Hone).
    rewrite (bind_run _ _ s4 a s4) by (unfold load_attr; cbn [s4 st_attrs set_times]; now rewrite At3, Ha).
    assert (Hafter : after_copy buf (fileSize a) s s4).
    { unfold after_copy. cbn [s4 st_arena st_header st_attrs st_bufs st_pakFile set_times].
      rewrite A3, H3, At3, P3, Hd. cbn [f_data]. rewrite length_drop.
      repeat split; try reflexivity; [exact B3 | eauto | lia | lia]. }
    destruct (IH ps' (next a) fuel s4 (drop n payload) old' Hmk Hcr Hw Hst)
      as (s' & Hloop & Hserr & Hslist & Hall & Hother & Hdirs');
      [ lia | exact Bb3 | cbn [s4 st_attrs set_times]; now rewrite At3 | | | exact Hok
      | exact Hfits | cbn [s4 st_pakFile set_times]; now rewrite P3
      | rewrite length_drop; subst n; lia | rewrite length_drop; simpl in Hfuel; lia | | ].
    + eapply Forall2_stored_after_copy; [exact Hafter | | exact Hrest].
      intros q aq Hq Haq. apply (Hne q aq); [now right | exact Haq].
    + intros q aq Hq Haq. cbn [s4 st_attrs set_times] in Haq. rewrite At3 in Haq.
      apply (Hne q aq); [now right | exact Haq].
    + split; [exact Hnd|]. apply Forall_forall. intros e' He'.
      rewrite Forall_forall in Hclear. destruct (Hclear e' He') as (Hfile' & Hdir' & Hpar' & Hnotpar').
      cbn [s4 st_files st_dirs set_times]. rewrite Fl3, D3.
      assert (Hdd : destination env root e' <> dest).
      { intros Heq. apply Hfresh. rewrite <- Heq. apply list_elem_of_fmap. eauto. }
      split; [rewrite lookup_insert_ne by congruence; exact Hfile'|].
      apply Forall_cons in Hnotpar' as [Hnot_e Hnot_es].
      split; [rewrite Hd1; intros [H|H]; [exact (Hdir' H) | exact (Hnot_e H)]|].
      split; [|exact Hnot_es].
      apply Forall_forall. intros d Hdin. rewrite Forall_forall in Hpar'.
      rewrite lookup_insert_ne; [exact (Hpar' d Hdin)|].
      intros Heq. apply Forall_cons in Hnotpar as [_ Hnotpar].
      rewrite Forall_forall in Hnotpar. apply (Hnotpar e' He'). now rewrite Heq.
    + exists s'. split; [exact Hloop|].
      cbn [s4 st_stderr st_list st_files st_times st_dirs set_times] in Hserr, Hslist, Hother, Hdirs'.
      split; [now rewrite Hserr, S3|]. split; [now rewrite Hslist, L3|].
      split; [|split].
      * cbn [declared_payloads]. constructor; [|exact Hall].
        cbv beta. fold dest.
        destruct (Hother dest Hfresh) as [Hf Ht]. rewrite Hf, Ht, Fl3.
        rewrite !lookup_insert_eq, Htm. split; reflexivity.
      * intros q Hq. cbn [fmap list_fmap] in Hq. apply not_elem_of_cons in Hq as [Hq1 Hq2].
        destruct (Hother q Hq2) as [Hf Ht]. rewrite Hf, Ht, Fl3, T3.
        rewrite !lookup_insert_ne by (intros Heq; apply Hq1; symmetry; exact Heq).
        split; reflexivity.
      * intros d. rewrite Hdirs', D3, Hd1. split.
        -- intros [[H|H]|(e' & He' & H)]; [now left | right | right].
           ++ exists e. split; [left | exact H].
           ++ exists e'. split; [now right | exact H].
        -- intros [H|(e' & He' & H)]; [now left; left|].
           apply elem_of_cons in He' as [->|He']; [left; now right | right; eauto].
Qed.

(** [main] on a container with a well-formed table, up to the loop of
    [extract_files]: the list of names is written, the working buffer is
    allocated, and nothing is extracted yet. *)
Lemma main_reaches_extraction env prog pak root dirs files mg vs es payload fuel :
  (forall n z, malloc_ok env n z = true) -> fopen_w_ok env filenames_txt = true ->
  root ∉ dirs ->
  files !! pak = Some (mg ++ vs ++ record_table es ++ payload) ->
  length mg = 4%nat -> length vs = 4%nat ->
  Forall entry_ok es -> Z.of_nat (length es) < SIZE_MOD -> (length es < fuel)%nat ->
  exists s4 ps buf,
    main fuel env [prog; pak; root] (initial_state env dirs files)
      = bind (extract_files_from fuel env (fl_head (flist (st_header s4))) (root ++ [0]) buf 8192)
          (fun _ => ret 0) s4 /\
    chain (st_attrs s4) (fl_head (flist (st_header s4))) ps /\
    Forall2 (stored s4) ps (record_of <$> es) /\
    (forall p a, p ∈ ps -> st_attrs s4 !! p = Some a -> fileName a <> buf) /\
    st_bufs s4 !! buf = Some (fresh_bytes env 8192) /\
    st_pakFile s4 = mkFILE payload false /\
    st_list s4 = list_line <$> es /\
    st_dirs s4 = dirs /\ st_files s4 = files /\ st_times s4 = ∅ /\ st_stderr s4 = [].
Proof.
  intros Hm Hw Hroot Hpak Hmg Hvs Hok Hlen Hfuel.
  destruct (session_reads_header env dirs files pak mg vs (record_table es ++ payload) fuel
              (Hm _ _) (Hm _ _) Hw Hmg Hvs Hpak) as (s1 & Hinit & Hhdr).
  destruct (parse_all_file_attrs_table env es
              (session_before_table dirs files mg vs (record_table es ++ payload)) [] fuel payload
              Hm (session_before_table_inv _ _ _ _ _))
    as (s2 & ps & Hrun & (Hsmall & [Hha Hhb] & Hfl) & Hpak2 & Hst & _ & Hworld);
    [cbn [length]; lia | reflexivity | reflexivity | exact Hok | exact Hfuel |].
  cbn [app] in Hfl. destruct Hfl as (Hc & _).
  destruct Hworld as (Wl & Wd & Wf & Wt & Ws & _).
  cbn [session_before_table st_list st_dirs st_files st_times st_stderr] in Wl, Wd, Wf, Wt, Ws.
  pose proof (Forall2_length _ _ _ Hst) as Hlps. rewrite length_fmap in Hlps.
  rewrite (main_after_parsing env prog pak root dirs files fuel s1 s2 Hroot Hinit)
    by (now rewrite Hhdr).
  (* the list of names *)
  set (s3 := set_list (list_line <$> es) s2).
  assert (Hsave : save_file_name_list fuel s2 = Ret (tt, s3)).
  { unfold save_file_name_list. rewrite (bind_run _ _ s2 (st_header s2) s2) by reflexivity.
    rewrite (name_list_lines ps (record_of <$> es) _ fuel s2 Hc Hst) by lia.
    rewrite Wl. cbn [app]. rewrite <- list_fmap_compose. reflexivity. }
  rewrite (bind_run _ _ _ _ _ Hsave).
  (* the working buffer *)
  destruct (arena_malloc_returns env (st_arena s2) (size_wrap (8192 * 1)) Hm)
    as (buf & a' & Hbuf).
  assert (Hsz : 0 < size_wrap (8192 * 1) < 2 ^ 63) by (vm_compute; split; reflexivity).
  destruct (allocated_new _ _ _ _ _ Hsmall Hsz Hbuf) as [_ Hfresh].
  set (s4 := set_bufs (<[buf := fresh_bytes env 8192]> (st_bufs s3)) (set_arena a' s3)).
  assert (Hall : extract_files fuel env (root ++ [0]) s3
                 = extract_files_from fuel env (fl_head (flist (st_header s4))) (root ++ [0])
                     buf 8192 s4).
  { unfold extract_files.
    rewrite (bind_run _ _ s3 (st_header s2) s3) by reflexivity.
    rewrite (bind_run _ _ s3 buf (set_arena a' s3)).
    2:{ unfold res_arena_malloc. cbn [s3 st_arena set_list]. now rewrite Hbuf. }
    rewrite (bind_run _ _ _ tt s4) by reflexivity.
    reflexivity. }
  exists s4, ps, buf. split; [unfold bind at 1; rewrite Hall; reflexivity|].
  split; [exact Hc|]. split.
  { eapply Forall2_impl; [exact Hst|]. intros p r (a & Ha & Hb & Hrest).
    exists a. split; [exact Ha|]. split; [|exact Hrest].
    cbn [s4 s3 st_bufs set_bufs set_list set_arena]. rewrite lookup_insert_ne; [exact Hb|].
    intros Heq. apply Hfresh. rewrite Heq. apply Hhb. eauto. }
  split.
  { intros p a Hp Ha Heq. apply Hfresh. rewrite <- Heq.
    destruct (Forall2_stored_elem _ _ _ _ Hst Hp) as (r & a0 & Ha0 & Hb0 & _).
    cbn in Ha. apply Hhb. assert (a0 = a) as -> by congruence. eauto. }
  split; [cbn [s4 st_bufs set_bufs]; apply lookup_insert_eq|].
  cbn [s4 s3 st_pakFile st_list st_dirs st_files st_times st_stderr set_bufs set_arena set_list].
  repeat split; assumption.
Qed.

(** X12: [save_file_name_list] prints one line per record of the list, in
    the order of the list: the name of the record as a C string, and its
    size.  It changes nothing else, and it runs before anything is
    extracted, so records that are skipped later are listed too. *)
Theorem name_list_follows_the_record_list fuel s ps rs :
  flist_holds s ps -> Forall2 (stored s) ps rs -> (length ps <= fuel)%nat ->
  records_from fuel s (fl_head (flist (st_header s))) = Some rs /\
  save_file_name_list fuel s
    = Ret (tt, set_list (st_list s ++ ((fun r => (cstring r.1.1, r.1.2)) <$> rs)) s).
Proof.
  intros (Hc & _) Hs Hf. split.
  - now apply (records_from_chain s ps).
  - unfold save_file_name_list. rewrite (bind_run _ _ s (st_header s) s) by reflexivity.
    now apply (name_list_lines ps).
Qed.

Lemma name_list_follows_the_record_list_witness :
  let s := set_list [] (session_at_record all_ok 5 []) in
  records_from 1 s (fl_head (flist (st_header s))) = Some [([97; 0], 5, a_time)] /\
  save_file_name_list 1 s = Ret (tt, set_list [([97], 5)] s).
Proof.
  refine (name_list_follows_the_record_list 1
            (set_list [] (session_at_record all_ok 5 [])) [(0%nat, 0)] [([97; 0], 5, a_time)]
            _ _ _).
  - split; [|repeat split].
    + split; [reflexivity|]. eexists. split; [reflexivity|]. reflexivity.
    + repeat constructor; intros H; inversion H.
  - repeat constructor. eexists. repeat split; reflexivity.
  - simpl. lia.
Defined.


(** X14: a container that is not the list file, whose records collide
    neither with each other nor with anything that exists nor with the list
    file, with all its payloads, under an operating system that refuses
    nothing.  [main] exits with 0 and prints nothing to [stderr]; the list
    holds one line per entry; every entry's file holds its declared payload,
    decoded, and carries its time; no file other than these and the list
    file is touched; and the directories are those that were there and the
    parents of the destinations. *)
Theorem conflict_free_container_is_extracted
    env prog pak root dirs files mg vs es payload fuel :
  permissive env -> pak <> filenames_txt -> root ∉ dirs ->
  files !! pak = Some (mg ++ vs ++ record_table es ++ payload) ->
  length mg = 4%nat -> length vs = 4%nat ->
  Forall entry_ok es -> Z.of_nat (length es) < SIZE_MOD ->
  Forall (path_fits env root) es ->
  declared_size es <= Z.of_nat (length payload) ->
  conflict_free env root dirs files es ->
  list_file_apart env root es ->
  (length es + length payload < fuel)%nat ->
  exists s',
    main fuel env [prog; pak; root] (initial_state env dirs files) = Ret (0, s') /\
    st_stderr s' = [] /\ st_list s' = list_line <$> es /\
    Forall2 (fun e bytes => st_files s' !! destination env root e = Some bytes /\
                            st_times s' !! destination env root e = Some (e_time e))
            es (declared_payloads es payload) /\
    (forall p, p <> filenames_txt -> p ∉ destination env root <$> es ->
               st_files s' !! p = files !! p) /\
    (forall d, d ∈ st_dirs s' <->
       d ∈ dirs \/ exists e, e ∈ es /\ d ∈ dir_prefixes [] (destination env root e)).
Proof.
  intros (Hm & Hw & Hmk & Hcr & Hwr & Hst) _ Hroot Hpak Hmg Hvs Hok Hlen Hfits Hsize Hfree _
         Hfuel.
  destruct (main_reaches_extraction env prog pak root dirs files mg vs es payload fuel
              Hm Hw Hroot Hpak Hmg Hvs Hok Hlen ltac:(lia))
    as (s4 & ps & buf & Hmain & Hc & Hstored & Hne & Hbuf & Hpak4 & Hl4 & Hd4 & Hf4 & Ht4 & He4).
  destruct (extract_files_from_complete env root buf 8192 es ps
              (fl_head (flist (st_header s4))) fuel s4 payload (fresh_bytes env 8192)
              Hmk Hcr Hwr Hst)
    as (s' & Hloop & Hserr & Hslist & Hall & Hother & Hdirs);
    [ rewrite length_fresh_bytes; lia | exact Hbuf | exact Hc | exact Hstored | exact Hne
    | exact Hok | exact Hfits | now rewrite Hpak4 | exact Hsize | exact Hfuel
    | now rewrite Hd4, Hf4 |].
  exists s'. split; [rewrite Hmain; now rewrite (bind_run _ _ _ _ _ Hloop)|].
  split; [now rewrite Hserr, He4|]. split; [now rewrite Hslist, Hl4|].
  split; [exact Hall|]. split.
  - intros p _ Hp. destruct (Hother p Hp) as [H _]. now rewrite H, Hf4.
  - intros d. rewrite Hdirs, Hd4. reflexivity.
Qed.


Lemma conflict_free_container_is_extracted_witness :
  let es := [entry_a 1; entry_b 2] in
  let files : gmap path (list Z) := {[ [112] := container es [88; 89; 90] ]} in
  exists s',
    main 6 all_ok argv_x_p_out (initial_state all_ok ∅ files) = Ret (0, s') /\
    st_stderr s' = [] /\ st_list s' = [([97], 1); ([98], 2)] /\
    Forall2 (fun e bytes => st_files s' !! destination all_ok [111; 117; 116] e = Some bytes /\
                            st_times s' !! destination all_ok [111; 117; 116] e = Some (e_time e))
            es [[88]; [89; 90]] /\
    (forall p, p <> filenames_txt -> p ∉ [out_a; out_b] -> st_files s' !! p = files !! p) /\
    (forall d, d ∈ st_dirs s' <->
       d ∈ (∅ : gset path) \/
       exists e, e ∈ es /\ d ∈ dir_prefixes [] (destination all_ok [111; 117; 116] e)).
Proof.
  refine (conflict_free_container_is_extracted all_ok [120] [112] [111; 117; 116] ∅
            {[ [112] := container [entry_a 1; entry_b 2] [88; 89; 90] ]}
            (encode [192; 74; 192; 186]) (encode [0; 0; 0; 0])
            [entry_a 1; entry_b 2] (encode [88; 89; 90]) 6 _ _ _ eq_refl eq_refl eq_refl
            _ _ _ _ _ _ _).
  - repeat split; intros; reflexivity.
  - discriminate.
  - apply not_elem_of_empty.
  - repeat constructor; try discriminate; vm_compute; congruence.
  - reflexivity.
  - repeat constructor; vm_compute; congruence.
  - vm_compute. congruence.
  - split.
    + change (NoDup [out_a; out_b]). repeat constructor.
      * intros H. apply list_elem_of_singleton in H. discriminate.
      * intros H. inversion H.
    + repeat constructor; try apply not_elem_of_empty;
        change (dir_prefixes [] (destination all_ok [111; 117; 116] (entry_a 1)))
          with [[111; 117; 116]];
        change (dir_prefixes [] (destination all_ok [111; 117; 116] (entry_b 2)))
          with [[111; 117; 116]];
        intros H; apply list_elem_of_singleton in H; discriminate.
  - repeat constructor; try discriminate;
      change (dir_prefixes [] (destination all_ok [111; 117; 116] (entry_a 1)))
        with [[111; 117; 116]];
      change (dir_prefixes [] (destination all_ok [111; 117; 116] (entry_b 2)))
        with [[111; 117; 116]];
      intros H; apply list_elem_of_singleton in H; discriminate.
  - simpl. lia.
Defined.

(** *** A second run *)

Lemma cstring_nonzero buf : Forall (fun c => c <> 0) (cstring buf).
Proof.
  induction buf as [|c buf IH]; cbn [cstring]; [constructor|].
  destruct (Z.eqb_spec c 0); [constructor|]. now constructor.
Qed.

Lemma cstring_split chars : exists rest, chars ++ [0] = cstring (chars ++ [0]) ++ 0 :: rest.
Proof.
  induction chars as [|c chars [rest IH]]; cbn [app cstring].
  - exists []. reflexivity.
  - destruct (Z.eqb_spec c 0) as [->|Hc].
    + exists (chars ++ [0]). reflexivity.
    + exists rest. cbn [app]. now rewrite <- IH.
Qed.

(** The destination of an entry below a root that does not end in a
    backslash: the root, a backslash, and the name as a C string. *)
Lemma destination_below_root env root e :
  root <> [] -> Forall (fun c => c <> 0) root -> last root <> Some BACKSLASH ->
  destination env root e = root ++ BACKSLASH :: cstring (e_name e ++ [0]).
Proof.
  intros Hne Hroot Hlast. unfold destination, build_complete_path.
  rewrite (cstring_terminated root []) by exact Hroot.
  destruct (exists_last Hne) as (front & c & ->).
  rewrite length_app, Nat.add_comm. cbn [length Nat.add].
  rewrite lookup_last_char. rewrite last_snoc in Hlast.
  destruct (Z.eqb_spec c BACKSLASH) as [->|Hc]; [congruence|]. cbn [negb].
  replace ((front ++ [c]) ++ [BACKSLASH] ++ cstring (e_name e ++ [0]) ++ [0])
    with (((front ++ [c]) ++ BACKSLASH :: cstring (e_name e ++ [0])) ++ 0 :: [])
    by (now rewrite <- !app_assoc).
  apply cstring_terminated. apply Forall_app. split; [exact Hroot|].
  constructor; [discriminate | apply cstring_nonzero].
Qed.

Lemma dir_prefixes_split pre : forall done rest,
  done ++ pre ∈ dir_prefixes done (pre ++ BACKSLASH :: rest).
Proof.
  induction pre as [|c pre IH]; intros done rest; cbn [app dir_prefixes].
  - rewrite app_nil_r. change (BACKSLASH =? BACKSLASH) with true. left.
  - apply elem_of_app. right.
    replace (done ++ c :: pre) with ((done ++ [c]) ++ pre) by (now rewrite <- app_assoc).
    apply IH.
Qed.

(** X18: a second run is refused.  After a run that has extracted a
    container with at least one record below a root that does not end in a
    backslash (the container is not the list file and no destination
    collides with anything, the list file included), the root is a
    directory; so a second run with the same arguments, whatever the files
    are by then, exits with 1 and leaves every directory and every file as
    it is: the program never writes into the result of an earlier run. *)
Theorem second_run_is_refused env prog pak root dirs files mg vs e es payload fuel :
  permissive env -> pak <> filenames_txt -> root ∉ dirs ->
  files !! pak = Some (mg ++ vs ++ record_table (e :: es) ++ payload) ->
  length mg = 4%nat -> length vs = 4%nat ->
  Forall entry_ok (e :: es) -> Z.of_nat (length (e :: es)) < SIZE_MOD ->
  Forall (path_fits env root) (e :: es) ->
  declared_size (e :: es) <= Z.of_nat (length payload) ->
  conflict_free env root dirs files (e :: es) ->
  list_file_apart env root (e :: es) ->
  (length (e :: es) + length payload < fuel)%nat ->
  root <> [] -> Forall (fun c => c <> 0) root -> last root <> Some BACKSLASH ->
  exists s',
    main fuel env [prog; pak; root] (initial_state env dirs files) = Ret (0, s') /\
    root ∈ st_dirs s' /\
    forall fuel' files',
    exists s'',
      main fuel' env [prog; pak; root] (initial_state env (st_dirs s') files') = Ret (1, s'') /\
      st_dirs s'' = st_dirs s' /\ st_files s'' = files'.
Proof.
  intros (Hm & Hw & Hmk & Hcr & Hwr & Hst) _ Hroot Hpak Hmg Hvs Hok Hlen Hfits Hsize Hfree _
         Hfuel Hne Hnz Hlast.
  destruct (main_reaches_extraction env prog pak root dirs files mg vs (e :: es) payload fuel
              Hm Hw Hroot Hpak Hmg Hvs Hok Hlen ltac:(lia))
    as (s4 & ps & buf & Hmain & Hc & Hstored & Hnebuf & Hbuf & Hpak4 & _ & Hd4 & Hf4 & _).
  destruct (extract_files_from_complete env root buf 8192 (e :: es) ps
              (fl_head (flist (st_header s4))) fuel s4 payload (fresh_bytes env 8192)
              Hmk Hcr Hwr Hst)
    as (s' & Hloop & _ & _ & _ & _ & Hdirs);
    [ rewrite length_fresh_bytes; lia | exact Hbuf | exact Hc | exact Hstored | exact Hnebuf
    | exact Hok | exact Hfits | now rewrite Hpak4 | exact Hsize | exact Hfuel
    | now rewrite Hd4, Hf4 |].
  assert (Hin : root ∈ st_dirs s').
  { apply Hdirs. right. exists e. split; [left|].
    rewrite (destination_below_root env root e Hne Hnz Hlast).
    apply (dir_prefixes_split root [] (cstring (e_name e ++ [0]))). }
  exists s'. split; [rewrite Hmain; now rewrite (bind_run _ _ _ _ _ Hloop)|].
  split; [exact Hin|].
  intros fuel' files'. exists (initial_state env (st_dirs s') files').
  split; [|split; reflexivity].
  unfold main. cbn [length lookup_total list_lookup_total].
  change (negb (Z.of_nat 3 =? 3)) with false. cbv iota.
  rewrite (bind_run _ _ _ true (initial_state env (st_dirs s') files')); [reflexivity|].
  unfold is_dir_exist, gets. cbn [st_dirs initial_state].
  now rewrite bool_decide_eq_true_2.
Qed.

Lemma second_run_is_refused_witness :
  let files : gmap path (list Z) := {[ [112] := container [entry_a 1; entry_b 2] [88; 89; 90] ]} in
  exists s',
    main 6 all_ok argv_x_p_out (initial_state all_ok ∅ files) = Ret (0, s') /\
    [111; 117; 116] ∈ st_dirs s' /\
    forall fuel' files',
    exists s'',
      main fuel' all_ok argv_x_p_out (initial_state all_ok (st_dirs s') files') = Ret (1, s'') /\
      st_dirs s'' = st_dirs s' /\ st_files s'' = files'.
Proof.
  refine (second_run_is_refused all_ok [120] [112] [111; 117; 116] ∅
            {[ [112] := container [entry_a 1; entry_b 2] [88; 89; 90] ]}
            (encode [192; 74; 192; 186]) (encode [0; 0; 0; 0])
            (entry_a 1) [entry_b 2] (encode [88; 89; 90]) 6 _ _ _ eq_refl eq_refl eq_refl
            _ _ _ _ _ _ _ _ _ _).
  - repeat split; intros; reflexivity.
  - discriminate.
  - apply not_elem_of_empty.
  - repeat constructor; try discriminate; vm_compute; congruence.
  - reflexivity.
  - repeat constructor; vm_compute; congruence.
  - vm_compute. congruence.
  - split.
    + change (NoDup [out_a; out_b]). repeat constructor.
      * intros H. apply list_elem_of_singleton in H. discriminate.
      * intros H. inversion H.
    + repeat constructor; try apply not_elem_of_empty;
        change (dir_prefixes [] (destination all_ok [111; 117; 116] (entry_a 1)))
          with [[111; 117; 116]];
        change (dir_prefixes [] (destination all_ok [111; 117; 116] (entry_b 2)))
          with [[111; 117; 116]];
        intros H; apply list_elem_of_singleton in H; discriminate.
  - repeat constructor; try discriminate;
      change (dir_prefixes [] (destination all_ok [111; 117; 116] (entry_a 1)))
        with [[111; 117; 116]];
      change (dir_prefixes [] (destination all_ok [111; 117; 116] (entry_b 2)))
        with [[111; 117; 116]];
      intros H; apply list_elem_of_singleton in H; discriminate.
  - simpl. lia.
  - discriminate.
  - repeat constructor; discriminate.
  - discriminate.
Defined.

(** *** abort() *)

Lemma bind_not_aborted {A B} (m : M A) (k : A -> M B) s :
  m s <> Aborted -> (forall a s', k a s' <> Aborted) -> bind m k s <> Aborted.
Proof.
  intros Hm Hk. unfold bind. destruct (m s) as [[a s']| | |]; try discriminate.
  - apply Hk.
  - contradiction.
Qed.

Lemma res_arena_malloc_not_aborted env size s :
  (forall n z, malloc_ok env n z = true) -> res_arena_malloc env size s <> Aborted.
Proof.
  intros Hm. unfold res_arena_malloc.
  destruct (arena_malloc_returns env (st_arena s) size Hm) as (p & a & ->). discriminate.
Qed.

Lemma load_attr_not_aborted p s : load_attr p s <> Aborted.
Proof. unfold load_attr. destruct (st_attrs s !! p); discriminate. Qed.

Lemma load_buf_not_aborted p s : load_buf p s <> Aborted.
Proof. unfold load_buf. destruct (st_bufs s !! p); discriminate. Qed.

Lemma file_attr_list_add_not_aborted attr s : file_attr_list_add attr s <> Aborted.
Proof.
  unfold file_attr_list_add.
  apply bind_not_aborted; [apply load_attr_not_aborted | intros a s1].
  apply bind_not_aborted; [discriminate | intros _ s2].
  apply bind_not_aborted; [discriminate | intros fl s3].
  destruct (fl_head fl); [|discriminate]. destruct (fl_tail fl); [|discriminate].
  apply bind_not_aborted; [apply load_attr_not_aborted | intros ta s4].
  apply bind_not_aborted; [discriminate | intros _ s5]. discriminate.
Qed.

Lemma parse_file_name_not_aborted env attr s :
  (forall n z, malloc_ok env n z = true) -> parse_file_name env attr s <> Aborted.
Proof.
  intros Hm. unfold parse_file_name.
  apply bind_not_aborted; [discriminate | intros [byte cnt] s1].
  apply bind_not_aborted; [now apply res_arena_malloc_not_aborted | intros name s2].
  apply bind_not_aborted; [discriminate | intros [buf1 cnt1] s3].
  apply bind_not_aborted; [discriminate | intros _ s4].
  apply bind_not_aborted; [apply load_attr_not_aborted | intros a s5]. discriminate.
Qed.

Lemma parse_all_file_attrs_not_aborted env : forall fuel s,
  (forall n z, malloc_ok env n z = true) -> parse_all_file_attrs fuel env s <> Aborted.
Proof.
  induction fuel as [|fuel IH]; intros s Hm; [discriminate|].
  cbn [parse_all_file_attrs].
  apply bind_not_aborted; [discriminate | intros eof s1].
  destruct eof; [discriminate|].
  apply bind_not_aborted; [discriminate | intros stop s2].
  destruct stop; [discriminate|].
  apply bind_not_aborted; [now apply res_arena_malloc_not_aborted | intros attr s3].
  apply bind_not_aborted; [discriminate | intros _ s4].
  apply bind_not_aborted; [now apply parse_file_name_not_aborted | intros _ s5].
  apply bind_not_aborted.
  { unfold parse_file_size.
    apply bind_not_aborted; [apply load_attr_not_aborted | intros a s']. 
    apply bind_not_aborted; [discriminate | intros [b c] s'']. discriminate. }
  intros _ s6. apply bind_not_aborted.
  { unfold parse_file_last_write_time.
    apply bind_not_aborted; [apply load_attr_not_aborted | intros a s'].
    apply bind_not_aborted; [discriminate | intros [b c] s'']. discriminate. }
  intros _ s7.
  apply bind_not_aborted; [apply file_attr_list_add_not_aborted | intros _ s8].
  now apply IH.
Qed.

Lemma save_file_name_list_from_not_aborted : forall fuel h s,
  save_file_name_list_from fuel h s <> Aborted.
Proof.
  induction fuel as [|fuel IH]; intros [p|] s; cbn [save_file_name_list_from]; try discriminate.
  apply bind_not_aborted; [apply load_attr_not_aborted | intros a s1].
  apply bind_not_aborted; [apply load_buf_not_aborted | intros name s2].
  apply bind_not_aborted; [discriminate | intros _ s3]. apply IH.
Qed.

Lemma create_parent_dirs_from_not_aborted env : forall todo done s,
  create_parent_dirs_from env done todo s <> Aborted.
Proof.
  intros todo done s.
  destruct (create_parent_dirs_returns env todo done s) as (r & s' & ->). discriminate.
Qed.

Lemma copy_payload_not_aborted env h buf len : forall fuel fileSize s,
  copy_payload fuel env h fileSize buf len s <> Aborted.
Proof.
  induction fuel as [|fuel IH]; intros fileSize s; [discriminate|].
  cbn [copy_payload]. destruct (0 <? fileSize); [|discriminate].
  apply bind_not_aborted; [apply load_buf_not_aborted | intros old s1].
  apply bind_not_aborted; [discriminate | intros [new cnt] s2].
  apply bind_not_aborted; [discriminate | intros _ s3].
  apply bind_not_aborted.
  { unfold WriteFile. destruct (write_ok env h _ _); discriminate. }
  intros written s4. destruct written; cbn [negb]; [apply IH|].
  apply bind_not_aborted; [discriminate | intros _ s5]. discriminate.
Qed.

Lemma parse_and_extract_one_file_not_aborted fuel env attr root buf len s :
  parse_and_extract_one_file fuel env attr root buf len s <> Aborted.
Proof.
  unfold parse_and_extract_one_file.
  apply bind_not_aborted; [apply load_attr_not_aborted | intros a s1].
  apply bind_not_aborted; [apply load_buf_not_aborted | intros name s2].
  destruct (MAX_PATH <? _); [discriminate|].
  apply bind_not_aborted; [apply create_parent_dirs_from_not_aborted | intros [ok shown] s3].
  destruct ok; cbn [negb]; [|discriminate].
  apply bind_not_aborted.
  { destruct (CreateFile_returns env (cstring (build_complete_path (stray_byte env) root name)) s3)
      as (h & s' & ->). discriminate. }
  intros [h|] s4; [|discriminate].
  apply bind_not_aborted; [apply copy_payload_not_aborted | intros copied s5].
  destruct copied; [|discriminate].
  apply bind_not_aborted.
  { unfold SetFileTime. destruct (settime_ok env h); discriminate. }
  intros set s6. destruct set; discriminate.
Qed.

Lemma extract_files_from_not_aborted env root buf len : forall fuel h s,
  extract_files_from fuel env h root buf len s <> Aborted.
Proof.
  induction fuel as [|fuel IH]; intros [p|] s; cbn [extract_files_from]; try discriminate.
  apply bind_not_aborted; [apply parse_and_extract_one_file_not_aborted | intros _ s1].
  apply bind_not_aborted; [apply load_attr_not_aborted | intros a s2]. apply IH.
Qed.

(** X15: [abort()] is reached through a failing [malloc] only.  When every
    [malloc] succeeds no run of [main] is ended by [abort()], whatever the
    arguments, the file and the file system are. *)
Theorem main_aborts_only_without_memory fuel env argv s :
  (forall n z, malloc_ok env n z = true) -> main fuel env argv s <> Aborted.
Proof.
  intros Hm. unfold main.
  destruct (negb (Z.of_nat (length argv) =? 3)); [discriminate|].
  apply bind_not_aborted; [discriminate | intros exists_ s1].
  destruct exists_; [discriminate|].
  apply bind_not_aborted.
  { unfold resource_init. destruct (arena_create env 8192); [|discriminate].
    apply bind_not_aborted; [discriminate | intros [bytes|] s2]; [|discriminate].
    destruct (negb (fopen_w_ok env filenames_txt)); [discriminate|].
    apply bind_not_aborted; [discriminate | intros _ s3].
    apply bind_not_aborted; [discriminate | intros _ s4].
    apply bind_not_aborted; [discriminate | intros _ s5]. discriminate. }
  intros ok s2. destruct ok; cbn [negb]; [|discriminate].
  apply bind_not_aborted; [discriminate | intros _ s3].
  apply bind_not_aborted.
  { unfold parse_pak_header.
    apply bind_not_aborted.
    { unfold parse_magic. apply bind_not_aborted; [discriminate | intros h s'].
      apply bind_not_aborted; [discriminate | intros [b c] s'']. discriminate. }
    intros _ s4. apply bind_not_aborted.
    { unfold parse_version. apply bind_not_aborted; [discriminate | intros h s'].
      apply bind_not_aborted; [discriminate | intros [b c] s'']. discriminate. }
    intros _ s5. now apply parse_all_file_attrs_not_aborted. }
  intros _ s4. apply bind_not_aborted.
  { unfold save_file_name_list. apply bind_not_aborted; [discriminate | intros h s'].
    apply save_file_name_list_from_not_aborted. }
  intros _ s5. apply bind_not_aborted.
  { unfold extract_files. apply bind_not_aborted; [discriminate | intros h s'].
    apply bind_not_aborted; [now apply res_arena_malloc_not_aborted | intros buf s''].
    apply bind_not_aborted; [discriminate | intros _ s'''].
    apply extract_files_from_not_aborted. }
  intros _ s6. discriminate.
Qed.

Lemma main_aborts_only_without_memory_witness :
  main 8 all_ok argv_x_p_out (initial_state all_ok ∅ truncated_files) <> Aborted.
Proof.
  apply (main_aborts_only_without_memory 8 all_ok argv_x_p_out).
  intros n z. reflexivity.
Defined.

(** *** A write that fails *)

(** X16: when the first [WriteFile] of a record fails, the call prints
    the message and returns: the file stays behind, empty; its time is not
    set; and the chunk that was read for it is gone from the stream, so
    the next record is copied from the middle of this record's payload. *)
Theorem failed_write_leaves_an_empty_file fuel env attr extractPath buf len
    s a name old shown s1 h s2 :
  st_attrs s !! attr = Some a ->
  st_bufs s !! fileName a = Some name ->
  st_bufs s !! buf = Some old ->
  let stored := build_complete_path (stray_byte env) extractPath name in
  Z.of_nat (length stored) <= MAX_PATH ->
  recursive_create_parent_dirs env (cstring stored) s = Ret ((true, shown), s1) ->
  CreateFile env (cstring stored) s1 = Ret (Some h, s2) ->
  0 < fileSize a < UINT32_MOD -> 0 < len ->
  let chunk := Z.to_nat (Z.min (fileSize a) len) in
  write_ok env h 0 (Z.of_nat (length (take chunk (f_data (st_pakFile s))))) = false ->
  (0 < fuel)%nat ->
  exists s',
    parse_and_extract_one_file fuel env attr extractPath buf len s = Ret (tt, s') /\
    st_files s !! h = None /\
    st_files s' = <[h := []]> (st_files s) /\
    st_times s' = st_times s /\
    st_stderr s' = st_stderr s ++ [ErrWriteFile] /\
    f_data (st_pakFile s') = drop chunk (f_data (st_pakFile s)) /\
    st_dirs s' = st_dirs s1.
Proof.
  intros Ha Hn Hb stored Hfit Hdirs Hcreate Hsz Hlen chunk Hw Hfuel.
  destruct (create_parent_dirs_only_dirs _ _ _ _ _ _ Hdirs) as [E1 _].
  destruct (CreateFile_new _ _ _ _ _ Hcreate) as (Hh & _ & Hnew & E2).
  assert (F1 : st_files s1 = st_files s) by (rewrite E1; reflexivity).
  destruct fuel as [|fuel]; [lia|].
  set (data := f_data (st_pakFile s)) in *.
  set (got := take chunk data) in *.
  assert (Hgot : Z.of_nat (length got) <= Z.min (fileSize a) len)
    by (subst got chunk; rewrite length_take; lia).
  set (s3 := set_stderr (st_stderr s2 ++ [ErrWriteFile])
               (set_bufs (<[buf := decode_bytes (got ++ drop (length got) old)
                                     (Z.of_nat (length got))]> (st_bufs s2))
                  (set_pakFile (mkFILE (drop chunk data)
                                  (f_eof (st_pakFile s)
                                   || (Z.of_nat (length data) <? Z.min (fileSize a) len)))
                     s2))).
  assert (Hcopy : copy_payload (S fuel) env h (fileSize a) buf len s2 = Ret (false, s3)).
  { cbn [copy_payload].
    replace (0 <? fileSize a) with true by (symmetry; apply Z.ltb_lt; lia).
    replace (if fileSize a <? len then fileSize a else len) with (Z.min (fileSize a) len)
      by (destruct (Z.ltb_spec (fileSize a) len); lia).
    unfold bind at 1. unfold load_buf at 1.
    replace (st_bufs s2 !! buf) with (Some old) by (rewrite E2, E1; symmetry; exact Hb).
    unfold bind at 1. unfold pak_fread at 1. unfold fread.
    replace (st_pakFile s2) with (st_pakFile s) by (rewrite E2, E1; reflexivity).
    fold data chunk got.
    rewrite (u32_wrap_small (Z.of_nat (length got))) by lia.
    unfold bind at 1. unfold store_buf at 1, modify at 1.
    unfold bind at 1. unfold WriteFile at 1.
    cbn [st_files set_bufs set_pakFile].
    replace (st_files s2 !! h) with (Some ([] : list Z))
      by (rewrite E2, Hh; cbn [st_files set_files]; now rewrite lookup_insert_eq).
    cbn [default from_option length]. unfold id.
    assert (Hl : length (take (Z.to_nat (Z.of_nat (length got)))
                           (decode_bytes (got ++ drop (length got) old) (Z.of_nat (length got))))
                 = length got).
    { unfold decode_bytes.
      rewrite Nat2Z.id, take_app_length' by (now rewrite length_fmap, take_app_length).
      now rewrite length_fmap, take_app_length. }
    rewrite Hl. change (Z.of_nat (length (@nil Z))) with 0. rewrite Hw. cbn [negb].
    reflexivity. }
  exists s3. split.
  { unfold parse_and_extract_one_file.
    rewrite (bind_run _ _ s a s) by (unfold load_attr; now rewrite Ha).
    rewrite (bind_run _ _ s name s) by (unfold load_buf; now rewrite Hn).
    fold stored.
    replace (MAX_PATH <? Z.of_nat (length stored)) with false
      by (symmetry; apply Z.ltb_ge; lia).
    rewrite (bind_run _ _ _ _ _ Hdirs). cbn [negb].
    rewrite (bind_run _ _ _ _ _ Hcreate).
    now rewrite (bind_run _ _ _ _ _ Hcopy). }
  cbn [s3 st_files st_times st_stderr st_pakFile st_dirs set_stderr set_bufs set_pakFile f_data].
  rewrite E2. cbn [st_files st_times st_stderr st_dirs set_files]. rewrite E1 at 2 3.
  cbn [st_times st_stderr set_dirs]. rewrite F1, Hh.
  split; [rewrite <- F1; exact Hnew|]. repeat split.
Qed.

Lemma failed_write_leaves_an_empty_file_witness :
  let s := session_at_record disk_full 2 (encode [88; 89; 90]) in
  exists s',
    parse_and_extract_one_file 1 disk_full (0%nat, 0) ([111; 117; 116] ++ [0]) (1%nat, 0) 8192 s
      = Ret (tt, s') /\
    st_files s' = <[out_a := []]> ∅ /\ st_times s' = ∅ /\ st_stderr s' = [ErrWriteFile] /\
    f_data (st_pakFile s') = encode [90].
Proof.
  cbv zeta.
  edestruct (failed_write_leaves_an_empty_file 1 disk_full
               (0%nat, 0) ([111; 117; 116] ++ [0]) (1%nat, 0) 8192
               (session_at_record disk_full 2 (encode [88; 89; 90]))
               (mkFileAttr (0%nat, 32) 2 a_time None) [97; 0] (fresh_bytes disk_full 8192))
    as (s' & Hrun & _ & Hfiles & Htimes & Herr & Hdata & _).
  - reflexivity.
  - reflexivity.
  - reflexivity.
  - vm_compute. congruence.
  - vm_compute. reflexivity.
  - vm_compute. reflexivity.
  - vm_compute. split; reflexivity.
  - lia.
  - reflexivity.
  - lia.
  - exists s'. split; [exact Hrun|]. repeat split; assumption.
Defined.


(** ** Releasing the pool *)

Lemma next_fields_beyond blocks k :
  (length blocks <= k)%nat -> next_fields blocks !! k = None.
Proof.
  induction blocks as [|b older IH]; intros Hk; cbn [next_fields].
  - apply lookup_empty.
  - cbn [length] in Hk. rewrite lookup_insert_ne by lia. apply IH. lia.
Qed.

Lemma arena_free_loop_chain blocks : forall fuel head freed,
  (length blocks < fuel)%nat ->
  arena_free_loop fuel (newest blocks) (mkHeap (Some head) (next_fields blocks) freed)
    = Ret (mkHeap (Some (if blocks is [] then head else None)) ∅
             (freed ++ (ObjBlock <$> reverse (seq 0 (length blocks))))).
Proof.
  induction blocks as [|b older IH]; intros fuel head freed Hfuel.
  - destruct fuel; cbn; now rewrite app_nil_r.
  - destruct fuel as [|fuel]; [lia|].
    cbn [newest arena_free_loop next_fields hp_next hp_arena].
    rewrite lookup_insert_eq. unfold free_block. cbn [hp_next hp_arena hp_freed].
    rewrite lookup_insert_eq. rewrite delete_insert_eq.
    rewrite delete_id by (apply next_fields_beyond; lia).
    cbn [hp_arena].
    rewrite (IH fuel (newest older) (freed ++ [ObjBlock (length older)]))
      by (cbn [length] in Hfuel; lia).
    f_equal. f_equal; [now destruct older|].
    cbn [length]. rewrite seq_S, reverse_app, reverse_singleton.
    cbn [app Nat.add fmap list_fmap]. now rewrite <- app_assoc.
Qed.

(** X17: [arena_free] on the pool as the allocator has built it: every
    block is freed exactly once, the newest first, and the allocator object
    last; no field of a freed object is read and nothing is freed twice;
    nothing of the pool is left.  On a NULL pointer it does nothing. *)
Theorem arena_free_releases_every_block_once a fuel :
  (length (head a) < fuel)%nat ->
  arena_free fuel true (heap_of a)
    = Ret (mkHeap None ∅ ((ObjBlock <$> reverse (seq 0 (length (head a)))) ++ [ObjArena])) /\
  NoDup ((ObjBlock <$> reverse (seq 0 (length (head a)))) ++ [ObjArena]) /\
  (forall k, (k < length (head a))%nat <-> ObjBlock k ∈ ObjBlock <$> reverse (seq 0 (length (head a)))) /\
  forall h, arena_free fuel false h = Ret h.
Proof.
  intros Hfuel. split; [|split; [|split]].
  - unfold arena_free, heap_of. cbn [hp_arena].
    rewrite (arena_free_loop_chain (head a) fuel (newest (head a)) [] Hfuel).
    reflexivity.
  - apply NoDup_app. split; [|split].
    + apply NoDup_fmap_2; [intros x y H; now inversion H|].
      rewrite reverse_Permutation. apply NoDup_seq.
    + intros x Hx Hx'. apply list_elem_of_singleton in Hx' as ->.
      apply list_elem_of_fmap in Hx as (k & Hk & _). discriminate.
    + apply NoDup_singleton.
  - intros k. rewrite list_elem_of_fmap. split.
    + intros Hk. exists k. split; [reflexivity|].
      rewrite elem_of_reverse, elem_of_seq. lia.
    + intros (k' & Heq & Hk'). inversion Heq; subst.
      rewrite elem_of_reverse, elem_of_seq in Hk'. lia.
  - reflexivity.
Qed.

Lemma arena_free_releases_every_block_once_witness :
  arena_free 4 true (heap_of (mkArena [mkBlock 10000 10000; mkBlock 8192 8192; mkBlock 8132 8192] 8192 3))
    = Ret (mkHeap None ∅ [ObjBlock 2; ObjBlock 1; ObjBlock 0; ObjArena]).
Proof.
  refine (proj1 (arena_free_releases_every_block_once
                   (mkArena [mkBlock 10000 10000; mkBlock 8192 8192; mkBlock 8132 8192] 8192 3)
                   4 _)).
  simpl. lia.
Defined.
